(** * Structured-logging pipeline of the health microservice

    A shallow embedding of

    - [utils/logging_helpers.py]      (the memory probe [get_memory_usage]),
    - [utils/custom_json_formatter.py] ([CustomJSONFormatter]),
    - [utils/logging_config.py]       ([SafeQueueListener], [configure_logging]),

    together with the parts of the Python standard library and of
    [json_log_formatter] these files call into.  Python dictionaries are
    finite maps with string keys; a call that can raise returns a [result];
    reads of the outside world (host name, clock, [psutil], the rendering
    functions of [traceback] and [logging]) are fields of an [Env]. *)

From Stdlib Require Import ZArith QArith Lia Ascii.
From stdpp Require Import gmap strings list fin_maps pretty.

Set Warnings "-register-all".
Local Open Scope string_scope.
Local Open Scope list_scope.
Local Open Scope Z_scope.

(** ** Python values *)

(** The values a log record or a metadata dictionary can carry.
    [PDatetime] carries the text its [isoformat()] returns; [PObject] is
    any object [json.dumps] has no encoding for (a set, a class instance),
    carrying its [repr]. *)
Inductive pyval : Type :=
| PNone
| PBool (b : bool)
| PInt (z : Z)
| PFloat (q : Q)
| PStr (s : string)
| PDatetime (iso : string)
| PList (l : list pyval)
| PObject (repr : string).

(** What [json.dumps] writes. *)
Inductive json : Type :=
| JNull
| JBool (b : bool)
| JInt (z : Z)
| JFloat (q : Q)
| JStr (s : string)
| JArr (l : list json).

Abbreviation dict := (gmap string pyval).

(** ** Exceptions and fallible calls *)

Inductive exn_class : Type :=
| TypeError
| ValueError
| KeyError
| OSError
| PermissionError
| RuntimeError
| NoSuchProcess
| AccessDenied
| ZombieProcess
| LoggingConfigurationError.

Record exn : Type := Exn { exn_cls : exn_class; exn_msg : string }.

(** [str(e)] *)
Definition str_exn (e : exn) : string := exn_msg e.

Inductive result (A : Type) : Type :=
| Ok (a : A)
| Raise (e : exn).
Arguments Ok {A} a.
Arguments Raise {A} e.

Definition rbind {A B} (m : result A) (k : A -> result B) : result B :=
  match m with
  | Ok a => k a
  | Raise e => Raise e
  end.

Notation "x <-- m ;; k" := (rbind m (fun x => k))
  (at level 100, m at next level, right associativity).

(** ** The outside world *)

(** The exception triple of [sys.exc_info()]: class name, [str] of the
    exception, and the traceback (its frames) when there is one. *)
Record exc_triple : Type := ExcInfo {
  exc_type : string;
  exc_value : string;
  exc_traceback : option (list string)
}.

Inductive psutil_outcome : Type :=
| Rss (bytes : Z)              (* [Process().memory_info().rss] *)
| PsutilRaises (e : exn).

(** One [Env] is what the world answers during one call of the formatter:
    a call made twice in it (the host name, the memory probe) gets the same
    answer both times. *)
Record Env : Type := {
  (* socket.gethostname() *)
  gethostname : string;
  (* os.environ.get("ENVIRONMENT") *)
  environ_ENVIRONMENT : option string;
  (* datetime.utcnow(), by its isoformat *)
  utcnow : string;
  (* psutil.Process() followed by memory_info() *)
  psutil_probe : psutil_outcome;
  (* "".join(traceback.format_exception(t, v, tb)) *)
  format_exception : exc_triple -> string;
  (* "".join(traceback.format_exception(t, v)): the two-argument call *)
  format_exception_no_tb : string -> string -> result string;
  (* logging.Formatter.formatException *)
  formatException : exc_triple -> string;
  (* str(msg) % args *)
  percent_format : string -> list pyval -> result string;
  (* time.strftime("%Y-%m-%dT%H:%M:%S", time.gmtime(t)) *)
  strftime_gmtime : Z -> string;
  (* what the handlers of the loggers do to the existing files and their
     modes when they write a record: nothing, unless a RotatingFileHandler
     rolls over, which renames its file to the first backup and creates it
     anew with the mode the umask gives.  The first argument is what the
     process has logged before, on which the sizes of the files depend. *)
  handlers_write : list string -> string -> gmap string Z -> gmap string Z
}.

(** [os.getenv("ENVIRONMENT", "development")] *)
Definition getenv_ENVIRONMENT (w : Env) : string :=
  default "development" (environ_ENVIRONMENT w).

(** ** Configuration (config/config.py) *)

Record LoggingConfig : Type := {
  log_level : string;
  file_log_level : string;
  console_log_level : string;
  log_file_path : string;
  error_log_file_path : string;
  log_queue_size : Z;
  max_log_file_size : Z;
  max_backup_files : Z;
  enable_memory_logging : bool;
  enable_execution_time_logging : bool;
  enable_request_metadata : bool;
  enable_stack_trace_logging : bool
}.

(** ** The memory probe (utils/logging_helpers.py) *)

(** Nearest integer to [num / den] ([den > 0]), ties to the even one: what
    [round] does on the exact value of a float. *)
Definition round_half_even (num den : Z) : Z :=
  let q := num / den in
  let r := num mod den in
  if 2 * r <? den then q
  else if den <? 2 * r then q + 1
  else if Z.even q then q else q + 1.

(** [round(rss / (1024 * 1024), 2)], counted in hundredths of a megabyte.
    Dividing an integer below 2^53 by 2^20 is exact in binary floating
    point, so the rounded value is the hundredth nearest to the exact
    quotient. *)
Definition round_mb_2 (rss : Z) : Z :=
  round_half_even (rss * 100) (1024 * 1024).

Definition UNKNOWN : pyval := PStr "UNKNOWN".

(** [except (psutil.NoSuchProcess, psutil.AccessDenied, psutil.ZombieProcess)] *)
Definition probe_except (c : exn_class) : bool :=
  match c with
  | NoSuchProcess | AccessDenied | ZombieProcess => true
  | _ => false
  end.

Definition get_memory_usage (w : Env) : result pyval :=
  match psutil_probe w with
  | Rss rss => Ok (PFloat (round_mb_2 rss # 100))
  | PsutilRaises e =>
      if probe_except (exn_cls e) then Ok UNKNOWN else Raise e
  end.

(** ** Log records (logging.LogRecord) *)

(** The attributes [LogRecord.__init__] sets, and [extra_attrs], the
    attributes a caller adds through [extra=...] ([Logger.makeRecord] writes
    them into the record's [__dict__]).  [created], [msecs] and
    [relativeCreated] are floats of which the formatter reads the integer
    part only ([time.gmtime], [int(msecs)]). *)
Record LogRecord : Type := {
  name : string;
  msg : string;
  args : list pyval;
  levelname : string;
  levelno : Z;
  pathname : string;
  filename : string;
  module : string;
  exc_info : option exc_triple;
  exc_text : option string;
  stack_info : option string;
  lineno : Z;
  funcName : string;
  created : Z;
  msecs : Z;
  relativeCreated : Z;
  thread : Z;
  threadName : string;
  processName : string;
  process : Z;
  extra_attrs : dict
}.

Definition opt_str (o : option string) : pyval :=
  match o with Some s => PStr s | None => PNone end.

(** The attributes of [LogRecord.__init__] as [__dict__] entries. *)
Definition init_attrs (r : LogRecord) : dict :=
  list_to_map
    [ ("name", PStr (name r)); ("msg", PStr (msg r)); ("args", PList (args r));
      ("levelname", PStr (levelname r)); ("levelno", PInt (levelno r));
      ("pathname", PStr (pathname r)); ("filename", PStr (filename r));
      ("module", PStr (module r));
      ("exc_info", match exc_info r with
                   | Some ei => PObject (exc_type ei)
                   | None => PNone
                   end);
      ("exc_text", opt_str (exc_text r));
      ("stack_info", opt_str (stack_info r));
      ("lineno", PInt (lineno r)); ("funcName", PStr (funcName r));
      ("created", PInt (created r)); ("msecs", PInt (msecs r));
      ("relativeCreated", PInt (relativeCreated r));
      ("thread", PInt (thread r)); ("threadName", PStr (threadName r));
      ("processName", PStr (processName r)); ("process", PInt (process r)) ].

(** [record.__dict__]: an attribute of [__init__] is never replaced by a
    caller's metadata ([makeRecord] refuses such a key). *)
Definition record_dict (r : LogRecord) : dict :=
  init_attrs r ∪ extra_attrs r.

(** [getattr(record, attr, dflt)] *)
Definition getattr (r : LogRecord) (attr : string) (dflt : pyval) : pyval :=
  default dflt (record_dict r !! attr).

(** [extra.get(key, dflt)] *)
Definition dict_get (d : dict) (key : string) (dflt : pyval) : pyval :=
  default dflt (d !! key).

(** The attributes an instance of [dict] has: the methods of the class
    (the public ones; the special methods are attributes in the same way).
    Its keys are not attributes. *)
Definition dict_methods : list string :=
  [ "clear"; "copy"; "fromkeys"; "get"; "items"; "keys"; "pop"; "popitem";
    "setdefault"; "update"; "values" ].

(** [getattr(d, attr, dflt)] on a dictionary [d] *)
Definition dict_getattr (d : dict) (attr : string) (dflt : pyval) : pyval :=
  if bool_decide (attr ∈ dict_methods)
  then PObject ("<built-in method " +:+ attr +:+ " of dict object>")
  else dflt.

(** Truth value of a dictionary: non-empty. *)
Definition dict_truthy (d : dict) : bool := bool_decide (d ≠ ∅).

(** [LogRecord.getMessage] *)
Definition getMessage (w : Env) (r : LogRecord) : result string :=
  match args r with
  | [] => Ok (msg r)
  | _ :: _ => percent_format w (msg r) (args r)
  end.

(** [f"{n:03d}"] for [n >= 0] *)
Definition fmt_03d (n : Z) : string :=
  let s := pretty (Z.to_N n) in
  if (n <? 10) then "00" +:+ s
  else if (n <? 100) then "0" +:+ s
  else s.

(** [time.strftime(...) + f".{int(msecs):03d}Z"] *)
Definition iso_timestamp (w : Env) (r : LogRecord) : string :=
  strftime_gmtime w (created r) +:+ "." +:+ fmt_03d (msecs r) +:+ "Z".

(** ** json_log_formatter.JSONFormatter.json_record

    The base class writes into the dictionary it was given and returns that
    same dictionary. *)
Definition base_json_record (w : Env) (message : string) (extra : dict)
    (record : LogRecord) : dict :=
  let extra := <["message" := PStr message]> extra in
  let extra :=
    match extra !! "time" with
    | Some _ => extra
    | None => <["time" := PDatetime (utcnow w)]> extra
    end in
  match exc_info record with
  | Some ei => <["exc_info" := PStr (formatException w ei)]> extra
  | None => extra
  end.

(** ** CustomJSONFormatter (utils/custom_json_formatter.py) *)

Definition is_error_level (lvl : string) : bool :=
  bool_decide (lvl ∈ ["ERROR"; "CRITICAL"]).

Definition NO_EXC_INFO : string :=
  "⚠️ Exception occurred, but no exception info was available.".

Definition STACK_TRACE_ERROR : string := "⚠️ Error retrieving stack trace: ".

(** The argument [extra] of [json_record] is any Python object. *)
Inductive extra_arg : Type :=
| ExtraDict (d : dict)
| ExtraOther (v : pyval).

(** Lines 137-151: the guarded stack-trace block. *)
Definition json_record_stack_trace (w : Env) (log_record : LogRecord)
    (record : dict) : dict :=
  match exc_info log_record with
  | Some ei =>
      if is_error_level (levelname log_record) then
        match exc_traceback ei with
        | Some _ => <["stack_trace" := PStr (format_exception w ei)]> record
        | None =>
            match format_exception_no_tb w (exc_type ei) (exc_value ei) with
            | Ok s => <["stack_trace" := PStr s]> record
            | Raise e =>
                <["stack_trace" := PStr (STACK_TRACE_ERROR +:+ str_exn e)]> record
            end
        end
      else record
  | None =>
      if is_error_level (levelname log_record)
      then <["stack_trace" := PStr NO_EXC_INFO]> record
      else record
  end.

(** Lines 95-104.  After line 93 [record] and [extra] name one dictionary,
    so each [extra.get] reads the dictionary being filled; [extra] is a
    dictionary from line 91 on, which leaves the [else] of line 101
    unreachable. *)
Definition add_request_metadata (config : LoggingConfig)
    (log_record : LogRecord) (record : dict) : dict :=
  if enable_request_metadata config then
    let record :=
      <["request_id" :=
          getattr log_record "request_id" (dict_get record "request_id" UNKNOWN)]>
        record in
    let record :=
      <["user_id" :=
          getattr log_record "user_id" (dict_get record "user_id" UNKNOWN)]>
        record in
    <["feed_type" :=
        getattr log_record "feed_type" (dict_get record "feed_type" UNKNOWN)]>
      record
  else record.

(** Lines 106-108: the fallback is [getattr] on the dictionary. *)
Definition add_trace_fields (log_record : LogRecord) (record : dict) : dict :=
  let record :=
    <["trace_id" :=
        getattr log_record "trace_id"
          (if dict_truthy record then dict_getattr record "trace_id" UNKNOWN
           else UNKNOWN)]> record in
  <["span_id" :=
      getattr log_record "span_id"
        (if dict_truthy record then dict_getattr record "span_id" UNKNOWN
         else UNKNOWN)]> record.

(** Lines 110-126: debugging details, system context, timestamp, [time]. *)
Definition add_context (w : Env) (log_record : LogRecord) (record : dict)
    : dict :=
  let record := <["module" := getattr log_record "module" UNKNOWN]> record in
  let record := <["function" := getattr log_record "funcName" UNKNOWN]> record in
  let record := <["line" := getattr log_record "lineno" UNKNOWN]> record in
  let record := <["process" := getattr log_record "process" UNKNOWN]> record in
  let record := <["thread" := getattr log_record "thread" UNKNOWN]> record in
  let record := <["hostname" := PStr (gethostname w)]> record in
  let record := <["environment" := PStr (getenv_ENVIRONMENT w)]> record in
  let record := <["timestamp" := PStr (iso_timestamp w log_record)]> record in
  <["time" := match record !! "time" with
              | Some (PDatetime iso) => PStr iso
              | Some v => v
              | None => PNone
              end]> record.

(** Lines 128-130, and 64-66 of [format]. *)
Definition add_execution_time (config : LoggingConfig) (log_record : LogRecord)
    (record : dict) : dict :=
  if enable_execution_time_logging config
  then <["execution_time_ms" := getattr log_record "execution_time_ms" UNKNOWN]>
         record
  else record.

(** Lines 132-134, and 68-70 of [format]. *)
Definition add_memory_usage (w : Env) (config : LoggingConfig) (record : dict)
    : result dict :=
  if enable_memory_logging config
  then m <-- get_memory_usage w ;; Ok (<["memory_usage_mb" := m]> record)
  else Ok record.

(** [CustomJSONFormatter.json_record] *)
Definition json_record (w : Env) (config : LoggingConfig)
    (log_record : LogRecord) (message : string) (extra : extra_arg)
    : result dict :=
  let extra := match extra with ExtraDict d => d | ExtraOther _ => ∅ end in
  let record := base_json_record w message extra log_record in
  let record := add_request_metadata config log_record record in
  let record := add_trace_fields log_record record in
  let record := add_context w log_record record in
  let record := add_execution_time config log_record record in
  record <-- add_memory_usage w config record ;;
  Ok (json_record_stack_trace w log_record record).

(** [_extract_extra_fields] *)
Definition excluded_fields : list string :=
  [ "args"; "msg"; "exc_info"; "exc_text"; "created"; "msecs";
    "relativeCreated"; "stack_info" ].

Definition _extract_extra_fields (record : LogRecord) : dict :=
  filter (fun kv => kv.1 ∉ excluded_fields) (record_dict record).

(** ** json.dumps *)

Fixpoint to_json (v : pyval) : option json :=
  match v with
  | PNone => Some JNull
  | PBool b => Some (JBool b)
  | PInt z => Some (JInt z)
  | PFloat q => Some (JFloat q)
  | PStr s => Some (JStr s)
  | PList l =>
      JArr <$> (fix go (l : list pyval) : option (list json) :=
                  match l with
                  | [] => Some []
                  | x :: l' =>
                      match to_json x, go l' with
                      | Some j, Some js => Some (j :: js)
                      | _, _ => None
                      end
                  end) l
  | PDatetime _ => None
  | PObject _ => None
  end.

Definition serializable (v : pyval) : bool :=
  match to_json v with Some _ => true | None => false end.

(** [json.dumps(d)] without a [default=]: a [TypeError] as soon as one value
    has no encoding, the object with every entry encoded otherwise. *)
Definition json_dumps (d : dict) : result (gmap string json) :=
  if bool_decide (map_Forall (fun _ v => serializable v = true) d)
  then Ok (omap to_json d)
  else Raise (Exn TypeError "Object is not JSON serializable").

(** Lines 49-50 of [format]. *)
Definition time_isoformat (d : dict) : dict :=
  match d !! "time" with
  | Some (PDatetime iso) => <["time" := PStr iso]> d
  | _ => d
  end.

(** Lines 54-62 of [format]: [structured_record.update({...})]. *)
Definition update_context (w : Env) (record : LogRecord) (d : dict) : dict :=
  <["environment" := PStr (getenv_ENVIRONMENT w)]>
  (<["hostname" := PStr (gethostname w)]>
  (<["thread" := PInt (thread record)]>
  (<["process" := PInt (process record)]>
  (<["line" := PInt (lineno record)]>
  (<["function" := PStr (funcName record)]>
  (<["module" := PStr (module record)]> d)))))).

(** Lines 72-74 of [format]: no test of the level. *)
Definition format_stack_trace (w : Env) (record : LogRecord) (d : dict) : dict :=
  match exc_info record with
  | Some ei => <["stack_trace" := PStr (format_exception w ei)]> d
  | None => d
  end.

(** [CustomJSONFormatter.format], lines 37-74: the dictionary that line 76
    hands to [json.dumps]. *)
Definition format_record (w : Env) (config : LoggingConfig) (record : LogRecord)
    : result dict :=
  message <-- getMessage w record ;;
  let extra := _extract_extra_fields record in
  structured_record <--
    json_record w config record message (ExtraDict extra) ;;
  let structured_record :=
    <["levelname" := PStr (levelname record)]> structured_record in
  let structured_record :=
    <["timestamp" := PStr (iso_timestamp w record)]> structured_record in
  let structured_record := time_isoformat structured_record in
  let structured_record := update_context w record structured_record in
  let structured_record := add_execution_time config record structured_record in
  structured_record <-- add_memory_usage w config structured_record ;;
  Ok (format_stack_trace w record structured_record).

(** [CustomJSONFormatter.format]: the emitted record. *)
Definition format (w : Env) (config : LoggingConfig) (record : LogRecord)
    : result (gmap string json) :=
  structured_record <-- format_record w config record ;;
  json_dumps structured_record.

(** ** The dispatch loop (utils/logging_config.py, logging.handlers) *)

(** A sink as the listener sees it: a threshold and a [handle] that either
    writes the record or raises. *)
Record Handler : Type := {
  handler_name : string;
  level : Z;
  handle_raises : LogRecord -> option exn
}.

(** What the sinks have received, oldest first, and what [print] wrote. *)
Record ListenerState : Type := {
  delivered : list (string * LogRecord);
  printed : list string
}.

Definition deliver (h : Handler) (r : LogRecord) (st : ListenerState)
    : ListenerState :=
  {| delivered := delivered st ++ [(handler_name h, r)];
     printed := printed st |}.

Definition print (line : string) (st : ListenerState) : ListenerState :=
  {| delivered := delivered st; printed := printed st ++ [line] |}.

(** [QueueListener.handle]: one loop over the handlers, left by the first
    exception. *)
Fixpoint QueueListener_handle (respect_handler_level : bool)
    (handlers : list Handler) (record : LogRecord) (st : ListenerState)
    : result unit * ListenerState :=
  match handlers with
  | [] => (Ok tt, st)
  | handler :: handlers' =>
      let process :=
        if negb respect_handler_level then true
        else level handler <=? levelno record in
      if process then
        match handle_raises handler record with
        | Some e => (Raise e, st)
        | None =>
            QueueListener_handle respect_handler_level handlers' record
              (deliver handler record st)
        end
      else QueueListener_handle respect_handler_level handlers' record st
  end.

Definition LOGGING_ERROR : string :=
  "❌ Logging error while processing queue record: ".

(** [SafeQueueListener.handle] *)
Definition SafeQueueListener_handle (respect_handler_level : bool)
    (handlers : list Handler) (record : LogRecord) (st : ListenerState)
    : result unit * ListenerState :=
  match QueueListener_handle respect_handler_level handlers record st with
  | (Ok tt, st') => (Ok tt, st')
  | (Raise e, st') => (Ok tt, print (LOGGING_ERROR +:+ str_exn e) st')
  end.

Inductive queue_item : Type :=
| Sentinel
| Item (record : LogRecord).

Inductive worker_status : Type :=
| Waiting                 (* blocked in [dequeue] on an empty queue *)
| Stopped                 (* saw the sentinel *)
| Crashed (e : exn).      (* left [_monitor] by an exception *)

(** [QueueListener._monitor] over the items put on the queue, with the
    [handle] of the listener's class. *)
Fixpoint _monitor
    (handle : LogRecord -> ListenerState -> result unit * ListenerState)
    (q : list queue_item) (st : ListenerState)
    : worker_status * ListenerState :=
  match q with
  | [] => (Waiting, st)
  | Sentinel :: _ => (Stopped, st)
  | Item record :: q' =>
      match handle record st with
      | (Ok tt, st') => _monitor handle q' st'
      | (Raise e, st') => (Crashed e, st')
      end
  end.

(** ** Pipeline bootstrap (utils/logging_config.py) *)

Inductive installed_handler : Type :=
| StreamHandler (lvl : string)
| RotatingFileHandler (path : string) (maxBytes backupCount : Z) (lvl : string)
| QueueHandler (maxsize : Z)
| ForeignHandler (label : string).   (* installed by earlier code *)

(** The calls of [configure_logging] that reach the file system or the
    logging library. *)
Inductive call : Type :=
| Makedirs (dir : string)
| OpenAppend (path : string)
| Chmod (path : string)
| NewFormatter
| NewQueue (maxsize : Z)
| NewQueueHandler
| NewRotatingFileHandler (path : string)
| HandlerSetLevel (lvl : string)
| NewStreamHandler
| ListenerStart
| HandlersClear
| AddHandler (h : installed_handler)
| LoggerSetLevel (lvl : string)
| ErrorLoggerAddHandler (h : installed_handler)
| ErrorLoggerError (line : string)
| LoggerInfo (line : string).

(** The part of the process [configure_logging] changes. *)
Record Process : Type := {
  fs_dirs : gset string;
  fs_modes : gmap string Z;                (* existing files, with their mode *)
  root_handlers : list installed_handler;
  root_level : string;
  root_propagate : bool;
  listeners : list (list installed_handler);   (* started listener threads *)
  error_logger_handlers : list installed_handler;
  error_logger_lines : list string;
  root_info_lines : list (string * pyval);
  include_stack_trace : bool               (* attribute set on the formatter *)
}.

(** A computation on the process that may raise; the process keeps the
    changes made before the exception. *)
Definition M (A : Type) : Type := Process -> result A * Process.

Definition ret {A} (a : A) : M A := fun p => (Ok a, p).

Definition bind {A B} (m : M A) (k : A -> M B) : M B :=
  fun p =>
    match m p with
    | (Ok a, p') => k a p'
    | (Raise e, p') => (Raise e, p')
    end.

Notation "m1 ;;; m2" := (bind m1 (fun _ => m2))
  (at level 100, right associativity).

(** [faults c] is the exception the call [c] raises, if it does. *)
Definition do_call (faults : call -> option exn) (c : call)
    (effect : Process -> Process) : M unit :=
  fun p =>
    match faults c with
    | Some e => (Raise e, p)
    | None => (Ok tt, effect p)
    end.

Definition when (b : bool) (m : M unit) : M unit := if b then m else ret tt.

Fixpoint for_each {A} (l : list A) (body : A -> M unit) : M unit :=
  match l with
  | [] => ret tt
  | x :: l' => body x ;;; for_each l' body
  end.

Definition drop_while {A} (f : A -> bool) : list A -> list A :=
  fix go l :=
    match l with
    | [] => []
    | x :: l' => if f x then go l' else l
    end.

Definition is_slash (c : ascii) : bool := bool_decide (c = "/"%char).

(** [os.path.dirname] of [posixpath] *)
Definition dirname (p : string) : string :=
  let head := rev (drop_while (fun c => negb (is_slash c))
                     (rev (String.list_ascii_of_string p))) in
  if forallb is_slash head then String.string_of_list_ascii head
  else String.string_of_list_ascii (rev (drop_while is_slash (rev head))).

Definition set_fs_dirs (f : gset string -> gset string) (p : Process) : Process :=
  {| fs_dirs := f (fs_dirs p); fs_modes := fs_modes p;
     root_handlers := root_handlers p; root_level := root_level p;
     root_propagate := root_propagate p; listeners := listeners p;
     error_logger_handlers := error_logger_handlers p;
     error_logger_lines := error_logger_lines p;
     root_info_lines := root_info_lines p;
     include_stack_trace := include_stack_trace p |}.

Definition set_fs_modes (f : gmap string Z -> gmap string Z) (p : Process)
    : Process :=
  {| fs_dirs := fs_dirs p; fs_modes := f (fs_modes p);
     root_handlers := root_handlers p; root_level := root_level p;
     root_propagate := root_propagate p; listeners := listeners p;
     error_logger_handlers := error_logger_handlers p;
     error_logger_lines := error_logger_lines p;
     root_info_lines := root_info_lines p;
     include_stack_trace := include_stack_trace p |}.

Definition set_root_handlers
    (f : list installed_handler -> list installed_handler) (p : Process)
    : Process :=
  {| fs_dirs := fs_dirs p; fs_modes := fs_modes p;
     root_handlers := f (root_handlers p); root_level := root_level p;
     root_propagate := root_propagate p; listeners := listeners p;
     error_logger_handlers := error_logger_handlers p;
     error_logger_lines := error_logger_lines p;
     root_info_lines := root_info_lines p;
     include_stack_trace := include_stack_trace p |}.

Definition set_root_level (lvl : string) (propagate : bool) (p : Process)
    : Process :=
  {| fs_dirs := fs_dirs p; fs_modes := fs_modes p;
     root_handlers := root_handlers p; root_level := lvl;
     root_propagate := propagate; listeners := listeners p;
     error_logger_handlers := error_logger_handlers p;
     error_logger_lines := error_logger_lines p;
     root_info_lines := root_info_lines p;
     include_stack_trace := include_stack_trace p |}.

Definition add_listener (hs : list installed_handler) (p : Process) : Process :=
  {| fs_dirs := fs_dirs p; fs_modes := fs_modes p;
     root_handlers := root_handlers p; root_level := root_level p;
     root_propagate := root_propagate p; listeners := listeners p ++ [hs];
     error_logger_handlers := error_logger_handlers p;
     error_logger_lines := error_logger_lines p;
     root_info_lines := root_info_lines p;
     include_stack_trace := include_stack_trace p |}.

Definition set_error_logger
    (f : list installed_handler -> list installed_handler)
    (g : list string -> list string) (p : Process) : Process :=
  {| fs_dirs := fs_dirs p; fs_modes := fs_modes p;
     root_handlers := root_handlers p; root_level := root_level p;
     root_propagate := root_propagate p; listeners := listeners p;
     error_logger_handlers := f (error_logger_handlers p);
     error_logger_lines := g (error_logger_lines p);
     root_info_lines := root_info_lines p;
     include_stack_trace := include_stack_trace p |}.

Definition add_info_line (line : string) (memory_usage_mb : pyval) (p : Process)
    : Process :=
  {| fs_dirs := fs_dirs p; fs_modes := fs_modes p;
     root_handlers := root_handlers p; root_level := root_level p;
     root_propagate := root_propagate p; listeners := listeners p;
     error_logger_handlers := error_logger_handlers p;
     error_logger_lines := error_logger_lines p;
     root_info_lines := root_info_lines p ++ [(line, memory_usage_mb)];
     include_stack_trace := include_stack_trace p |}.

Definition set_include_stack_trace (b : bool) (p : Process) : Process :=
  {| fs_dirs := fs_dirs p; fs_modes := fs_modes p;
     root_handlers := root_handlers p; root_level := root_level p;
     root_propagate := root_propagate p; listeners := listeners p;
     error_logger_handlers := error_logger_handlers p;
     error_logger_lines := error_logger_lines p;
     root_info_lines := root_info_lines p;
     include_stack_trace := b |}.

Section Bootstrap.

Variable faults : call -> option exn.
Variable w : Env.
Variable config : LoggingConfig.
(** [config.config.CONFIG_ERRORS] *)
Variable CONFIG_ERRORS : list string.

Definition file_handler : installed_handler :=
  RotatingFileHandler (log_file_path config) (max_log_file_size config)
    (max_backup_files config) (file_log_level config).

Definition error_handler : installed_handler :=
  RotatingFileHandler (error_log_file_path config) (max_log_file_size config)
    (max_backup_files config) "ERROR".

Definition stream_handler : installed_handler :=
  StreamHandler (console_log_level config).

Definition queue_handler : installed_handler :=
  QueueHandler (log_queue_size config).

Definition log_paths : list string :=
  [log_file_path config; error_log_file_path config].

(** Lines 57-60: the log directories. *)
Definition ensure_directories : M unit :=
  for_each log_paths (fun path =>
    do_call faults (Makedirs (dirname path))
      (set_fs_dirs (fun ds => {[dirname path]} ∪ ds))).

(** Lines 62-66: the log files and their permissions. *)
Definition ensure_files : M unit :=
  for_each log_paths (fun path =>
    (fun p =>
       when (bool_decide (fs_modes p !! path = None))
         (do_call faults (OpenAppend path)
            (set_fs_modes (fun fs => <[path := 420]> fs))) p) ;;;
    do_call faults (Chmod path)
      (set_fs_modes (fun fs => <[path := 384]> fs))).

(** Lines 68-92: formatter, queue, the three sinks, the listener. *)
Definition build_pipeline : M unit :=
  do_call faults NewFormatter id ;;;
  do_call faults (NewQueue (log_queue_size config)) id ;;;
  do_call faults NewQueueHandler id ;;;
  do_call faults (NewRotatingFileHandler (log_file_path config)) id ;;;
  do_call faults (HandlerSetLevel (file_log_level config)) id ;;;
  do_call faults (NewRotatingFileHandler (error_log_file_path config)) id ;;;
  do_call faults (HandlerSetLevel "ERROR") id ;;;
  do_call faults NewStreamHandler id ;;;
  do_call faults (HandlerSetLevel (console_log_level config)) id ;;;
  do_call faults ListenerStart (add_listener [file_handler; stream_handler]).

(** Lines 94-103: the root logger.  [hasHandlers] on the root logger is
    the test that its handler list is not empty. *)
Definition install_handlers : M unit :=
  (fun p =>
     when (negb (bool_decide (root_handlers p = [])))
       (do_call faults HandlersClear (set_root_handlers (fun _ => []))) p) ;;;
  do_call faults (AddHandler stream_handler)
    (set_root_handlers (fun hs => hs ++ [stream_handler])) ;;;
  do_call faults (AddHandler file_handler)
    (set_root_handlers (fun hs => hs ++ [file_handler])) ;;;
  do_call faults (AddHandler queue_handler)
    (set_root_handlers (fun hs => hs ++ [queue_handler])) ;;;
  do_call faults (LoggerSetLevel (log_level config))
    (set_root_level (log_level config) false).

(** Steps 1 to 4 of the bootstrap: lines 57-92. *)
Definition bootstrap_1_4 : M unit :=
  ensure_directories ;;; ensure_files ;;; build_pipeline.

(** Steps 1 to 5: lines 57-103. *)
Definition bootstrap_1_5 : M unit :=
  bootstrap_1_4 ;;; install_handlers.

(** A record on its way through the handlers of its logger (the error
    handler, and the handlers of the root logger, to which the record
    goes on): what their writes leave of the files. *)
Definition write_record (line : string) (p : Process) : Process :=
  set_fs_modes
    (handlers_write w (error_logger_lines p ++ (root_info_lines p).*1) line) p.

(** Lines 105-122: the error logger, the deferred configuration errors,
    the start-up record, the attribute on the formatter. *)
Definition after_install : M unit :=
  do_call faults (ErrorLoggerAddHandler error_handler)
    (set_error_logger (fun hs => hs ++ [error_handler]) id) ;;;
  for_each CONFIG_ERRORS (fun error =>
    let line := "⚠️ Configuration Error: " +:+ error in
    do_call faults (ErrorLoggerError line)
      (fun p =>
         set_error_logger id (fun ls => ls ++ [line]) (write_record line p))) ;;;
  when (enable_memory_logging config)
    (fun p =>
       match get_memory_usage w with
       | Ok memory_usage_mb =>
           do_call faults (LoggerInfo "ℹ️ Logging system initialized")
             (fun p =>
                add_info_line "ℹ️ Logging system initialized" memory_usage_mb
                  (write_record "ℹ️ Logging system initialized" p)) p
       | Raise e => (Raise e, p)
       end) ;;;
  when (enable_stack_trace_logging config)
    (fun p => (Ok tt, set_include_stack_trace true p)).

Definition CONFIGURE_ERROR : string := "❌ Error configuring logging: ".

(** [configure_logging]: the body under [try], and the [except] that
    wraps whatever it raises. *)
Definition configure_logging : M unit :=
  fun p =>
    match (bootstrap_1_5 ;;; after_install) p with
    | (Ok tt, p') => (Ok tt, p')
    | (Raise e, p') =>
        (Raise (Exn LoggingConfigurationError (CONFIGURE_ERROR +:+ str_exn e)),
         p')
    end.

End Bootstrap.

(** ** Field names *)

(** The metadata fields the formatter knows of. *)
Definition request_fields : list string := ["request_id"; "user_id"; "feed_type"].
Definition trace_fields : list string := ["trace_id"; "span_id"].
Definition enrichment_fields : list string :=
  request_fields ++ trace_fields
    ++ ["execution_time_ms"; "memory_usage_mb"; "stack_trace"].

(** Every key [json_record] or [format] writes. *)
Definition written_fields : list string :=
  [ "message"; "time"; "exc_info"; "levelname"; "timestamp"; "module";
    "function"; "line"; "process"; "thread"; "hostname"; "environment" ]
    ++ enrichment_fields.

(** A dictionary on its way through [json_record] holds encodable values,
    apart from the [datetime] the base class puts under [time] until line
    126 replaces it. *)
Definition encodable (d : dict) : Prop :=
  map_Forall (fun _ v => serializable v = true) d.

Definition encodable_but_time (d : dict) : Prop :=
  map_Forall (fun k v => serializable v = true
                         \/ (k = "time" /\ exists iso, v = PDatetime iso)) d.

(** ** Sample inputs *)

Definition sample_exc : exc_triple :=
  ExcInfo "ValueError" "Test error"
    (Some ["File test_logging.py, line 107, in test_custom_json_formatter"]).

(** A host where [psutil] reports 50 MiB and [traceback] renders an
    exception as its class and message. *)
Definition sample_env : Env :=
  {| gethostname := "health-1";
     environ_ENVIRONMENT := None;
     utcnow := "2025-03-01T12:00:00.000250";
     psutil_probe := Rss 52428800;
     format_exception := fun ei =>
       "Traceback (most recent call last):" +:+ exc_type ei +:+ ": "
         +:+ exc_value ei;
     format_exception_no_tb := fun _ _ =>
       Raise (Exn ValueError "Both or neither of value and tb must be given");
     formatException := fun ei => exc_type ei +:+ ": " +:+ exc_value ei;
     percent_format := fun s _ => Ok s;
     strftime_gmtime := fun _ => "2025-03-01T12:00:00";
     handlers_write := fun _ _ files => files |}.

(** The same host with a probe that is refused. *)
Definition denied_env : Env :=
  {| gethostname := gethostname sample_env;
     environ_ENVIRONMENT := environ_ENVIRONMENT sample_env;
     utcnow := utcnow sample_env;
     psutil_probe := PsutilRaises (Exn AccessDenied "psutil.AccessDenied (pid=4242)");
     format_exception := format_exception sample_env;
     format_exception_no_tb := format_exception_no_tb sample_env;
     formatException := formatException sample_env;
     percent_format := percent_format sample_env;
     strftime_gmtime := strftime_gmtime sample_env;
     handlers_write := handlers_write sample_env |}.

(** The settings of config/settings.yaml with the four feature flags given. *)
Definition flags (memory execution_time request_metadata stack_trace : bool)
    : LoggingConfig :=
  {| log_level := "INFO"; file_log_level := "DEBUG";
     console_log_level := "WARNING";
     log_file_path := "logs/health_service.log";
     error_log_file_path := "logs/error.log";
     log_queue_size := 10000; max_log_file_size := 5000000;
     max_backup_files := 5;
     enable_memory_logging := memory;
     enable_execution_time_logging := execution_time;
     enable_request_metadata := request_metadata;
     enable_stack_trace_logging := stack_trace |}.

(** A record as [Logger.makeRecord] builds it. *)
Definition sample_record (lvlname : string) (lvlno : Z)
    (exc : option exc_triple) (attrs : dict) : LogRecord :=
  {| name := "health"; msg := "Test log message"; args := [];
     levelname := lvlname; levelno := lvlno;
     pathname := "/srv/health/tests/utils/test_logging.py";
     filename := "test_logging.py"; module := "test_logging";
     exc_info := exc; exc_text := None; stack_info := None;
     lineno := 10; funcName := "test_custom_json_formatter";
     created := 1740830400; msecs := 7; relativeCreated := 1520;
     thread := 140; threadName := "MainThread";
     processName := "MainProcess"; process := 4242;
     extra_attrs := attrs |}.

(** Whether the loop of [QueueListener.handle] offers the record to a
    handler. *)
Definition accepts (respect_handler_level : bool) (record : LogRecord)
    (handler : Handler) : bool :=
  if negb respect_handler_level then true
  else level handler <=? levelno record.

(** A file sink whose [handle] raises on a full disk (a handler that does
    not absorb the error of its write), and a console sink. *)
Definition full_disk_sink : Handler :=
  {| handler_name := "file"; level := 10;
     handle_raises := fun _ =>
       Some (Exn OSError "[Errno 28] No space left on device") |}.

Definition console_sink : Handler :=
  {| handler_name := "console"; level := 30;
     handle_raises := fun _ => None |}.

Definition idle : ListenerState := {| delivered := []; printed := [] |}.

(** A process whose root logger already has a handler. *)
Definition running_process : Process :=
  {| fs_dirs := ∅; fs_modes := ∅;
     root_handlers := [ForeignHandler "previous"];
     root_level := "WARNING"; root_propagate := true;
     listeners := []; error_logger_handlers := [];
     error_logger_lines := []; root_info_lines := [];
     include_stack_trace := false |}.

(** [os.makedirs] is refused, as in [test_missing_log_directory]. *)
Definition makedirs_denied (c : call) : option exn :=
  match c with
  | Makedirs _ => Some (Exn PermissionError "Directory creation failed")
  | _ => None
  end.

(** [addHandler] fails on the file handler. *)
Definition add_file_handler_fails (c : call) : option exn :=
  match c with
  | AddHandler (RotatingFileHandler _ _ _ _) =>
      Some (Exn RuntimeError "Unexpected failure")
  | _ => None
  end.

(** The root logger is left as it was. *)
Definition same_root_logger (p p' : Process) : Prop :=
  root_handlers p' = root_handlers p
  /\ root_level p' = root_level p
  /\ root_propagate p' = root_propagate p.

(** A computation that leaves the root logger alone, whether it returns or
    raises. *)
Definition keeps_root_logger {A} (m : M A) : Prop :=
  forall p, same_root_logger p (m p).2.

(** ** Further definitions for the formatter *)

(** The keys written after the base class has returned. *)
Definition enrichment_keys : list string :=
  [ "time"; "levelname"; "timestamp"; "module"; "function"; "line"; "process";
    "thread"; "hostname"; "environment" ] ++ enrichment_fields.

Definition is_digit (c : ascii) : bool :=
  bool_decide (c ∈ String.list_ascii_of_string "0123456789").

(** The value [format] leaves under [time]: the caller's, if the metadata
    has one, the clock's otherwise; a [datetime] as its [isoformat]. *)
Definition emitted_time (w : Env) (r : LogRecord) : pyval :=
  match extra_attrs r !! "time" with
  | Some (PDatetime iso) => PStr iso
  | Some v => v
  | None => PStr (utcnow w)
  end.

(** The number a string of decimal digits denotes. *)
Definition decimal_value (s : string) : Z :=
  fold_left (fun acc c => 10 * acc + (Z.of_nat (nat_of_ascii c) - 48))
    (String.list_ascii_of_string s) 0.

(** The sample host with a [psutil] that fails outside its own exception
    classes. *)
Definition broken_env : Env :=
  {| gethostname := gethostname sample_env;
     environ_ENVIRONMENT := environ_ENVIRONMENT sample_env;
     utcnow := utcnow sample_env;
     psutil_probe := PsutilRaises (Exn OSError "[Errno 5] Input/output error");
     format_exception := format_exception sample_env;
     format_exception_no_tb := format_exception_no_tb sample_env;
     formatException := formatException sample_env;
     percent_format := percent_format sample_env;
     strftime_gmtime := strftime_gmtime sample_env;
     handlers_write := handlers_write sample_env |}.

(** ** Further definitions for the dispatch loop and the bootstrap *)

(** The records the worker takes from the queue before the sentinel. *)
Fixpoint before_sentinel (q : list queue_item) : list LogRecord :=
  match q with
  | [] => []
  | Sentinel :: _ => []
  | Item record :: q' => record :: before_sentinel q'
  end.

(** A computation that leaves the component [f] of the process as it was,
    whether it returns or raises. *)
Definition preserves {A B} (f : Process -> B) (m : M A) : Prop :=
  forall p, f (m p).2 = f p.

(** A computation that returns. *)
Definition returns (m : M unit) : Prop := forall p, (m p).1 = Ok tt.

(** No call to the file system or the logging library fails. *)
Definition no_faults (faults : call -> option exn) : Prop :=
  forall c, faults c = None.

(** Only [open] can fail. *)
Definition open_fails (c : call) : option exn :=
  match c with
  | OpenAppend _ => Some (Exn PermissionError "[Errno 13] Permission denied")
  | _ => None
  end.

(** A process in which both log files of the sample settings exist. *)
Definition process_with_logs : Process :=
  {| fs_dirs := {[ "logs" ]};
     fs_modes := {[ "logs/health_service.log" := 420; "logs/error.log" := 420 ]};
     root_handlers := []; root_level := "WARNING"; root_propagate := true;
     listeners := []; error_logger_handlers := [];
     error_logger_lines := []; root_info_lines := [];
     include_stack_trace := false |}.

Definition STARTUP_LINE : string := "ℹ️ Logging system initialized".

Definition CONFIG_ERROR_PREFIX : string := "⚠️ Configuration Error: ".

(** ** Configuration loading (config/config.py) *)

Module ConfigPy.

(** The exception classes [Config.load] meets.  [ValidationError] (of
    pydantic) and [UnicodeDecodeError] are subclasses of [ValueError]. *)
Inductive exn_class : Type :=
| FileNotFoundError
| PermissionError
| YAMLError
| ValueError
| ValidationError
| UnicodeDecodeError
| AttributeError.

Record exn : Type := Exn { cls : exn_class; message : string }.

(** [isinstance(e, ValueError)] *)
Definition is_ValueError (c : exn_class) : bool :=
  match c with
  | ValueError | ValidationError | UnicodeDecodeError => true
  | _ => false
  end.

(** What [yaml.safe_load] returns: a mapping of sections, each a mapping or
    some other value, or a value that is no mapping ([None] for an empty
    file). *)
Inductive section : Type :=
| SectionMap (d : dict)
| SectionValue (v : pyval).

Inductive document : Type :=
| DocMap (m : gmap string section)
| DocValue (v : pyval).

(** [open(settings_file, "r")] followed by [yaml.safe_load(file)] *)
Inductive read_outcome : Type :=
| Loaded (doc : document)
| ReadRaises (e : exn).

(** The surroundings of [Config.load]: the environment variable, the
    default path computed from [__file__], [Path.resolve], the file
    system with the YAML parser, and the validation pydantic performs when
    [cls] is called with the settings as keyword arguments, which returns
    the configuration object or raises a [ValidationError] with the given
    message. *)
Record Loader (C : Type) : Type := {
  TEST_CONFIG_PATH : option string;
  default_settings_file : string;
  resolve : string -> string;
  open_and_load : string -> read_outcome;
  model_validate : gmap string section -> string + C
}.
Arguments TEST_CONFIG_PATH {C} _.
Arguments default_settings_file {C} _.
Arguments resolve {C} _ _.
Arguments open_and_load {C} _ _.
Arguments model_validate {C} _ _.

(** [CONFIG_ERRORS] and what has been printed to [sys.stderr].  The
    diagnostic lines printed to standard output are left out. *)
Record State : Type := {
  CONFIG_ERRORS : list string;
  stderr : list string
}.

(** Truth value of a Python value. *)
Definition truthy (v : pyval) : bool :=
  match v with
  | PNone => false
  | PBool b => b
  | PInt z => negb (z =? 0)
  | PFloat q => negb (Qeq_bool q 0)
  | PStr s => negb (bool_decide (s = ""))
  | PList l => negb (bool_decide (l = []))
  | PDatetime _ => true
  | PObject _ => true
  end.

Definition doc_truthy (doc : document) : bool :=
  match doc with
  | DocMap m => negb (bool_decide (m = ∅))
  | DocValue v => truthy v
  end.

Definition type_name (v : pyval) : string :=
  match v with
  | PNone => "NoneType"
  | PBool _ => "bool"
  | PInt _ => "int"
  | PFloat _ => "float"
  | PStr _ => "str"
  | PList _ => "list"
  | PDatetime _ => "datetime.datetime"
  | PObject _ => "object"
  end.

(** Calling [setdefault] on an object that is no dictionary. *)
Definition no_setdefault (v : pyval) : exn :=
  Exn AttributeError
    ("'" +:+ type_name v +:+ "' object has no attribute 'setdefault'").

(** [d.setdefault(key, value)] *)
Definition setdefault (key : string) (value : pyval) (d : dict) : dict :=
  match d !! key with
  | Some _ => d
  | None => <[key := value]> d
  end.

Definition logging_defaults : list (string * pyval) :=
  [ ("log_level", PStr "INFO");
    ("file_log_level", PStr "DEBUG");
    ("console_log_level", PStr "WARNING");
    ("log_file_path", PStr "logs/health_service.log");
    ("error_log_file_path", PStr "logs/error.log");
    ("log_queue_size", PInt 10000);
    ("max_log_file_size", PInt 5000000);
    ("max_backup_files", PInt 5);
    ("enable_memory_logging", PBool true);
    ("enable_execution_time_logging", PBool true);
    ("enable_request_metadata", PBool true);
    ("enable_stack_trace_logging", PBool true) ].

(** Lines 131-147: the [logging] section is created if missing and every
    default is filled in with [setdefault]; a [logging] entry that is no
    mapping has no [setdefault]. *)
Definition apply_logging_defaults (settings : gmap string section)
    : exn + gmap string section :=
  let settings :=
    match settings !! "logging" with
    | Some _ => settings
    | None => <["logging" := SectionMap ∅]> settings
    end in
  match settings !! "logging" with
  | Some (SectionMap d) =>
      inr (<["logging" :=
              SectionMap
                (fold_left (fun d kv => setdefault kv.1 kv.2 d)
                   logging_defaults d)]> settings)
  | Some (SectionValue v) => inl (no_setdefault v)
  | None => inr settings
  end.

Definition EMPTY_FILE : string := "Configuration file is empty or invalid.".

Section Load.

Context {C : Type}.
Variable env : Loader C.

(** Lines 102-111: the path passed to [load] is replaced by the value of
    [TEST_CONFIG_PATH], or by the default when that is unset or empty. *)
Definition settings_path (settings_file : string) : string :=
  match TEST_CONFIG_PATH env with
  | Some path =>
      if bool_decide (path = "") then resolve env (default_settings_file env)
      else resolve env path
  | None => resolve env (default_settings_file env)
  end.

(** Lines 122-149: the body under [try]. *)
Definition load_body (path : string) : exn + C :=
  match open_and_load env path with
  | ReadRaises e => inl e
  | Loaded doc =>
      (* yaml.safe_load(file) or {} *)
      let settings := if doc_truthy doc then doc else DocMap ∅ in
      if negb (doc_truthy settings) then inl (Exn ValueError EMPTY_FILE)
      else
        match settings with
        | DocValue v => inl (no_setdefault v)
        | DocMap m =>
            match apply_logging_defaults m with
            | inl e => inl e
            | inr m' =>
                match model_validate env m' with
                | inl msg => inl (Exn ValidationError msg)
                | inr config => inr config
                end
            end
        end
  end.

Definition record_error (line : string) (st : State) : State :=
  {| CONFIG_ERRORS := CONFIG_ERRORS st ++ [line];
     stderr := stderr st ++ [line] |}.

(** [Config.load]: the body and its three [except] clauses. *)
Definition load (settings_file : string) (st : State) : (exn + C) * State :=
  let path := settings_path settings_file in
  match load_body path with
  | inr config => (inr config, st)
  | inl e =>
      match cls e with
      | FileNotFoundError =>
          let error_msg :=
            "❌ Configuration file `" +:+ path +:+ "` not found." in
          (inl (Exn FileNotFoundError error_msg), record_error error_msg st)
      | YAMLError =>
          let error_msg :=
            "❌ Error parsing YAML file `" +:+ path +:+ "`: " +:+ message e in
          (inl (Exn YAMLError error_msg), record_error error_msg st)
      | _ =>
          if is_ValueError (cls e)
          then (inl e, record_error ("❌ " +:+ message e) st)
          else (inl e, st)
      end
  end.

(** [load_config] *)
Definition load_config (st : State) : (exn + C) * State :=
  load "config/settings.yaml" st.

End Load.

(** A loader over an empty file, and one over a file that is not there. *)
Definition empty_file_loader : Loader unit :=
  {| TEST_CONFIG_PATH := Some "/tmp/empty_settings.yaml";
     default_settings_file := "/srv/health/config/settings.yaml";
     resolve := fun p => p;
     open_and_load := fun _ => Loaded (DocValue PNone);
     model_validate := fun _ => inr tt |}.

Definition missing_file_loader : Loader unit :=
  {| TEST_CONFIG_PATH := None;
     default_settings_file := "/srv/health/config/settings.yaml";
     resolve := fun p => p;
     open_and_load := fun _ =>
       ReadRaises (Exn FileNotFoundError "[Errno 2] No such file or directory");
     model_validate := fun _ => inr tt |}.

(** A loader whose file has sections but a [logging:] entry without
    content, and one whose file sets one logging key; validation hands the
    settings through. *)
Definition null_logging_loader : Loader (gmap string section) :=
  {| TEST_CONFIG_PATH := None;
     default_settings_file := "/srv/health/config/settings.yaml";
     resolve := fun p => p;
     open_and_load := fun _ =>
       Loaded (DocMap {[ "logging" := SectionValue PNone ]});
     model_validate := fun m => inr m |}.

Definition partial_logging_loader : Loader (gmap string section) :=
  {| TEST_CONFIG_PATH := None;
     default_settings_file := "/srv/health/config/settings.yaml";
     resolve := fun p => p;
     open_and_load := fun _ =>
       Loaded (DocMap {[ "logging" :=
                           SectionMap {[ "log_level" := PStr "ERROR" ]} ]});
     model_validate := fun m => inr m |}.

Definition no_errors : State := {| CONFIG_ERRORS := []; stderr := [] |}.

End ConfigPy.

(** ** Execution timing (utils/logging_helpers.py) *)

Section Timing.

Context {A R : Type}.

(** [round((time.time() - start_time) * 1000, 2)]: the value computed in
    binary floating point from the two readings of the clock. *)
Variable elapsed_ms : Q -> Q -> pyval.

(** The decorated function, on its arguments and on the object passed as
    the keyword [log_extra] when there is one, a dictionary or not: its
    outcome, and that object as the function leaves it. *)
Variable func : A -> option extra_arg -> result R * option extra_arg.

(** What the item assignment does on an object of a class of its own,
    given by its [repr]: the exception it raises, if it raises. *)
Variable object_setitem : string -> option exn.

(** [obj["execution_time_ms"] = value] on an object that is no
    dictionary: the exception it raises, if it raises.  The built-in
    values have no item assignment, and a list takes no string as
    index. *)
Definition setitem_raises (v : pyval) : option exn :=
  match v with
  | PObject repr => object_setitem repr
  | PList _ =>
      Some (Exn TypeError "list indices must be integers or slices, not str")
  | _ =>
      Some (Exn TypeError
              ("'" +:+ ConfigPy.type_name v
                 +:+ "' object does not support item assignment"))
  end.

(** The [wrapper] of [track_execution_time], between the two readings
    [start_time] and [end_time] of the clock.  The time is stored only on
    the path on which [func] returns, and whenever the keyword was given,
    whatever object it holds. *)
Definition track_execution_time (start_time end_time : Q) (args : A)
    (log_extra : option extra_arg) : result R * option extra_arg :=
  match func args log_extra with
  | (Ok result, log_extra') =>
      match log_extra, log_extra' with
      | Some _, Some (ExtraDict d) =>
          (Ok result,
           Some (ExtraDict
                   (<["execution_time_ms" := elapsed_ms start_time end_time]>
                      d)))
      | Some _, Some (ExtraOther v) =>
          match setitem_raises v with
          | Some e => (Raise e, log_extra')
          | None => (Ok result, log_extra')
          end
      | _, _ => (Ok result, log_extra')
      end
  | (Raise e, log_extra') => (Raise e, log_extra')
  end.

(** The attributes of an [ExecutionTimer]. *)
Record ExecutionTimer : Type := {
  timer_start_time : option Q;
  timer_execution_time_ms : option pyval
}.

(** [with ExecutionTimer() as timer: body]: [__enter__] stores the start,
    the block runs, and [__exit__] stores the elapsed time on every way
    out; it returns [None], so an exception of the block goes on. *)
Definition with_ExecutionTimer (start_time end_time : Q)
    (body : ExecutionTimer -> result R) : result R * ExecutionTimer :=
  let timer :=
    {| timer_start_time := Some start_time;
       timer_execution_time_ms := None |} in
  (body timer,
   {| timer_start_time := Some start_time;
      timer_execution_time_ms := Some (elapsed_ms start_time end_time) |}).

End Timing.

(** * Properties *)

(** ** Fallible calls *)

Lemma rbind_Ok {A B} (m : result A) (k : A -> result B) (b : B) :
  rbind m k = Ok b -> exists a, m = Ok a /\ k a = Ok b.
Proof. destruct m as [a|e]; simpl; [eauto | discriminate]. Qed.

Ltac inv_bind H :=
  let a := fresh "x" in
  let Ha := fresh "H" a in
  apply rbind_Ok in H; destruct H as (a & Ha & H).

Ltac lookup_insert_simpl :=
  repeat first
    [ rewrite lookup_insert_eq
    | rewrite lookup_insert_ne by discriminate ].

(** ** Dictionaries of a record *)

Lemma request_in_enrichment k : k ∈ request_fields -> k ∈ enrichment_fields.
Proof. intros H. unfold enrichment_fields. apply elem_of_app. by left. Qed.

Lemma trace_in_enrichment k : k ∈ trace_fields -> k ∈ enrichment_fields.
Proof.
  intros H. unfold enrichment_fields. rewrite !elem_of_app. right. by left.
Qed.

Lemma init_attrs_enrichment r k :
  k ∈ enrichment_fields -> init_attrs r !! k = None.
Proof.
  unfold enrichment_fields, request_fields, trace_fields. simpl.
  rewrite !elem_of_cons, elem_of_nil.
  intros H. repeat (destruct H as [-> | H]; [reflexivity |]). destruct H.
Qed.

Lemma enrichment_not_excluded k :
  k ∈ enrichment_fields -> k ∉ excluded_fields.
Proof.
  unfold enrichment_fields, request_fields, trace_fields, excluded_fields.
  simpl. rewrite !elem_of_cons, !elem_of_nil.
  intros H. repeat (destruct H as [-> | H]; [intros G; repeat (destruct G as [G | G]; [discriminate G |]); destruct G |]).
  destruct H.
Qed.

(** [hasattr(record, k)] for such a field is the presence of the key in the
    caller's metadata. *)
Lemma record_dict_enrichment r k :
  k ∈ enrichment_fields -> record_dict r !! k = extra_attrs r !! k.
Proof.
  intros Hk. unfold record_dict.
  rewrite lookup_union, (init_attrs_enrichment r k Hk). apply (left_id None _).
Qed.

Lemma getattr_enrichment r k dflt :
  k ∈ enrichment_fields -> getattr r k dflt = default dflt (extra_attrs r !! k).
Proof. intros Hk. unfold getattr. by rewrite record_dict_enrichment. Qed.

Lemma extract_enrichment r k :
  k ∈ enrichment_fields -> _extract_extra_fields r !! k = extra_attrs r !! k.
Proof.
  intros Hk. unfold _extract_extra_fields.
  rewrite map_lookup_filter, record_dict_enrichment by done.
  destruct (extra_attrs r !! k) as [v|]; simpl; [|done].
  rewrite option_guard_True; [done |]. simpl. by apply enrichment_not_excluded.
Qed.

Lemma base_json_record_lookup w message extra r k :
  k ∈ enrichment_fields ->
  base_json_record w message extra r !! k = extra !! k.
Proof.
  intros Hk. unfold base_json_record.
  assert (k <> "message" /\ k <> "time" /\ k <> "exc_info") as (H1 & H2 & H3).
  { revert Hk. unfold enrichment_fields, request_fields, trace_fields. simpl.
    rewrite !elem_of_cons, elem_of_nil.
    intros H. repeat (destruct H as [-> | H]; [repeat split; discriminate |]).
    destruct H. }
  destruct (exc_info r);
    destruct (<["message":=PStr message]> extra !! "time");
    by rewrite ?lookup_insert_ne by done.
Qed.

(** ** The blocks of [json_record] and [format], key by key *)

Lemma add_request_metadata_other config r d k :
  k ∉ request_fields -> add_request_metadata config r d !! k = d !! k.
Proof.
  unfold request_fields. rewrite !not_elem_of_cons. intros (H1 & H2 & H3 & _).
  unfold add_request_metadata. destruct (enable_request_metadata config); [|done].
  by rewrite !lookup_insert_ne by done.
Qed.

Lemma add_request_metadata_off config r d :
  enable_request_metadata config = false -> add_request_metadata config r d = d.
Proof. unfold add_request_metadata. by intros ->. Qed.

Lemma add_request_metadata_on config r d k :
  enable_request_metadata config = true -> k ∈ request_fields ->
  add_request_metadata config r d !! k
  = Some (default (default UNKNOWN (d !! k)) (extra_attrs r !! k)).
Proof.
  intros Hon Hk. unfold add_request_metadata. rewrite Hon.
  unfold request_fields in Hk. rewrite !elem_of_cons, elem_of_nil in Hk.
  destruct Hk as [-> | [-> | [-> | []]]]; lookup_insert_simpl;
    rewrite getattr_enrichment by (apply list_elem_of_In; simpl; auto 20);
    unfold dict_get; by lookup_insert_simpl.
Qed.

Lemma dict_getattr_key d k dflt :
  k ∈ trace_fields -> dict_getattr d k dflt = dflt.
Proof.
  unfold trace_fields. rewrite !elem_of_cons, elem_of_nil.
  by intros [-> | [-> | []]].
Qed.

Lemma add_trace_fields_other r d k :
  k ∉ trace_fields -> add_trace_fields r d !! k = d !! k.
Proof.
  unfold trace_fields. rewrite !not_elem_of_cons. intros (H1 & H2 & _).
  unfold add_trace_fields. by rewrite !lookup_insert_ne by done.
Qed.

(** Lines 107-108 never read a key of the dictionary. *)
Lemma add_trace_fields_key r d k :
  k ∈ trace_fields ->
  add_trace_fields r d !! k = Some (default UNKNOWN (extra_attrs r !! k)).
Proof.
  intros Hk. unfold add_trace_fields.
  unfold trace_fields in Hk. rewrite !elem_of_cons, elem_of_nil in Hk.
  destruct Hk as [-> | [-> | []]]; lookup_insert_simpl;
    rewrite getattr_enrichment by (apply list_elem_of_In; simpl; auto 20);
    rewrite dict_getattr_key by (apply list_elem_of_In; simpl; auto 20);
    by destruct (dict_truthy _).
Qed.

Lemma add_context_lookup w r d k :
  k ∈ enrichment_fields -> add_context w r d !! k = d !! k.
Proof.
  unfold enrichment_fields, request_fields, trace_fields. simpl.
  rewrite !elem_of_cons, elem_of_nil. intros H. unfold add_context.
  repeat (destruct H as [-> | H]; [by lookup_insert_simpl |]). destruct H.
Qed.

Lemma add_execution_time_other config r d k :
  k <> "execution_time_ms" -> add_execution_time config r d !! k = d !! k.
Proof.
  intros H. unfold add_execution_time.
  destruct (enable_execution_time_logging config); [|done].
  by rewrite lookup_insert_ne.
Qed.

Lemma add_execution_time_key config r d :
  add_execution_time config r d !! "execution_time_ms"
  = if enable_execution_time_logging config
    then Some (default UNKNOWN (extra_attrs r !! "execution_time_ms"))
    else d !! "execution_time_ms".
Proof.
  unfold add_execution_time.
  destruct (enable_execution_time_logging config); [|done].
  rewrite lookup_insert_eq, getattr_enrichment; [done |].
  apply list_elem_of_In; simpl; auto 20.
Qed.

Lemma add_memory_usage_other w config d d' k :
  add_memory_usage w config d = Ok d' ->
  k <> "memory_usage_mb" -> d' !! k = d !! k.
Proof.
  unfold add_memory_usage. intros H Hk.
  destruct (enable_memory_logging config).
  - inv_bind H. injection H as <-. by rewrite lookup_insert_ne.
  - by injection H as <-.
Qed.

Lemma add_memory_usage_key w config d d' :
  add_memory_usage w config d = Ok d' ->
  if enable_memory_logging config
  then exists m, get_memory_usage w = Ok m /\ d' !! "memory_usage_mb" = Some m
  else d' = d.
Proof.
  unfold add_memory_usage. intros H.
  destruct (enable_memory_logging config).
  - inv_bind H. injection H as <-. exists x. by rewrite lookup_insert_eq.
  - by injection H as <-.
Qed.

Lemma json_record_stack_trace_other w r d k :
  k <> "stack_trace" -> json_record_stack_trace w r d !! k = d !! k.
Proof.
  intros H. unfold json_record_stack_trace.
  destruct (exc_info r) as [ei|], (is_error_level (levelname r)); try done.
  - destruct (exc_traceback ei); [by rewrite lookup_insert_ne |].
    destruct (format_exception_no_tb w _ _); by rewrite lookup_insert_ne.
  - by rewrite lookup_insert_ne.
Qed.

Lemma time_isoformat_other d k :
  k <> "time" -> time_isoformat d !! k = d !! k.
Proof.
  intros H. unfold time_isoformat.
  destruct (d !! "time") as [[]|]; try done. by rewrite lookup_insert_ne.
Qed.

Lemma update_context_lookup w r d k :
  k ∈ enrichment_fields -> update_context w r d !! k = d !! k.
Proof.
  unfold enrichment_fields, request_fields, trace_fields. simpl.
  rewrite !elem_of_cons, elem_of_nil. intros H. unfold update_context.
  repeat (destruct H as [-> | H]; [by lookup_insert_simpl |]). destruct H.
Qed.

Lemma format_stack_trace_other w r d k :
  k <> "stack_trace" -> format_stack_trace w r d !! k = d !! k.
Proof.
  intros H. unfold format_stack_trace.
  destruct (exc_info r); [by rewrite lookup_insert_ne | done].
Qed.

(** ** [json_record], field by field *)

Lemma json_record_non_dict w config r message v :
  json_record w config r message (ExtraOther v)
  = json_record w config r message (ExtraDict ∅).
Proof. reflexivity. Qed.

Lemma json_record_inv w config r message d rec :
  json_record w config r message (ExtraDict d) = Ok rec ->
  exists d1,
    add_memory_usage w config
      (add_execution_time config r
         (add_context w r
            (add_trace_fields r
               (add_request_metadata config r
                  (base_json_record w message d r))))) = Ok d1
    /\ rec = json_record_stack_trace w r d1.
Proof.
  unfold json_record. intros H. inv_bind H. injection H as <-. eauto.
Qed.

Ltac solve_field_side :=
  first
    [ discriminate
    | by apply request_in_enrichment
    | by apply trace_in_enrichment
    | by (apply list_elem_of_In; simpl; auto 20)
    | by (unfold request_fields, trace_fields; rewrite !not_elem_of_cons;
          repeat split; try discriminate; apply not_elem_of_nil) ].

Lemma json_record_request w config r message d rec k :
  json_record w config r message (ExtraDict d) = Ok rec ->
  k ∈ request_fields ->
  rec !! k
  = if enable_request_metadata config
    then Some (default (default UNKNOWN (d !! k)) (extra_attrs r !! k))
    else d !! k.
Proof.
  intros H Hk. apply json_record_inv in H as (d1 & H1 & ->).
  assert (k ∈ enrichment_fields) by solve_field_side.
  assert (k <> "stack_trace" /\ k <> "memory_usage_mb"
          /\ k <> "execution_time_ms" /\ k ∉ trace_fields) as (?&?&?&?).
  { unfold request_fields in Hk. rewrite !elem_of_cons, elem_of_nil in Hk.
    destruct Hk as [-> | [-> | [-> | []]]]; repeat split; solve_field_side. }
  rewrite json_record_stack_trace_other by done.
  rewrite (add_memory_usage_other _ _ _ _ _ H1) by done.
  rewrite add_execution_time_other, add_context_lookup,
    add_trace_fields_other by done.
  destruct (enable_request_metadata config) eqn:E.
  - rewrite add_request_metadata_on by done.
    by rewrite base_json_record_lookup.
  - rewrite add_request_metadata_off by done.
    by rewrite base_json_record_lookup.
Qed.

Lemma json_record_trace w config r message extra rec k :
  json_record w config r message extra = Ok rec ->
  k ∈ trace_fields ->
  rec !! k = Some (default UNKNOWN (extra_attrs r !! k)).
Proof.
  intros H Hk.
  assert (exists d, json_record w config r message (ExtraDict d) = Ok rec)
    as (d & Hd) by (destruct extra; eauto).
  clear H. apply json_record_inv in Hd as (d1 & H1 & ->).
  assert (k ∈ enrichment_fields) by solve_field_side.
  assert (k <> "stack_trace" /\ k <> "memory_usage_mb"
          /\ k <> "execution_time_ms") as (?&?&?).
  { unfold trace_fields in Hk. rewrite !elem_of_cons, elem_of_nil in Hk.
    destruct Hk as [-> | [-> | []]]; repeat split; solve_field_side. }
  rewrite json_record_stack_trace_other by done.
  rewrite (add_memory_usage_other _ _ _ _ _ H1) by done.
  rewrite add_execution_time_other, add_context_lookup by done.
  by apply add_trace_fields_key.
Qed.

Lemma json_record_execution_time w config r message d rec :
  json_record w config r message (ExtraDict d) = Ok rec ->
  rec !! "execution_time_ms"
  = if enable_execution_time_logging config
    then Some (default UNKNOWN (extra_attrs r !! "execution_time_ms"))
    else d !! "execution_time_ms".
Proof.
  intros H. apply json_record_inv in H as (d1 & H1 & ->).
  rewrite json_record_stack_trace_other by done.
  rewrite (add_memory_usage_other _ _ _ _ _ H1) by done.
  rewrite add_execution_time_key.
  destruct (enable_execution_time_logging config); [done |].
  rewrite add_context_lookup, add_trace_fields_other,
    add_request_metadata_other, base_json_record_lookup;
    solve [done | solve_field_side].
Qed.

Lemma json_record_memory w config r message d rec :
  json_record w config r message (ExtraDict d) = Ok rec ->
  if enable_memory_logging config
  then exists m, get_memory_usage w = Ok m
                 /\ rec !! "memory_usage_mb" = Some m
  else rec !! "memory_usage_mb" = d !! "memory_usage_mb".
Proof.
  intros H. apply json_record_inv in H as (d1 & H1 & ->).
  rewrite json_record_stack_trace_other by done.
  apply add_memory_usage_key in H1.
  destruct (enable_memory_logging config); [done |]. subst d1.
  rewrite add_execution_time_other, add_context_lookup,
    add_trace_fields_other, add_request_metadata_other,
    base_json_record_lookup; solve [done | solve_field_side].
Qed.

(** The dictionary [json_record] reads its stack trace into. *)
Lemma json_record_stack_trace_base w config r message d rec :
  json_record w config r message (ExtraDict d) = Ok rec ->
  exists d1, rec = json_record_stack_trace w r d1
             /\ d1 !! "stack_trace" = d !! "stack_trace".
Proof.
  intros H. apply json_record_inv in H as (d1 & H1 & ->).
  exists d1. split; [done |].
  rewrite (add_memory_usage_other _ _ _ _ _ H1) by done.
  rewrite add_execution_time_other, add_context_lookup,
    add_trace_fields_other, add_request_metadata_other,
    base_json_record_lookup; solve [done | solve_field_side].
Qed.

Lemma json_record_stack_trace_sentinel w config r message extra rec :
  json_record w config r message extra = Ok rec ->
  is_error_level (levelname r) = true -> exc_info r = None ->
  rec !! "stack_trace" = Some (PStr NO_EXC_INFO).
Proof.
  intros H Hlvl Hexc.
  assert (exists d, json_record w config r message (ExtraDict d) = Ok rec)
    as (d & Hd) by (destruct extra; eauto).
  apply json_record_stack_trace_base in Hd as (d1 & -> & _).
  unfold json_record_stack_trace. rewrite Hexc, Hlvl.
  apply lookup_insert_eq.
Qed.

Lemma json_record_stack_trace_below_error w config r message d rec :
  json_record w config r message (ExtraDict d) = Ok rec ->
  is_error_level (levelname r) = false ->
  rec !! "stack_trace" = d !! "stack_trace".
Proof.
  intros H Hlvl.
  apply json_record_stack_trace_base in H as (d1 & -> & <-).
  unfold json_record_stack_trace. rewrite Hlvl. by destruct (exc_info r).
Qed.

(** [json_record] raises only what the memory probe raises. *)
Lemma json_record_Ok w config r message extra :
  (enable_memory_logging config = true ->
   exists m, get_memory_usage w = Ok m) ->
  exists rec, json_record w config r message extra = Ok rec.
Proof.
  intros Hp. unfold json_record, add_memory_usage.
  destruct (enable_memory_logging config); simpl; [|eauto].
  destruct Hp as (m & ->); [done |]. simpl. eauto.
Qed.

(** ** [format], field by field *)

Lemma format_record_inv w config r sr :
  format_record w config r = Ok sr ->
  exists message rec d1,
    getMessage w r = Ok message
    /\ json_record w config r message (ExtraDict (_extract_extra_fields r))
       = Ok rec
    /\ add_memory_usage w config
         (add_execution_time config r
            (update_context w r
               (time_isoformat
                  (<["timestamp" := PStr (iso_timestamp w r)]>
                     (<["levelname" := PStr (levelname r)]> rec))))) = Ok d1
    /\ sr = format_stack_trace w r d1.
Proof.
  unfold format_record. intros H. inv_bind H. inv_bind H. inv_bind H.
  injection H as <-. eauto 10.
Qed.

(** The steps of [format] between [json_record] and the flag-governed
    blocks leave every enrichment field as [json_record] set it. *)
Lemma format_prefix_lookup w r rec k :
  k ∈ enrichment_fields ->
  update_context w r
    (time_isoformat
       (<["timestamp" := PStr (iso_timestamp w r)]>
          (<["levelname" := PStr (levelname r)]> rec))) !! k
  = rec !! k.
Proof.
  intros Hk. rewrite update_context_lookup by done.
  assert (k <> "time" /\ k <> "timestamp" /\ k <> "levelname") as (?&?&?).
  { revert Hk. unfold enrichment_fields, request_fields, trace_fields. simpl.
    rewrite !elem_of_cons, elem_of_nil.
    intros H. repeat (destruct H as [-> | H]; [repeat split; discriminate |]).
    destruct H. }
  rewrite time_isoformat_other by done. by rewrite !lookup_insert_ne by done.
Qed.

Lemma format_record_request w config r sr k :
  format_record w config r = Ok sr ->
  k ∈ request_fields ->
  sr !! k
  = if enable_request_metadata config
    then Some (default UNKNOWN (extra_attrs r !! k))
    else extra_attrs r !! k.
Proof.
  intros H Hk. apply format_record_inv in H as (m & rec & d1 & _ & Hj & H1 & ->).
  assert (k ∈ enrichment_fields) by solve_field_side.
  assert (k <> "stack_trace" /\ k <> "memory_usage_mb"
          /\ k <> "execution_time_ms") as (?&?&?).
  { unfold request_fields in Hk. rewrite !elem_of_cons, elem_of_nil in Hk.
    destruct Hk as [-> | [-> | [-> | []]]]; repeat split; discriminate. }
  rewrite format_stack_trace_other by done.
  rewrite (add_memory_usage_other _ _ _ _ _ H1) by done.
  rewrite add_execution_time_other, format_prefix_lookup by done.
  rewrite (json_record_request _ _ _ _ _ _ _ Hj Hk), extract_enrichment by done.
  by destruct (enable_request_metadata config), (extra_attrs r !! k).
Qed.

Lemma format_record_trace w config r sr k :
  format_record w config r = Ok sr ->
  k ∈ trace_fields ->
  sr !! k = Some (default UNKNOWN (extra_attrs r !! k)).
Proof.
  intros H Hk. apply format_record_inv in H as (m & rec & d1 & _ & Hj & H1 & ->).
  assert (k ∈ enrichment_fields) by solve_field_side.
  assert (k <> "stack_trace" /\ k <> "memory_usage_mb"
          /\ k <> "execution_time_ms") as (?&?&?).
  { unfold trace_fields in Hk. rewrite !elem_of_cons, elem_of_nil in Hk.
    destruct Hk as [-> | [-> | []]]; repeat split; discriminate. }
  rewrite format_stack_trace_other by done.
  rewrite (add_memory_usage_other _ _ _ _ _ H1) by done.
  rewrite add_execution_time_other, format_prefix_lookup by done.
  by apply (json_record_trace _ _ _ _ _ _ _ Hj).
Qed.

Lemma format_record_execution_time w config r sr :
  format_record w config r = Ok sr ->
  sr !! "execution_time_ms"
  = if enable_execution_time_logging config
    then Some (default UNKNOWN (extra_attrs r !! "execution_time_ms"))
    else extra_attrs r !! "execution_time_ms".
Proof.
  intros H. apply format_record_inv in H as (m & rec & d1 & _ & Hj & H1 & ->).
  rewrite format_stack_trace_other by done.
  rewrite (add_memory_usage_other _ _ _ _ _ H1) by done.
  rewrite add_execution_time_key.
  destruct (enable_execution_time_logging config) eqn:E; [done |].
  rewrite format_prefix_lookup by solve_field_side.
  rewrite (json_record_execution_time _ _ _ _ _ _ Hj), E.
  apply extract_enrichment. solve_field_side.
Qed.

Lemma format_record_memory w config r sr :
  format_record w config r = Ok sr ->
  if enable_memory_logging config
  then exists m, get_memory_usage w = Ok m
                 /\ sr !! "memory_usage_mb" = Some m
  else sr !! "memory_usage_mb" = extra_attrs r !! "memory_usage_mb".
Proof.
  intros H. apply format_record_inv in H as (m & rec & d1 & _ & Hj & H1 & ->).
  rewrite format_stack_trace_other by done.
  apply add_memory_usage_key in H1.
  apply json_record_memory in Hj.
  destruct (enable_memory_logging config); [done |]. subst d1.
  rewrite add_execution_time_other, format_prefix_lookup,
    Hj by solve_field_side.
  apply extract_enrichment. solve_field_side.
Qed.

(** The stack trace of the emitted record: lines 72-74 of [format] write
    over what [json_record] chose, whatever the level. *)
Lemma format_record_stack_trace w config r sr :
  format_record w config r = Ok sr ->
  sr !! "stack_trace"
  = match exc_info r with
    | Some ei => Some (PStr (format_exception w ei))
    | None =>
        if is_error_level (levelname r) then Some (PStr NO_EXC_INFO)
        else extra_attrs r !! "stack_trace"
    end.
Proof.
  intros H. apply format_record_inv in H as (m & rec & d1 & _ & Hj & H1 & ->).
  unfold format_stack_trace.
  destruct (exc_info r) as [ei|] eqn:Hexc; [apply lookup_insert_eq |].
  rewrite (add_memory_usage_other _ _ _ _ _ H1) by done.
  rewrite add_execution_time_other, format_prefix_lookup by solve_field_side.
  destruct (is_error_level (levelname r)) eqn:Hlvl.
  - by apply (json_record_stack_trace_sentinel _ _ _ _ _ _ Hj).
  - rewrite (json_record_stack_trace_below_error _ _ _ _ _ _ Hj Hlvl).
    apply extract_enrichment. solve_field_side.
Qed.

(** ** [json.dumps] and the emitted record *)

Lemma json_dumps_lookup d out k :
  json_dumps d = Ok out -> out !! k = d !! k ≫= to_json.
Proof.
  unfold json_dumps. case_bool_decide; [|discriminate].
  intros [= <-]. apply lookup_omap.
Qed.

Lemma json_dumps_Raise d k v :
  d !! k = Some v -> to_json v = None ->
  json_dumps d = Raise (Exn TypeError "Object is not JSON serializable").
Proof.
  intros Hk Hv. unfold json_dumps. case_bool_decide as H; [|done].
  specialize (H k v Hk). unfold serializable in H. simpl in H.
  rewrite Hv in H. discriminate.
Qed.

Lemma json_dumps_Ok d :
  map_Forall (fun _ v => serializable v = true) d ->
  json_dumps d = Ok (omap to_json d).
Proof. intros H. unfold json_dumps. by rewrite bool_decide_eq_true_2. Qed.

Lemma format_inv w config r out :
  format w config r = Ok out ->
  exists sr, format_record w config r = Ok sr /\ json_dumps sr = Ok out.
Proof. unfold format. intros H. inv_bind H. eauto. Qed.

Lemma format_lookup w config r out k :
  format w config r = Ok out ->
  exists sr, format_record w config r = Ok sr /\ out !! k = sr !! k ≫= to_json.
Proof.
  intros H. apply format_inv in H as (sr & Hsr & Hd).
  exists sr. split; [done |]. by apply json_dumps_lookup.
Qed.

(** ** When [format] returns *)

Lemma init_attrs_encodable r k v :
  init_attrs r !! k = Some v -> k ∉ excluded_fields -> serializable v = true.
Proof.
  unfold init_attrs. intros H Hk.
  apply elem_of_list_to_map_2 in H. unfold excluded_fields in Hk.
  rewrite !not_elem_of_cons in Hk. rewrite !elem_of_cons, elem_of_nil in H.
  repeat (destruct H as [[= -> ->] | H]; [first [reflexivity | exfalso; tauto] |]).
  destruct H.
Qed.

Lemma extract_encodable r :
  encodable (extra_attrs r) -> encodable (_extract_extra_fields r).
Proof.
  intros Hattrs k v. unfold _extract_extra_fields, record_dict.
  rewrite map_lookup_filter_Some, lookup_union_Some_raw. simpl.
  intros [[Hinit | [_ Hextra]] Hk].
  - by apply (init_attrs_encodable r k).
  - by apply (Hattrs k).
Qed.

Lemma encodable_weaken d : encodable d -> encodable_but_time d.
Proof. intros H k v Hk. left. by apply (H k). Qed.

Lemma encodable_insert d k v :
  serializable v = true -> encodable d -> encodable (<[k := v]> d).
Proof. intros Hv Hd. by apply map_Forall_insert_2. Qed.

Lemma encodable_but_time_insert d k v :
  serializable v = true -> encodable_but_time d ->
  encodable_but_time (<[k := v]> d).
Proof. intros Hv Hd. apply map_Forall_insert_2; [by left | done]. Qed.

Lemma base_json_record_encodable w message extra r :
  encodable extra -> encodable_but_time (base_json_record w message extra r).
Proof.
  intros Hextra. unfold base_json_record.
  assert (encodable_but_time
            (match <["message":=PStr message]> extra !! "time" with
             | Some _ => <["message":=PStr message]> extra
             | None => <["time":=PDatetime (utcnow w)]>
                         (<["message":=PStr message]> extra)
             end)) as H.
  { destruct (_ !! "time").
    - apply encodable_but_time_insert; [done | by apply encodable_weaken].
    - apply map_Forall_insert_2; [right; eauto |].
      apply encodable_but_time_insert; [done | by apply encodable_weaken]. }
  destruct (exc_info r); [by apply encodable_but_time_insert | done].
Qed.

Lemma getattr_encodable r k dflt :
  k ∉ excluded_fields -> encodable (extra_attrs r) ->
  serializable dflt = true -> serializable (getattr r k dflt) = true.
Proof.
  intros Hk Hattrs Hd. unfold getattr, record_dict.
  destruct ((init_attrs r ∪ extra_attrs r) !! k) as [v|] eqn:E; [|done].
  simpl. apply lookup_union_Some_raw in E as [Hinit | [_ Hextra]].
  - by apply (init_attrs_encodable r k).
  - by apply (Hattrs k).
Qed.

Lemma dict_get_encodable d k dflt :
  k <> "time" -> encodable_but_time d -> serializable dflt = true ->
  serializable (dict_get d k dflt) = true.
Proof.
  intros Hk Hd Hdflt. unfold dict_get.
  destruct (d !! k) as [v|] eqn:E; [|done]. simpl.
  by destruct (Hd k v E) as [? | [? _]].
Qed.

Ltac not_excluded :=
  unfold excluded_fields; rewrite !not_elem_of_cons;
  repeat split; try discriminate; apply not_elem_of_nil.

Lemma add_request_metadata_encodable config r d :
  encodable (extra_attrs r) -> encodable_but_time d ->
  encodable_but_time (add_request_metadata config r d).
Proof.
  intros Hattrs Hd. unfold add_request_metadata.
  destruct (enable_request_metadata config); [|done].
  repeat (apply encodable_but_time_insert;
          [apply getattr_encodable; [not_excluded | done |];
           apply dict_get_encodable; [discriminate | | done] |]);
    repeat (apply encodable_but_time_insert;
            [apply getattr_encodable; [not_excluded | done |];
             apply dict_get_encodable; [discriminate | | done] |]);
    try done.
Qed.

Lemma add_trace_fields_encodable r d :
  encodable (extra_attrs r) -> encodable_but_time d ->
  encodable_but_time (add_trace_fields r d).
Proof.
  intros Hattrs Hd. unfold add_trace_fields.
  apply encodable_but_time_insert.
  { apply getattr_encodable; [not_excluded | done |].
    rewrite dict_getattr_key by (apply list_elem_of_In; simpl; auto).
    by destruct (dict_truthy _). }
  apply encodable_but_time_insert; [|done].
  apply getattr_encodable; [not_excluded | done |].
  rewrite dict_getattr_key by (apply list_elem_of_In; simpl; auto).
  by destruct (dict_truthy _).
Qed.

(** Line 126 removes the last value without encoding. *)
Lemma add_context_encodable w r d :
  encodable (extra_attrs r) -> encodable_but_time d ->
  encodable (add_context w r d).
Proof.
  intros Hattrs Hd. unfold add_context.
  set (d' := <["timestamp":=_]> _).
  assert (encodable_but_time d') as Hd'.
  { subst d'.
    repeat (apply encodable_but_time_insert;
            [first [done | apply getattr_encodable; [not_excluded | done | done]] |]).
    done. }
  clearbody d'. intros k v.
  destruct (decide (k = "time")) as [-> | Hne].
  - rewrite lookup_insert_eq. intros [= <-].
    destruct (d' !! "time") as [t|] eqn:E; [|done].
    destruct (Hd' _ _ E) as [Ht | [_ [iso ->]]]; [|done].
    by destruct t.
  - rewrite lookup_insert_ne by done. intros E.
    by destruct (Hd' _ _ E) as [Ht | [? _]].
Qed.

Lemma add_execution_time_encodable config r d :
  encodable (extra_attrs r) -> encodable d ->
  encodable (add_execution_time config r d).
Proof.
  intros Hattrs Hd. unfold add_execution_time.
  destruct (enable_execution_time_logging config); [|done].
  apply encodable_insert; [|done].
  apply getattr_encodable; [not_excluded | done | done].
Qed.

Lemma get_memory_usage_encodable w m :
  get_memory_usage w = Ok m -> serializable m = true.
Proof.
  unfold get_memory_usage. destruct (psutil_probe w) as [rss | e].
  - by intros [= <-].
  - destruct (probe_except (exn_cls e)); [by intros [= <-] | discriminate].
Qed.

Lemma add_memory_usage_encodable w config d d' :
  add_memory_usage w config d = Ok d' -> encodable d -> encodable d'.
Proof.
  unfold add_memory_usage. intros H Hd.
  destruct (enable_memory_logging config).
  - inv_bind H. injection H as <-.
    apply encodable_insert; [by apply (get_memory_usage_encodable w) | done].
  - by injection H as <-.
Qed.

Lemma add_memory_usage_Ok w config d :
  (enable_memory_logging config = true -> exists m, get_memory_usage w = Ok m) ->
  exists d', add_memory_usage w config d = Ok d'.
Proof.
  intros Hp. unfold add_memory_usage.
  destruct (enable_memory_logging config); [|eauto].
  destruct Hp as (m & ->); [done |]. simpl. eauto.
Qed.

Lemma json_record_stack_trace_encodable w r d :
  encodable d -> encodable (json_record_stack_trace w r d).
Proof.
  intros Hd. unfold json_record_stack_trace.
  destruct (exc_info r) as [ei|], (is_error_level (levelname r)); try done.
  - destruct (exc_traceback ei); [by apply encodable_insert |].
    destruct (format_exception_no_tb w _ _); by apply encodable_insert.
  - by apply encodable_insert.
Qed.

Lemma json_record_encodable w config r message d rec :
  encodable (extra_attrs r) -> encodable d ->
  json_record w config r message (ExtraDict d) = Ok rec -> encodable rec.
Proof.
  intros Hattrs Hd H. apply json_record_inv in H as (d1 & H1 & ->).
  apply json_record_stack_trace_encodable.
  apply (add_memory_usage_encodable _ _ _ _ H1).
  apply add_execution_time_encodable; [done |].
  apply add_context_encodable; [done |].
  apply add_trace_fields_encodable; [done |].
  apply add_request_metadata_encodable; [done |].
  by apply base_json_record_encodable.
Qed.

Lemma time_isoformat_encodable d : encodable d -> encodable (time_isoformat d).
Proof.
  intros Hd. unfold time_isoformat.
  destruct (d !! "time") as [[]|]; try done. by apply encodable_insert.
Qed.

Lemma format_record_encodable w config r sr :
  encodable (extra_attrs r) -> format_record w config r = Ok sr -> encodable sr.
Proof.
  intros Hattrs H.
  apply format_record_inv in H as (m & rec & d1 & _ & Hj & H1 & ->).
  unfold format_stack_trace.
  assert (encodable d1) as Hd1;
    [|destruct (exc_info r); [by apply encodable_insert | done]].
  apply (add_memory_usage_encodable _ _ _ _ H1).
  apply add_execution_time_encodable; [done |].
  unfold update_context. repeat (apply encodable_insert; [done |]).
  apply time_isoformat_encodable. repeat (apply encodable_insert; [done |]).
  apply (json_record_encodable _ _ _ _ _ _ Hattrs (extract_encodable r Hattrs) Hj).
Qed.

Lemma format_record_Ok w config r :
  (exists message, getMessage w r = Ok message) ->
  (enable_memory_logging config = true -> exists m, get_memory_usage w = Ok m) ->
  exists sr, format_record w config r = Ok sr.
Proof.
  intros (message & Hm) Hp. unfold format_record. rewrite Hm. simpl.
  destruct (json_record_Ok w config r message
              (ExtraDict (_extract_extra_fields r)) Hp) as (rec & ->). simpl.
  match goal with
  | |- context [add_memory_usage w config ?d] =>
      destruct (add_memory_usage_Ok w config d Hp) as (d' & ->)
  end.
  simpl. eauto.
Qed.

(** [format] emits a record whenever the message can be built, the memory
    probe returns, and the caller's metadata has JSON encodings. *)
Lemma format_Ok w config r :
  (exists message, getMessage w r = Ok message) ->
  (enable_memory_logging config = true -> exists m, get_memory_usage w = Ok m) ->
  encodable (extra_attrs r) ->
  exists out, format w config r = Ok out.
Proof.
  intros Hm Hp Hattrs.
  destruct (format_record_Ok w config r Hm Hp) as (sr & Hsr).
  unfold format. rewrite Hsr. simpl.
  rewrite json_dumps_Ok; [eauto |].
  by apply (format_record_encodable w config r).
Qed.

(** ** The sample inputs *)

Lemma sample_getMessage w lvlname lvlno exc attrs :
  exists message,
    getMessage w (sample_record lvlname lvlno exc attrs) = Ok message.
Proof. by exists "Test log message". Qed.

Lemma sample_probe :
  get_memory_usage sample_env = Ok (PFloat (5000 # 100)).
Proof. reflexivity. Qed.

Lemma denied_probe : get_memory_usage denied_env = Ok UNKNOWN.
Proof. reflexivity. Qed.

Lemma sample_format_Ok config lvlname lvlno exc attrs :
  encodable attrs ->
  exists out,
    format sample_env config (sample_record lvlname lvlno exc attrs) = Ok out.
Proof.
  intros Hattrs. apply format_Ok; [apply sample_getMessage | | done].
  intros _. eexists. apply sample_probe.
Qed.

Lemma encodable_empty : encodable ∅.
Proof. apply map_Forall_empty. Qed.

(** ** Stack traces (C1, C7) *)

(** Whatever the level, an attached exception puts a [stack_trace] into the
    emitted record. *)
Lemma format_stack_trace_any_level w config r ei out :
  exc_info r = Some ei -> format w config r = Ok out ->
  out !! "stack_trace" = Some (JStr (format_exception w ei)).
Proof.
  intros Hexc H. apply (format_lookup _ _ _ _ "stack_trace") in H as (sr & Hsr & ->).
  by rewrite (format_record_stack_trace _ _ _ _ Hsr), Hexc.
Qed.

(** C1, at a failing input.  An INFO record logged with an exception
    attached ([logger.info(..., exc_info=True)] under [except]) is emitted
    with a [stack_trace]: [json_record] adds none below ERROR, and lines
    72-74 of [format] then add one without looking at the level. *)
Theorem C1_info_record_with_exception_has_stack_trace :
  let r := sample_record "INFO" 20 (Some sample_exc) ∅ in
  levelno r < 40
  /\ (exists rec,
        json_record sample_env (flags true true true true) r (msg r)
          (ExtraDict (_extract_extra_fields r)) = Ok rec
        /\ rec !! "stack_trace" = None)
  /\ exists out,
       format sample_env (flags true true true true) r = Ok out
       /\ out !! "stack_trace"
          = Some (JStr (format_exception sample_env sample_exc)).
Proof.
  intros r. split; [reflexivity |]. split.
  - destruct (json_record_Ok sample_env (flags true true true true) r (msg r)
                (ExtraDict (_extract_extra_fields r))) as (rec & Hrec).
    { intros _. eexists. apply sample_probe. }
    exists rec. split; [exact Hrec |].
    rewrite (json_record_stack_trace_below_error _ _ _ _ _ _ Hrec)
      by reflexivity.
    rewrite extract_enrichment by (apply list_elem_of_In; simpl; auto 20).
    apply lookup_empty.
  - destruct (sample_format_Ok (flags true true true true) "INFO" 20
                (Some sample_exc) ∅ encodable_empty) as (out & Hout).
    exists out. split; [exact Hout |].
    apply (format_stack_trace_any_level sample_env (flags true true true true) r);
      [reflexivity | exact Hout].
Qed.

Lemma is_error_level_spec lvl :
  is_error_level lvl = true <-> lvl = "ERROR" \/ lvl = "CRITICAL".
Proof.
  unfold is_error_level. rewrite bool_decide_eq_true, !elem_of_cons, elem_of_nil.
  tauto.
Qed.

(** C7.  An ERROR or CRITICAL record without exception information carries
    the fixed sentinel as its [stack_trace], in the dictionary [json_record]
    returns and in the record [format] emits. *)
Theorem C7_error_without_exception_has_sentinel w config r :
  levelname r = "ERROR" \/ levelname r = "CRITICAL" ->
  exc_info r = None ->
  (forall message extra rec,
     json_record w config r message extra = Ok rec ->
     rec !! "stack_trace" = Some (PStr NO_EXC_INFO))
  /\ (forall out,
        format w config r = Ok out ->
        out !! "stack_trace" = Some (JStr NO_EXC_INFO)).
Proof.
  intros Hlvl Hexc. apply is_error_level_spec in Hlvl. split.
  - intros message extra rec H.
    by apply (json_record_stack_trace_sentinel _ _ _ _ _ _ H).
  - intros out H.
    apply (format_lookup _ _ _ _ "stack_trace") in H as (sr & Hsr & ->).
    by rewrite (format_record_stack_trace _ _ _ _ Hsr), Hexc, Hlvl.
Qed.

Lemma C7_witness :
  exists out,
    format sample_env (flags true true true true)
      (sample_record "CRITICAL" 50 None ∅) = Ok out
    /\ out !! "stack_trace" = Some (JStr NO_EXC_INFO).
Proof.
  destruct (sample_format_Ok (flags true true true true) "CRITICAL" 50 None ∅
              encodable_empty) as (out & Hout).
  exists out. split; [exact Hout |].
  apply (C7_error_without_exception_has_sentinel sample_env
           (flags true true true true) (sample_record "CRITICAL" 50 None ∅));
    [right; reflexivity | reflexivity | exact Hout].
Defined.

(** ** Trace identifiers and the [extra] argument (C9, C10) *)

(** C9.  When the log record has no attribute [trace_id] (resp. [span_id]),
    [json_record] writes "UNKNOWN" under that key whatever the dictionary
    [extra] holds there: the fallback of lines 107-108 is [getattr] on the
    dictionary, which never sees its keys ([dict_getattr_key]). *)
Theorem C9_trace_fallback_ignores_extra_keys w config r message d rec k :
  k ∈ trace_fields ->
  record_dict r !! k = None ->
  json_record w config r message (ExtraDict d) = Ok rec ->
  rec !! k = Some UNKNOWN.
Proof.
  intros Hk Hattr H.
  rewrite (json_record_trace _ _ _ _ _ _ _ H Hk).
  rewrite record_dict_enrichment in Hattr by solve_field_side.
  by rewrite Hattr.
Qed.

Lemma C9_witness :
  let d : dict := {[ "trace_id" := PStr "4bf92f3577b34da6" ]} in
  d !! "trace_id" = Some (PStr "4bf92f3577b34da6")
  /\ exists rec,
       json_record sample_env (flags true true true true)
         (sample_record "INFO" 20 None ∅) "Test log message" (ExtraDict d)
       = Ok rec
       /\ rec !! "trace_id" = Some UNKNOWN.
Proof.
  intros d. split; [apply lookup_singleton_eq |].
  destruct (json_record_Ok sample_env (flags true true true true)
              (sample_record "INFO" 20 None ∅) "Test log message"
              (ExtraDict d)) as (rec & Hrec).
  { intros _. eexists. apply sample_probe. }
  exists rec. split; [exact Hrec |].
  apply (C9_trace_fallback_ignores_extra_keys sample_env
           (flags true true true true) (sample_record "INFO" 20 None ∅)
           "Test log message" d);
    [apply list_elem_of_In; simpl; auto | reflexivity | exact Hrec].
Defined.

Lemma json_record_probe_raises w config r message extra e :
  enable_memory_logging config = true ->
  get_memory_usage w = Raise e ->
  json_record w config r message extra = Raise e.
Proof.
  intros Hflag Hprobe. unfold json_record, add_memory_usage.
  by rewrite Hflag, Hprobe.
Qed.

(** C10, as the code has it.  A call of [json_record] whose [extra] is not
    a dictionary has the outcome of the call with an empty dictionary, be
    it a record or an exception.  It returns a record when memory logging
    is off or the memory probe returns; with memory logging on, an
    exception that leaves the memory probe leaves [json_record] too. *)
Theorem C10_non_dict_extra_is_empty_dict w config r message v :
  json_record w config r message (ExtraOther v)
  = json_record w config r message (ExtraDict ∅)
  /\ ((enable_memory_logging config = true ->
       exists m, get_memory_usage w = Ok m) ->
      exists rec, json_record w config r message (ExtraOther v) = Ok rec)
  /\ (forall e,
        enable_memory_logging config = true ->
        get_memory_usage w = Raise e ->
        json_record w config r message (ExtraOther v) = Raise e).
Proof.
  split; [apply json_record_non_dict |].
  split; [apply json_record_Ok |].
  intros e. apply json_record_probe_raises.
Qed.

Lemma C10_witness :
  exists rec,
    json_record sample_env (flags true true true true)
      (sample_record "INFO" 20 None ∅) "Test log message" (ExtraOther PNone)
    = Ok rec
    /\ json_record sample_env (flags true true true true)
         (sample_record "INFO" 20 None ∅) "Test log message" (ExtraDict ∅)
       = Ok rec.
Proof.
  destruct (C10_non_dict_extra_is_empty_dict sample_env
              (flags true true true true) (sample_record "INFO" 20 None ∅)
              "Test log message" PNone) as (Heq & Hok & _).
  destruct Hok as [rec Hrec]; [intros _; eexists; apply sample_probe |].
  exists rec. split; [exact Hrec | rewrite <- Heq; exact Hrec].
Defined.

(** C10 as stated fails: with memory logging on and a [psutil] that fails
    outside its own exception classes, the call with [None] as [extra]
    raises the [OSError] of the probe instead of returning a record. *)
Lemma C10_counterexample :
  ~ (exists rec,
       json_record broken_env (flags true false false false)
         (sample_record "INFO" 20 None ∅) "Test log message"
         (ExtraOther PNone) = Ok rec)
  /\ json_record broken_env (flags true false false false)
       (sample_record "INFO" 20 None ∅) "Test log message" (ExtraOther PNone)
     = Raise (Exn OSError "[Errno 5] Input/output error").
Proof.
  assert (json_record broken_env (flags true false false false)
            (sample_record "INFO" 20 None ∅) "Test log message"
            (ExtraOther PNone)
          = Raise (Exn OSError "[Errno 5] Input/output error")) as Hraise
    by (apply json_record_probe_raises; reflexivity).
  split; [| exact Hraise].
  intros [rec Hrec]. rewrite Hraise in Hrec. discriminate Hrec.
Qed.

(** ** Enrichment that raises (C5) *)

(** A key of the metadata that the formatter does not write reaches
    [json.dumps] with the caller's value. *)
Lemma format_record_passthrough w config r sr k :
  format_record w config r = Ok sr ->
  k ∉ written_fields ->
  sr !! k = _extract_extra_fields r !! k.
Proof.
  intros Hsr. unfold written_fields, enrichment_fields, request_fields,
    trace_fields. simpl. rewrite !not_elem_of_cons.
  intros (?&?&?&?&?&?&?&?&?&?&?&?&?&?&?&?&?&?&?&?&_).
  apply format_record_inv in Hsr as (m & rec & d1 & _ & Hj & Hm1 & ->).
  rewrite format_stack_trace_other by done.
  rewrite (add_memory_usage_other _ _ _ _ _ Hm1) by done.
  rewrite add_execution_time_other by done.
  unfold update_context. rewrite !lookup_insert_ne by done.
  rewrite time_isoformat_other by done. rewrite !lookup_insert_ne by done.
  apply json_record_inv in Hj as (d2 & Hm2 & ->).
  rewrite json_record_stack_trace_other by done.
  rewrite (add_memory_usage_other _ _ _ _ _ Hm2) by done.
  rewrite add_execution_time_other by done.
  unfold add_context. rewrite !lookup_insert_ne by done.
  rewrite add_trace_fields_other, add_request_metadata_other
    by (unfold request_fields, trace_fields; rewrite !not_elem_of_cons;
        repeat split; try done; apply not_elem_of_nil).
  unfold base_json_record.
  destruct (exc_info r);
    destruct (<["message":=PStr m]> (_extract_extra_fields r) !! "time");
    by rewrite ?lookup_insert_ne by done.
Qed.

Lemma extract_metadata r k v :
  extra_attrs r !! k = Some v -> init_attrs r !! k = None ->
  k ∉ excluded_fields -> _extract_extra_fields r !! k = Some v.
Proof.
  intros Hk Hinit Hexcl. unfold _extract_extra_fields, record_dict.
  rewrite map_lookup_filter, lookup_union, Hinit, (left_id None _), Hk.
  simpl. by rewrite option_guard_True.
Qed.

(** Once the dictionary is built, a metadata value without encoding makes
    line 76 raise. *)
Lemma format_unserializable_metadata w config r sr k v :
  format_record w config r = Ok sr ->
  extra_attrs r !! k = Some v -> to_json v = None ->
  init_attrs r !! k = None -> k ∉ excluded_fields -> k ∉ written_fields ->
  format w config r = Raise (Exn TypeError "Object is not JSON serializable").
Proof.
  intros Hsr Hk Hv Hinit Hexcl Hw. unfold format. rewrite Hsr. simpl.
  apply (json_dumps_Raise _ k v); [|done].
  rewrite (format_record_passthrough _ _ _ _ _ Hsr Hw).
  by apply extract_metadata.
Qed.

Ltac string_neq := let H := fresh in intros H; discriminate H.

Ltac not_in_list :=
  unfold written_fields, excluded_fields, enrichment_fields, request_fields,
    trace_fields; simpl; rewrite !not_elem_of_cons;
  repeat split; try string_neq; apply not_elem_of_nil.

Lemma format_object_metadata_raises :
  format sample_env (flags true true true true)
    (sample_record "INFO" 20 None
       {[ "payload" := PObject "<object object at 0x7f3a5c0>" ]})
  = Raise (Exn TypeError "Object is not JSON serializable").
Proof.
  destruct (format_record_Ok sample_env (flags true true true true)
              (sample_record "INFO" 20 None
                 {[ "payload" := PObject "<object object at 0x7f3a5c0>" ]}))
    as (sr & Hsr).
  { apply sample_getMessage. }
  { intros _. eexists. apply sample_probe. }
  apply (format_unserializable_metadata _ _ _ sr "payload"
           (PObject "<object object at 0x7f3a5c0>"));
    [exact Hsr | apply lookup_singleton_eq | reflexivity | reflexivity
    | not_in_list | not_in_list].
Qed.

(** C5 as stated fails: for a record whose metadata carries an object
    without JSON encoding ([logger.info(..., extra={"payload": object()})])
    [format] produces no record; it raises the [TypeError] of
    [json.dumps]. *)
Lemma C5_counterexample :
  ~ exists out,
      format sample_env (flags true true true true)
        (sample_record "INFO" 20 None
           {[ "payload" := PObject "<object object at 0x7f3a5c0>" ]})
      = Ok out.
Proof.
  intros (out & H). rewrite format_object_metadata_raises in H.
  discriminate H.
Qed.

Lemma get_memory_usage_caught w e :
  psutil_probe w = PsutilRaises e -> probe_except (exn_cls e) = true ->
  get_memory_usage w = Ok UNKNOWN.
Proof. intros Hp Hc. unfold get_memory_usage. by rewrite Hp, Hc. Qed.

(** An exception of [psutil] outside the [except] clause leaves the probe. *)
Lemma get_memory_usage_propagates w e :
  psutil_probe w = PsutilRaises e -> probe_except (exn_cls e) = false ->
  get_memory_usage w = Raise e.
Proof. intros Hp Hc. unfold get_memory_usage. by rewrite Hp, Hc. Qed.

(** C5, as the code has it.  [format] produces a record for every record
    whose message can be built and whose metadata values all have a JSON
    encoding, provided the memory probe returns; a probe failure that
    [get_memory_usage] catches does not abort the record, it is emitted
    with "UNKNOWN" as [memory_usage_mb]. *)
Theorem C5_format_returns_on_encodable_metadata w config r :
  (exists message, getMessage w r = Ok message) ->
  (enable_memory_logging config = true -> exists m, get_memory_usage w = Ok m) ->
  encodable (extra_attrs r) ->
  (exists out, format w config r = Ok out)
  /\ (forall e out,
        psutil_probe w = PsutilRaises e -> probe_except (exn_cls e) = true ->
        enable_memory_logging config = true ->
        format w config r = Ok out ->
        out !! "memory_usage_mb" = Some (JStr "UNKNOWN")).
Proof.
  intros Hm Hp Hattrs. split; [by apply format_Ok |].
  intros e out Hprobe Hcaught Hflag H.
  apply (format_lookup _ _ _ _ "memory_usage_mb") in H as (sr & Hsr & ->).
  apply format_record_memory in Hsr. rewrite Hflag in Hsr.
  destruct Hsr as (m & Hmem & ->).
  rewrite (get_memory_usage_caught _ _ Hprobe Hcaught) in Hmem.
  by injection Hmem as <-.
Qed.

Lemma C5_witness :
  exists out,
    format denied_env (flags true true true true)
      (sample_record "INFO" 20 None {[ "request_id" := PStr "12345" ]})
    = Ok out
    /\ out !! "memory_usage_mb" = Some (JStr "UNKNOWN").
Proof.
  destruct (C5_format_returns_on_encodable_metadata denied_env
              (flags true true true true)
              (sample_record "INFO" 20 None {[ "request_id" := PStr "12345" ]}))
    as [[out Hout] Hunknown].
  - apply sample_getMessage.
  - intros _. eexists. apply denied_probe.
  - apply map_Forall_singleton. reflexivity.
  - exists out. split; [exact Hout |].
    apply (Hunknown (Exn AccessDenied "psutil.AccessDenied (pid=4242)") out);
      [reflexivity | reflexivity | reflexivity | exact Hout].
Defined.

(** ** The memory probe (C8) *)

Lemma round_half_even_nearest num den :
  0 < den -> 2 * Z.abs (round_half_even num den * den - num) <= den.
Proof.
  intros Hden. unfold round_half_even.
  pose proof (Z.div_mod num den ltac:(lia)) as Hdm.
  pose proof (Z.mod_pos_bound num den Hden) as Hr.
  destruct (2 * (num `mod` den) <? den) eqn:E1; [apply Z.ltb_lt in E1; nia |].
  apply Z.ltb_ge in E1.
  destruct (den <? 2 * (num `mod` den)) eqn:E2; [apply Z.ltb_lt in E2; nia |].
  apply Z.ltb_ge in E2.
  destruct (Z.even (num `div` den)); nia.
Qed.

(** A tie goes to the even neighbour. *)
Lemma round_half_even_tie num den :
  0 < den -> 2 * (num `mod` den) = den ->
  Z.even (round_half_even num den) = true.
Proof.
  intros Hden Htie. unfold round_half_even.
  rewrite (proj2 (Z.ltb_ge _ _)), (proj2 (Z.ltb_ge _ _)) by lia.
  destruct (Z.even (num `div` den)) eqn:E; [done |].
  by rewrite Z.add_1_r, Z.even_succ, <- Z.negb_even, E.
Qed.

(** The hundredths returned are within half a hundredth of a megabyte of
    the resident size. *)
Lemma round_mb_2_nearest rss :
  2 * Z.abs (round_mb_2 rss * (1024 * 1024) - rss * 100) <= 1024 * 1024.
Proof. unfold round_mb_2. apply round_half_even_nearest. lia. Qed.

Example round_mb_2_tie : round_mb_2 131072 = 12.
Proof. reflexivity. Qed.

Lemma json_dumps_is_Some d out k :
  json_dumps d = Ok out -> is_Some (out !! k) <-> is_Some (d !! k).
Proof.
  unfold json_dumps. case_bool_decide as Hall; [|discriminate].
  intros [= <-]. rewrite lookup_omap.
  destruct (d !! k) as [v|] eqn:E; simpl; [|by rewrite !is_Some_alt].
  specialize (Hall k v E). unfold serializable in Hall. simpl in Hall.
  destruct (to_json v); [|discriminate]. split; eauto.
Qed.

Lemma format_memory w config r out :
  format w config r = Ok out ->
  if enable_memory_logging config
  then exists m, get_memory_usage w = Ok m
                 /\ out !! "memory_usage_mb" = to_json m
  else out !! "memory_usage_mb"
       = extra_attrs r !! "memory_usage_mb" ≫= to_json.
Proof.
  intros H.
  apply (format_lookup _ _ _ _ "memory_usage_mb") in H as (sr & Hsr & ->).
  apply format_record_memory in Hsr.
  destruct (enable_memory_logging config).
  - destruct Hsr as (m & Hm & ->). eauto.
  - by rewrite Hsr.
Qed.

(** C8, as the code has it.  With memory logging on, the emitted record
    carries what the probe returned; with it off, the formatter adds
    nothing and the field is there exactly when the record's own metadata
    has that key.  The probe returns the resident size in megabytes rounded
    to two decimals when [psutil] answers, and "UNKNOWN", not an exception,
    when [psutil] raises [NoSuchProcess], [AccessDenied] or
    [ZombieProcess]. *)
Theorem C8_memory_usage_field_and_probe w config r :
  (forall out,
     format w config r = Ok out ->
     if enable_memory_logging config
     then exists m, get_memory_usage w = Ok m
                    /\ out !! "memory_usage_mb" = to_json m
     else out !! "memory_usage_mb"
          = extra_attrs r !! "memory_usage_mb" ≫= to_json)
  /\ (forall rss,
        psutil_probe w = Rss rss ->
        get_memory_usage w = Ok (PFloat (round_mb_2 rss # 100))
        /\ 2 * Z.abs (round_mb_2 rss * (1024 * 1024) - rss * 100)
           <= 1024 * 1024)
  /\ (forall e,
        psutil_probe w = PsutilRaises e ->
        exn_cls e = NoSuchProcess \/ exn_cls e = AccessDenied
        \/ exn_cls e = ZombieProcess ->
        get_memory_usage w = Ok UNKNOWN).
Proof.
  split; [|split].
  - intros out. apply format_memory.
  - intros rss Hp. unfold get_memory_usage. rewrite Hp.
    split; [done | apply round_mb_2_nearest].
  - intros e Hp Hcls. unfold get_memory_usage. rewrite Hp.
    by destruct Hcls as [-> | [-> | ->]].
Qed.

Lemma C8_witness :
  (exists out,
     format sample_env (flags true false false false)
       (sample_record "INFO" 20 None ∅) = Ok out
     /\ out !! "memory_usage_mb" = Some (JFloat (5000 # 100)))
  /\ get_memory_usage sample_env = Ok (PFloat (5000 # 100))
  /\ get_memory_usage denied_env = Ok UNKNOWN.
Proof.
  pose proof (C8_memory_usage_field_and_probe sample_env
                (flags true false false false)
                (sample_record "INFO" 20 None ∅)) as (Hfmt & Hrss & _).
  pose proof (C8_memory_usage_field_and_probe denied_env
                (flags true false false false)
                (sample_record "INFO" 20 None ∅)) as (_ & _ & Hexn).
  split; [|split].
  - destruct (sample_format_Ok (flags true false false false) "INFO" 20 None ∅
                encodable_empty) as (out & Hout).
    exists out. split; [exact Hout |].
    destruct (Hfmt out Hout) as (m & Hm & ->).
    rewrite sample_probe in Hm. injection Hm as <-. reflexivity.
  - destruct (Hrss 52428800 eq_refl) as [Hm _]. exact Hm.
  - apply (Hexn (Exn AccessDenied "psutil.AccessDenied (pid=4242)") eq_refl).
    right; left; reflexivity.
Defined.

Lemma encodable_singleton k v :
  serializable v = true -> encodable {[ k := v ]}.
Proof. intros Hv. by apply map_Forall_singleton. Qed.

(** C8 as stated fails: with memory logging off, a record whose metadata
    carries [memory_usage_mb] (as the start-up record of [configure_logging]
    does) is emitted with the field. *)
Lemma C8_counterexample :
  ~ (forall out,
       format sample_env (flags false false false false)
         (sample_record "INFO" 20 None
            {[ "memory_usage_mb" := PFloat (5000 # 100) ]}) = Ok out ->
       is_Some (out !! "memory_usage_mb") ->
       enable_memory_logging (flags false false false false) = true).
Proof.
  intros H.
  destruct (sample_format_Ok (flags false false false false) "INFO" 20 None
              {[ "memory_usage_mb" := PFloat (5000 # 100) ]}) as (out & Hout).
  { apply encodable_singleton. reflexivity. }
  specialize (H out Hout). apply format_memory in Hout. simpl in Hout.
  rewrite lookup_singleton_eq in Hout. simpl in Hout.
  assert (false = true) as Habs; [|discriminate Habs].
  apply H. rewrite Hout. eexists. reflexivity.
Qed.

(** ** Request metadata (C2) *)

Lemma format_trace w config r out k :
  format w config r = Ok out -> k ∈ trace_fields ->
  out !! k = to_json (default UNKNOWN (extra_attrs r !! k)).
Proof.
  intros H Hk. apply (format_lookup _ _ _ _ k) in H as (sr & Hsr & ->).
  by rewrite (format_record_trace _ _ _ _ _ Hsr Hk).
Qed.

Lemma format_request w config r out k :
  format w config r = Ok out -> k ∈ request_fields ->
  out !! k
  = if enable_request_metadata config
    then to_json (default UNKNOWN (extra_attrs r !! k))
    else extra_attrs r !! k ≫= to_json.
Proof.
  intros H Hk. apply (format_lookup _ _ _ _ k) in H as (sr & Hsr & ->).
  rewrite (format_record_request _ _ _ _ _ Hsr Hk).
  by destruct (enable_request_metadata config).
Qed.

(** C2 as stated fails: with [enable_request_metadata] off, [trace_id] is
    still emitted. *)
Lemma C2_counterexample :
  ~ (enable_request_metadata (flags false false false false) = false ->
     forall out,
       format sample_env (flags false false false false)
         (sample_record "INFO" 20 None ∅) = Ok out ->
       forall k, k ∈ request_fields ++ trace_fields -> out !! k = None).
Proof.
  intros H.
  destruct (sample_format_Ok (flags false false false false) "INFO" 20 None ∅
              encodable_empty) as (out & Hout).
  assert ("trace_id" ∈ request_fields ++ trace_fields) as Hin
    by (apply list_elem_of_In; simpl; auto 10).
  specialize (H eq_refl out Hout "trace_id" Hin).
  assert ("trace_id" ∈ trace_fields) as Hk
    by (apply list_elem_of_In; simpl; auto).
  pose proof (format_trace _ _ _ _ "trace_id" Hout Hk) as Ht.
  rewrite H in Ht. cbn [extra_attrs sample_record] in Ht.
  rewrite lookup_empty in Ht. discriminate Ht.
Qed.

(** C2, as the code has it.  [trace_id] and [span_id] are emitted whatever
    the flag, copied from the metadata when it has them and "UNKNOWN"
    otherwise; so are [request_id], [user_id] and [feed_type] when
    [enable_request_metadata] is on; when it is off the formatter adds none
    of these three, and each is emitted exactly when the metadata carries
    it. *)
Theorem C2_request_metadata_fields w config r out :
  format w config r = Ok out ->
  (forall k, k ∈ trace_fields ->
     out !! k = to_json (default UNKNOWN (extra_attrs r !! k)))
  /\ (forall k, k ∈ request_fields ->
        out !! k
        = if enable_request_metadata config
          then to_json (default UNKNOWN (extra_attrs r !! k))
          else extra_attrs r !! k ≫= to_json).
Proof.
  intros H. split; intros k Hk.
  - by apply (format_trace w config).
  - by apply (format_request w config).
Qed.

Lemma C2_witness :
  exists out,
    format sample_env (flags false false true false)
      (sample_record "INFO" 20 None {[ "request_id" := PStr "12345" ]})
    = Ok out
    /\ out !! "request_id" = Some (JStr "12345")
    /\ out !! "user_id" = Some (JStr "UNKNOWN")
    /\ out !! "trace_id" = Some (JStr "UNKNOWN").
Proof.
  destruct (sample_format_Ok (flags false false true false) "INFO" 20 None
              {[ "request_id" := PStr "12345" ]}) as (out & Hout).
  { apply encodable_singleton. reflexivity. }
  exists out. split; [exact Hout |].
  destruct (C2_request_metadata_fields sample_env (flags false false true false)
              (sample_record "INFO" 20 None {[ "request_id" := PStr "12345" ]})
              out Hout) as [Htrace Hreq].
  repeat split.
  - rewrite (Hreq "request_id") by (apply list_elem_of_In; simpl; auto).
    simpl. rewrite lookup_singleton_eq. reflexivity.
  - rewrite (Hreq "user_id") by (apply list_elem_of_In; simpl; auto).
    simpl. rewrite lookup_singleton_ne by string_neq. reflexivity.
  - rewrite (Htrace "trace_id") by (apply list_elem_of_In; simpl; auto).
    simpl. rewrite lookup_singleton_ne by string_neq. reflexivity.
Defined.

(** ** Feature flags (C6) *)

Lemma format_stack_trace_field w config r out :
  format w config r = Ok out ->
  out !! "stack_trace"
  = match exc_info r with
    | Some ei => Some (JStr (format_exception w ei))
    | None =>
        if is_error_level (levelname r) then Some (JStr NO_EXC_INFO)
        else extra_attrs r !! "stack_trace" ≫= to_json
    end.
Proof.
  intros H.
  apply (format_lookup _ _ _ _ "stack_trace") in H as (sr & Hsr & ->).
  rewrite (format_record_stack_trace _ _ _ _ Hsr).
  by destruct (exc_info r), (is_error_level (levelname r)).
Qed.

(** Nothing in [format] reads [enable_stack_trace_logging]. *)
Lemma format_ignores_stack_trace_flag w config r b :
  format w
    {| log_level := log_level config;
       file_log_level := file_log_level config;
       console_log_level := console_log_level config;
       log_file_path := log_file_path config;
       error_log_file_path := error_log_file_path config;
       log_queue_size := log_queue_size config;
       max_log_file_size := max_log_file_size config;
       max_backup_files := max_backup_files config;
       enable_memory_logging := enable_memory_logging config;
       enable_execution_time_logging := enable_execution_time_logging config;
       enable_request_metadata := enable_request_metadata config;
       enable_stack_trace_logging := b |} r
  = format w config r.
Proof. reflexivity. Qed.

(** C6 as stated fails: with [enable_stack_trace_logging] on, an INFO
    record without exception is emitted without [stack_trace]. *)
Lemma C6_counterexample :
  ~ (enable_stack_trace_logging (flags true true true true) = true ->
     forall out,
       format sample_env (flags true true true true)
         (sample_record "INFO" 20 None ∅) = Ok out ->
       is_Some (out !! "stack_trace")).
Proof.
  intros H.
  destruct (sample_format_Ok (flags true true true true) "INFO" 20 None ∅
              encodable_empty) as (out & Hout).
  specialize (H eq_refl out Hout).
  rewrite (format_stack_trace_field _ _ _ _ Hout) in H. simpl in H.
  rewrite lookup_empty in H. destruct H as [j Hj]. discriminate Hj.
Qed.

(** C6, as the code has it.  [execution_time_ms], [memory_usage_mb],
    [request_id], [user_id] and [feed_type] are in every emitted record
    when their flag is on, and when it is off in exactly the records whose
    own metadata carries the key; [trace_id] and [span_id] are in every
    emitted record. *)
Theorem C6_flag_governed_fields w config r out :
  format w config r = Ok out ->
  (is_Some (out !! "execution_time_ms")
   <-> enable_execution_time_logging config = true
       \/ is_Some (extra_attrs r !! "execution_time_ms"))
  /\ (is_Some (out !! "memory_usage_mb")
      <-> enable_memory_logging config = true
          \/ is_Some (extra_attrs r !! "memory_usage_mb"))
  /\ (forall k, k ∈ request_fields ->
        is_Some (out !! k)
        <-> enable_request_metadata config = true
            \/ is_Some (extra_attrs r !! k))
  /\ (forall k, k ∈ trace_fields -> is_Some (out !! k)).
Proof.
  intros H. apply format_inv in H as (sr & Hsr & Hd).
  repeat split.
  - rewrite (json_dumps_is_Some _ _ _ Hd),
      (format_record_execution_time _ _ _ _ Hsr).
    destruct (enable_execution_time_logging config); [eauto |].
    intros ?. by right.
  - rewrite (json_dumps_is_Some _ _ _ Hd),
      (format_record_execution_time _ _ _ _ Hsr).
    destruct (enable_execution_time_logging config); [eauto |].
    by intros [? | ?].
  - rewrite (json_dumps_is_Some _ _ _ Hd).
    pose proof (format_record_memory _ _ _ _ Hsr) as Hm.
    destruct (enable_memory_logging config); [eauto |].
    rewrite Hm. intros ?. by right.
  - rewrite (json_dumps_is_Some _ _ _ Hd).
    pose proof (format_record_memory _ _ _ _ Hsr) as Hm.
    destruct (enable_memory_logging config).
    + destruct Hm as (m & _ & ->). eauto.
    + rewrite Hm. by intros [? | ?].
  - rewrite (json_dumps_is_Some _ _ _ Hd),
      (format_record_request _ _ _ _ _ Hsr) by done.
    destruct (enable_request_metadata config); [eauto |].
    intros ?. by right.
  - rewrite (json_dumps_is_Some _ _ _ Hd),
      (format_record_request _ _ _ _ _ Hsr) by done.
    destruct (enable_request_metadata config); [eauto |].
    by intros [? | ?].
  - intros k Hk. rewrite (json_dumps_is_Some _ _ _ Hd),
      (format_record_trace _ _ _ _ _ Hsr Hk). eauto.
Qed.

Lemma C6_witness :
  exists out,
    format sample_env (flags false true false false)
      (sample_record "INFO" 20 None ∅) = Ok out
    /\ is_Some (out !! "execution_time_ms")
    /\ ~ is_Some (out !! "memory_usage_mb")
    /\ ~ is_Some (out !! "request_id")
    /\ is_Some (out !! "span_id").
Proof.
  destruct (sample_format_Ok (flags false true false false) "INFO" 20 None ∅
              encodable_empty) as (out & Hout).
  exists out. split; [exact Hout |].
  destruct (C6_flag_governed_fields sample_env (flags false true false false)
              (sample_record "INFO" 20 None ∅) out Hout)
    as (Hexec & Hmem & Hreq & Htrace).
  repeat split.
  - apply Hexec. left. reflexivity.
  - intros Hs. apply Hmem in Hs as [Hs | Hs]; [discriminate Hs |].
    simpl in Hs. rewrite lookup_empty in Hs. destruct Hs as [j Hj].
    discriminate Hj.
  - intros Hs. apply Hreq in Hs as [Hs | Hs];
      [discriminate Hs | | apply list_elem_of_In; simpl; auto].
    simpl in Hs. rewrite lookup_empty in Hs. destruct Hs as [j Hj].
    discriminate Hj.
  - apply Htrace. apply list_elem_of_In. simpl. auto.
Defined.

(** ** Sink failures in the dispatch loop (C3) *)

Lemma QueueListener_handle_app respect pre post r st :
  (forall h, h ∈ pre -> handle_raises h r = None) ->
  QueueListener_handle respect (pre ++ post) r st
  = QueueListener_handle respect post r
      {| delivered :=
           delivered st
             ++ map (fun h => (handler_name h, r))
                  (List.filter (accepts respect r) pre);
         printed := printed st |}.
Proof.
  revert st. induction pre as [|h pre IH]; intros st Hpre.
  - simpl. rewrite app_nil_r. by destruct st.
  - assert (handle_raises h r = None) as Hh by (apply Hpre; left).
    assert (forall h', h' ∈ pre -> handle_raises h' r = None) as Hpre'
      by (intros h' Hin; apply Hpre; by right).
    cbn [app QueueListener_handle List.filter].
    fold (accepts respect r h). destruct (accepts respect r h).
    + rewrite Hh, IH by done. simpl. by rewrite <- app_assoc.
    + by rewrite IH.
Qed.

(** The loop of [QueueListener.handle] stops at the failing handler: the
    handlers before it have the record, those after it are not reached. *)
Lemma QueueListener_handle_raises respect pre h post r e st :
  (forall h', h' ∈ pre -> handle_raises h' r = None) ->
  accepts respect r h = true -> handle_raises h r = Some e ->
  QueueListener_handle respect (pre ++ h :: post) r st
  = (Raise e,
     {| delivered :=
          delivered st
            ++ map (fun h' => (handler_name h', r))
                 (List.filter (accepts respect r) pre);
        printed := printed st |}).
Proof.
  intros Hpre Hacc Hh. rewrite QueueListener_handle_app by done.
  cbn [QueueListener_handle]. fold (accepts respect r h).
  by rewrite Hacc, Hh.
Qed.

(** Without a failing handler every accepting handler has the record. *)
Lemma QueueListener_handle_Ok respect hs r st :
  (forall h, h ∈ hs -> handle_raises h r = None) ->
  QueueListener_handle respect hs r st
  = (Ok tt,
     {| delivered :=
          delivered st
            ++ map (fun h => (handler_name h, r))
                 (List.filter (accepts respect r) hs);
        printed := printed st |}).
Proof.
  intros Hhs. rewrite <- (app_nil_r hs) at 1.
  by rewrite QueueListener_handle_app.
Qed.

(** [SafeQueueListener.handle] never raises. *)
Lemma SafeQueueListener_handle_Ok respect hs r st :
  (SafeQueueListener_handle respect hs r st).1 = Ok tt.
Proof.
  unfold SafeQueueListener_handle.
  by destruct (QueueListener_handle respect hs r st) as [[[]|e] st'].
Qed.

(** With the [handle] of [QueueListener] itself the exception leaves
    [_monitor] and the worker is gone. *)
Lemma QueueListener_monitor_crashes respect pre h post r e st q :
  (forall h', h' ∈ pre -> handle_raises h' r = None) ->
  accepts respect r h = true -> handle_raises h r = Some e ->
  (_monitor (QueueListener_handle respect (pre ++ h :: post))
     (Item r :: q) st).1 = Crashed e.
Proof.
  intros Hpre Hacc Hh. cbn [_monitor].
  by rewrite (QueueListener_handle_raises _ _ _ _ _ e).
Qed.

(** C3 as stated fails: when the [handle] of the first sink of a listener
    raises, the console sink behind it, whose threshold the record meets,
    does not receive the record. *)
Lemma C3_counterexample :
  let r := sample_record "ERROR" 40 None ∅ in
  ~ (forall h,
       h ∈ [full_disk_sink; console_sink] ->
       handle_raises h r = None ->
       level h <= levelno r ->
       (handler_name h, r)
         ∈ delivered
             (SafeQueueListener_handle true [full_disk_sink; console_sink]
                r idle).2).
Proof.
  intros r H.
  specialize (H console_sink).
  assert ((handler_name console_sink, r) ∈ @nil (string * LogRecord)) as Hin.
  { apply H; [right; left | reflexivity | unfold r; simpl; lia]. }
  by apply elem_of_nil in Hin.
Qed.

(** C3, as the code has it.  One [try] surrounds the whole loop over the
    sinks: when the write of one sink raises, the exception is caught and
    printed, the sinks before it in the handler list whose threshold the
    record meets have received the record, the sinks after it receive
    nothing, and the worker goes on with the next queued record. *)
Theorem C3_sink_failure_is_contained respect pre h post r e st q :
  (forall h', h' ∈ pre -> handle_raises h' r = None) ->
  accepts respect r h = true ->
  handle_raises h r = Some e ->
  let st' :=
    {| delivered :=
         delivered st
           ++ map (fun h' => (handler_name h', r))
                (List.filter (accepts respect r) pre);
       printed := printed st ++ [LOGGING_ERROR +:+ str_exn e] |} in
  SafeQueueListener_handle respect (pre ++ h :: post) r st = (Ok tt, st')
  /\ _monitor (SafeQueueListener_handle respect (pre ++ h :: post))
       (Item r :: q) st
     = _monitor (SafeQueueListener_handle respect (pre ++ h :: post)) q st'.
Proof.
  intros Hpre Hacc Hh st'.
  assert (SafeQueueListener_handle respect (pre ++ h :: post) r st
          = (Ok tt, st')) as Hsafe.
  { unfold SafeQueueListener_handle.
    by rewrite (QueueListener_handle_raises _ _ _ _ _ e). }
  split; [done |]. cbn [_monitor]. by rewrite Hsafe.
Qed.

Lemma C3_witness :
  let r := sample_record "ERROR" 40 None ∅ in
  SafeQueueListener_handle true [console_sink; full_disk_sink; console_sink]
    r idle
  = (Ok tt,
     {| delivered := [("console", r)];
        printed :=
          [LOGGING_ERROR +:+ "[Errno 28] No space left on device"] |})
  /\ (_monitor
        (SafeQueueListener_handle true
           [console_sink; full_disk_sink; console_sink])
        [Item r; Sentinel] idle).1 = Stopped.
Proof.
  intros r.
  destruct (C3_sink_failure_is_contained true [console_sink] full_disk_sink
              [console_sink] r
              (Exn OSError "[Errno 28] No space left on device") idle
              [Sentinel]) as [Hhandle Hmonitor].
  - intros h' Hin. apply list_elem_of_In in Hin.
    destruct Hin as [<- | []]. reflexivity.
  - reflexivity.
  - reflexivity.
  - split; [exact Hhandle |].
    change ([console_sink; full_disk_sink; console_sink])
      with ([console_sink] ++ full_disk_sink :: [console_sink]).
    rewrite Hmonitor. reflexivity.
Defined.

(** ** Bootstrap failures (C4) *)

Lemma bind_Raise {A B} (m : M A) (k : A -> M B) p e p' :
  m p = (Raise e, p') -> bind m k p = (Raise e, p').
Proof. unfold bind. by intros ->. Qed.

Lemma bind_Ok {A B} (m : M A) (k : A -> M B) p a p' :
  m p = (Ok a, p') -> bind m k p = k a p'.
Proof. unfold bind. by intros ->. Qed.

Lemma same_root_logger_refl p : same_root_logger p p.
Proof. by repeat split. Qed.

Lemma same_root_logger_trans p1 p2 p3 :
  same_root_logger p1 p2 -> same_root_logger p2 p3 -> same_root_logger p1 p3.
Proof.
  unfold same_root_logger. intros (?&?&?) (?&?&?). repeat split; congruence.
Qed.

Lemma keeps_ret {A} (a : A) : keeps_root_logger (ret a).
Proof. intros p. apply same_root_logger_refl. Qed.

Lemma keeps_bind {A B} (m : M A) (k : A -> M B) :
  keeps_root_logger m -> (forall a, keeps_root_logger (k a)) ->
  keeps_root_logger (bind m k).
Proof.
  intros Hm Hk p. unfold bind. specialize (Hm p).
  destruct (m p) as [[a|e] p1]; simpl in *; [|done].
  by apply (same_root_logger_trans _ p1), Hk.
Qed.

Lemma keeps_do_call faults c effect :
  (forall p, same_root_logger p (effect p)) ->
  keeps_root_logger (do_call faults c effect).
Proof.
  intros He p. unfold do_call.
  destruct (faults c); simpl; [apply same_root_logger_refl | apply He].
Qed.

Lemma keeps_for_each {A} (l : list A) (body : A -> M unit) :
  (forall x, keeps_root_logger (body x)) -> keeps_root_logger (for_each l body).
Proof.
  intros Hb. induction l as [|x l IH]; simpl; [apply keeps_ret |].
  by apply keeps_bind.
Qed.

Lemma keeps_when (b : bool) (m : M unit) :
  keeps_root_logger m -> keeps_root_logger (when b m).
Proof. intros Hm. destruct b; [done | apply keeps_ret]. Qed.

Lemma ensure_directories_keeps faults config :
  keeps_root_logger (ensure_directories faults config).
Proof.
  apply keeps_for_each. intros path. apply keeps_do_call.
  intros p. by repeat split.
Qed.

Lemma ensure_files_keeps faults config :
  keeps_root_logger (ensure_files faults config).
Proof.
  apply keeps_for_each. intros path. apply keeps_bind.
  - intros p. apply keeps_when. apply keeps_do_call.
    intros p'. by repeat split.
  - intros _. apply keeps_do_call. intros p. by repeat split.
Qed.

Lemma build_pipeline_keeps faults config :
  keeps_root_logger (build_pipeline faults config).
Proof.
  unfold build_pipeline.
  repeat (apply keeps_bind;
          [apply keeps_do_call; intros p; by repeat split
          | intros _]).
  apply keeps_do_call. intros p. by repeat split.
Qed.

(** Steps 1 to 4 never touch the root logger. *)
Lemma bootstrap_1_4_keeps faults config :
  keeps_root_logger (bootstrap_1_4 faults config).
Proof.
  unfold bootstrap_1_4.
  apply keeps_bind; [apply ensure_directories_keeps | intros _].
  apply keeps_bind; [apply ensure_files_keeps | intros _].
  apply build_pipeline_keeps.
Qed.

(** Whatever the body raises leaves [configure_logging] as one
    [LoggingConfigurationError] with the cause in its message. *)
Lemma configure_logging_Raise faults w config errors p e p' :
  configure_logging faults w config errors p = (Raise e, p') ->
  exists cause,
    e = Exn LoggingConfigurationError (CONFIGURE_ERROR +:+ str_exn cause).
Proof.
  unfold configure_logging.
  destruct (bind _ _ p) as [[[]|cause] p1]; [discriminate |].
  intros [= <- <-]. eauto.
Qed.

(** C4 as stated fails: when [addHandler] raises on the file handler, the
    handlers installed before the call are gone and the stream handler is
    on the root logger. *)
Lemma C4_counterexample :
  let config := flags true true true true in
  ~ ((configure_logging add_file_handler_fails sample_env config []
        running_process).1
     = Raise (Exn LoggingConfigurationError
                (CONFIGURE_ERROR +:+ "Unexpected failure")) ->
     root_handlers
       (configure_logging add_file_handler_fails sample_env config []
          running_process).2
     = root_handlers running_process).
Proof.
  intros config H. specialize (H eq_refl). discriminate H.
Qed.

(** C4, as the code has it.  An exception raised during steps 1 to 5
    leaves [configure_logging] as one [LoggingConfigurationError] that
    carries the message of the cause; when it was raised during steps 1 to
    4 the root logger has the handlers, level and propagation it had
    before the call. *)
Theorem C4_bootstrap_failure_is_wrapped faults w config errors p cause p' :
  bootstrap_1_5 faults config p = (Raise cause, p') ->
  configure_logging faults w config errors p
  = (Raise (Exn LoggingConfigurationError (CONFIGURE_ERROR +:+ str_exn cause)),
     p')
  /\ ((bootstrap_1_4 faults config p).1 = Raise cause ->
      same_root_logger p p').
Proof.
  intros H. split.
  - unfold configure_logging. by rewrite (bind_Raise _ _ _ _ _ H).
  - intros H4. pose proof (bootstrap_1_4_keeps faults config p) as Hkeep.
    unfold bootstrap_1_5 in H.
    destruct (bootstrap_1_4 faults config p) as [r4 p4] eqn:E4.
    simpl in H4. subst r4.
    rewrite (bind_Raise _ _ _ _ _ E4) in H. by injection H as <-.
Qed.

Lemma C4_witness :
  let config := flags true true true true in
  configure_logging makedirs_denied sample_env config [] running_process
  = (Raise (Exn LoggingConfigurationError
              (CONFIGURE_ERROR +:+ "Directory creation failed")),
     running_process)
  /\ same_root_logger running_process running_process.
Proof.
  intros config.
  destruct (C4_bootstrap_failure_is_wrapped makedirs_denied sample_env config []
              running_process
              (Exn PermissionError "Directory creation failed")
              running_process eq_refl) as [Hwrap Hroot].
  split; [exact Hwrap | apply Hroot; reflexivity].
Defined.

(** * Further properties *)

(** ** The fields of an emitted record *)

Ltac not_in_keys :=
  unfold enrichment_keys, written_fields, excluded_fields, enrichment_fields,
    request_fields, trace_fields; simpl; rewrite !not_elem_of_cons;
  repeat split; try string_neq; apply not_elem_of_nil.

(** What [format] hands to [json.dumps] is, outside the keys written after
    the base class, what the base class returned. *)
Lemma format_record_base w config r sr k :
  format_record w config r = Ok sr ->
  k ∉ enrichment_keys ->
  exists message,
    getMessage w r = Ok message
    /\ sr !! k
       = base_json_record w message (_extract_extra_fields r) r !! k.
Proof.
  intros Hsr. unfold enrichment_keys, enrichment_fields, request_fields,
    trace_fields. simpl. rewrite !not_elem_of_cons.
  intros (?&?&?&?&?&?&?&?&?&?&?&?&?&?&?&?&?&?&_).
  apply format_record_inv in Hsr as (m & rec & d1 & Hmsg & Hj & Hm1 & ->).
  exists m. split; [done |].
  rewrite format_stack_trace_other by done.
  rewrite (add_memory_usage_other _ _ _ _ _ Hm1) by done.
  rewrite add_execution_time_other by done.
  unfold update_context. rewrite !lookup_insert_ne by done.
  rewrite time_isoformat_other by done. rewrite !lookup_insert_ne by done.
  apply json_record_inv in Hj as (d2 & Hm2 & ->).
  rewrite json_record_stack_trace_other by done.
  rewrite (add_memory_usage_other _ _ _ _ _ Hm2) by done.
  rewrite add_execution_time_other by done.
  unfold add_context. rewrite !lookup_insert_ne by done.
  by rewrite add_trace_fields_other, add_request_metadata_other
    by (unfold request_fields, trace_fields; rewrite !not_elem_of_cons;
        repeat split; try done; apply not_elem_of_nil).
Qed.

Lemma extract_lookup r k :
  _extract_extra_fields r !! k
  = if bool_decide (k ∈ excluded_fields) then None else record_dict r !! k.
Proof.
  unfold _extract_extra_fields. rewrite map_lookup_filter.
  destruct (record_dict r !! k) as [v|]; simpl.
  - case_bool_decide.
    + by rewrite option_guard_False by (simpl; tauto).
    + by rewrite option_guard_True.
  - by case_bool_decide.
Qed.

(** A caller's own metadata key reaches the emitted record with the
    caller's value, as long as it is none of the keys the formatter writes
    and none of the attributes a log record has anyway. *)
Theorem format_passes_metadata_through w config r out k :
  format w config r = Ok out ->
  k ∉ written_fields -> k ∉ excluded_fields -> init_attrs r !! k = None ->
  out !! k = extra_attrs r !! k ≫= to_json.
Proof.
  intros H Hw Hex Hinit.
  apply (format_lookup _ _ _ _ k) in H as (sr & Hsr & ->).
  rewrite (format_record_passthrough _ _ _ _ _ Hsr Hw), extract_lookup.
  rewrite bool_decide_eq_false_2 by done.
  unfold record_dict. by rewrite lookup_union, Hinit, (left_id None _).
Qed.

Lemma format_passes_metadata_through_witness :
  exists out,
    format sample_env (flags true true true true)
      (sample_record "INFO" 20 None {[ "custom_field" := PStr "test_value" ]})
    = Ok out
    /\ out !! "custom_field" = Some (JStr "test_value").
Proof.
  destruct (sample_format_Ok (flags true true true true) "INFO" 20 None
              {[ "custom_field" := PStr "test_value" ]}) as (out & Hout).
  { apply encodable_singleton. reflexivity. }
  exists out. split; [exact Hout |].
  rewrite (format_passes_metadata_through sample_env
             (flags true true true true)
             (sample_record "INFO" 20 None
                {[ "custom_field" := PStr "test_value" ]}) out "custom_field"
             Hout);
    [ | not_in_keys | not_in_keys | reflexivity ].
  simpl. rewrite lookup_singleton_eq. reflexivity.
Defined.

(** The raw attributes [_extract_extra_fields] drops are never emitted, and
    [exc_info] is emitted, as the text of [formatException], exactly when
    an exception is attached. *)
Theorem format_drops_raw_attributes w config r out :
  format w config r = Ok out ->
  (forall k, k ∈ excluded_fields -> k <> "exc_info" -> out !! k = None)
  /\ out !! "exc_info"
     = (fun ei => JStr (formatException w ei)) <$> exc_info r.
Proof.
  intros H. split.
  - intros k Hk Hne.
    destruct (format_lookup _ _ _ _ k H) as (sr & Hsr & ->).
    rewrite (format_record_passthrough _ _ _ _ _ Hsr), extract_lookup.
    + by rewrite bool_decide_eq_true_2.
    + revert Hk Hne. unfold excluded_fields. rewrite !elem_of_cons, elem_of_nil.
      intros Hk Hne.
      repeat (destruct Hk as [-> | Hk]; [first [done | not_in_keys] |]).
      destruct Hk.
  - apply (format_lookup _ _ _ _ "exc_info") in H as (sr & Hsr & ->).
    destruct (format_record_base _ _ _ _ "exc_info" Hsr) as (m & _ & ->);
      [not_in_keys |].
    unfold base_json_record.
    destruct (exc_info r) as [ei|].
    + rewrite lookup_insert_eq. reflexivity.
    + assert (forall d : dict, d !! "exc_info" = None ->
                match <["message":=PStr m]> d !! "time" with
                | Some _ => <["message":=PStr m]> d
                | None => <["time":=PDatetime (utcnow w)]>
                            (<["message":=PStr m]> d)
                end !! "exc_info" = None) as Haux.
      { intros d Hd. destruct (_ !! "time");
          by rewrite ?lookup_insert_ne by done. }
      rewrite Haux; [reflexivity |]. rewrite extract_lookup.
      rewrite bool_decide_eq_true_2; [reflexivity |].
      apply list_elem_of_In; simpl; auto 10.
Qed.

Lemma format_drops_raw_attributes_witness :
  exists out,
    format sample_env (flags true true true true)
      (sample_record "ERROR" 40 (Some sample_exc) ∅) = Ok out
    /\ out !! "msg" = None
    /\ out !! "exc_info" = Some (JStr "ValueError: Test error").
Proof.
  destruct (sample_format_Ok (flags true true true true) "ERROR" 40
              (Some sample_exc) ∅ encodable_empty) as (out & Hout).
  exists out. split; [exact Hout |].
  destruct (format_drops_raw_attributes sample_env (flags true true true true)
              (sample_record "ERROR" 40 (Some sample_exc) ∅) out Hout)
    as [Hraw Hexc].
  split.
  - apply Hraw; [apply list_elem_of_In; simpl; auto | string_neq].
  - rewrite Hexc. reflexivity.
Defined.

Lemma format_record_context w config r sr :
  format_record w config r = Ok sr ->
  sr !! "levelname" = Some (PStr (levelname r))
  /\ sr !! "timestamp" = Some (PStr (iso_timestamp w r))
  /\ sr !! "module" = Some (PStr (module r))
  /\ sr !! "function" = Some (PStr (funcName r))
  /\ sr !! "line" = Some (PInt (lineno r))
  /\ sr !! "process" = Some (PInt (process r))
  /\ sr !! "thread" = Some (PInt (thread r))
  /\ sr !! "hostname" = Some (PStr (gethostname w))
  /\ sr !! "environment" = Some (PStr (getenv_ENVIRONMENT w)).
Proof.
  intros Hsr.
  apply format_record_inv in Hsr as (m & rec & d1 & _ & _ & Hm1 & ->).
  repeat split;
    rewrite format_stack_trace_other by done;
    rewrite (add_memory_usage_other _ _ _ _ _ Hm1) by done;
    rewrite add_execution_time_other by done;
    unfold update_context; lookup_insert_simpl; try done;
    rewrite time_isoformat_other by done; by lookup_insert_simpl.
Qed.

Lemma base_json_record_message w message extra r :
  base_json_record w message extra r !! "message" = Some (PStr message).
Proof.
  unfold base_json_record.
  destruct (exc_info r); destruct (_ !! "time"); by lookup_insert_simpl.
Qed.

(** Every emitted record names its level, time stamp, message, source
    location, process, thread, host and environment, taken from the record
    and the process; no metadata of the caller can replace them. *)
Theorem format_fixed_fields w config r out :
  format w config r = Ok out ->
  (exists message,
     getMessage w r = Ok message /\ out !! "message" = Some (JStr message))
  /\ out !! "levelname" = Some (JStr (levelname r))
  /\ out !! "timestamp" = Some (JStr (iso_timestamp w r))
  /\ out !! "module" = Some (JStr (module r))
  /\ out !! "function" = Some (JStr (funcName r))
  /\ out !! "line" = Some (JInt (lineno r))
  /\ out !! "process" = Some (JInt (process r))
  /\ out !! "thread" = Some (JInt (thread r))
  /\ out !! "hostname" = Some (JStr (gethostname w))
  /\ out !! "environment" = Some (JStr (getenv_ENVIRONMENT w)).
Proof.
  intros H. apply format_inv in H as (sr & Hsr & Hd).
  pose proof (format_record_context _ _ _ _ Hsr)
    as (H1 & H2 & H3 & H4 & H5 & H6 & H7 & H8 & H9).
  split.
  - destruct (format_record_base _ _ _ _ "message" Hsr) as (m & Hm & Hlk);
      [not_in_keys |].
    exists m. split; [done |].
    by rewrite (json_dumps_lookup _ _ _ Hd), Hlk, base_json_record_message.
  - rewrite !(json_dumps_lookup _ _ _ Hd), H1, H2, H3, H4, H5, H6, H7, H8, H9.
    by repeat split.
Qed.

Lemma format_fixed_fields_witness :
  exists out,
    format sample_env (flags false false false false)
      (sample_record "WARNING" 30 None {[ "hostname" := PStr "spoofed" ]})
    = Ok out
    /\ out !! "hostname" = Some (JStr "health-1")
    /\ out !! "environment" = Some (JStr "development")
    /\ out !! "levelname" = Some (JStr "WARNING")
    /\ out !! "line" = Some (JInt 10).
Proof.
  destruct (sample_format_Ok (flags false false false false) "WARNING" 30 None
              {[ "hostname" := PStr "spoofed" ]}) as (out & Hout).
  { apply encodable_singleton. reflexivity. }
  exists out. split; [exact Hout |].
  destruct (format_fixed_fields sample_env (flags false false false false)
              (sample_record "WARNING" 30 None
                 {[ "hostname" := PStr "spoofed" ]}) out Hout)
    as (_ & Hlvl & _ & _ & _ & Hline & _ & _ & Hhost & Henv).
  repeat split; [exact Hhost | exact Henv | exact Hlvl | exact Hline].
Defined.

Lemma time_isoformat_time d :
  time_isoformat d !! "time"
  = match d !! "time" with
    | Some (PDatetime iso) => Some (PStr iso)
    | o => o
    end.
Proof.
  unfold time_isoformat. destruct (d !! "time") as [[]|] eqn:E; try done.
  by rewrite lookup_insert_eq.
Qed.

Lemma base_json_record_time w message extra r :
  base_json_record w message extra r !! "time"
  = Some (default (PDatetime (utcnow w)) (extra !! "time")).
Proof.
  unfold base_json_record. cbv zeta.
  assert (<["message":=PStr message]> extra !! "time" = extra !! "time") as Ht
    by (by rewrite lookup_insert_ne).
  rewrite Ht.
  destruct (exc_info r); rewrite ?lookup_insert_ne by done;
    destruct (extra !! "time") eqn:E;
    by rewrite ?lookup_insert_eq, ?lookup_insert_ne, ?E by done.
Qed.

Lemma json_record_time w config r message d rec :
  json_record w config r message (ExtraDict d) = Ok rec ->
  rec !! "time"
  = Some match d !! "time" with
         | Some (PDatetime iso) => PStr iso
         | Some v => v
         | None => PStr (utcnow w)
         end.
Proof.
  intros H. apply json_record_inv in H as (d1 & H1 & ->).
  rewrite json_record_stack_trace_other by done.
  rewrite (add_memory_usage_other _ _ _ _ _ H1) by done.
  rewrite add_execution_time_other by done.
  unfold add_context. rewrite lookup_insert_eq. lookup_insert_simpl.
  rewrite add_trace_fields_other, add_request_metadata_other
    by (unfold request_fields, trace_fields; rewrite !not_elem_of_cons;
        repeat split; try done; apply not_elem_of_nil).
  rewrite base_json_record_time. by destruct (d !! "time") as [[]|].
Qed.

(** The field [time] of an emitted record is the caller's, when the
    metadata has one, and the clock's otherwise, and never a [datetime]
    object: line 126 has turned it into its [isoformat]. *)
Theorem format_time_field w config r out :
  format w config r = Ok out ->
  out !! "time" = to_json (emitted_time w r)
  /\ forall iso, emitted_time w r <> PDatetime iso.
Proof.
  intros H. split.
  - apply (format_lookup _ _ _ _ "time") in H as (sr & Hsr & ->).
    apply format_record_inv in Hsr as (m & rec & d1 & _ & Hj & Hm1 & ->).
    rewrite format_stack_trace_other by done.
    rewrite (add_memory_usage_other _ _ _ _ _ Hm1) by done.
    rewrite add_execution_time_other by done.
    unfold update_context. rewrite !lookup_insert_ne by done.
    rewrite time_isoformat_time. rewrite !lookup_insert_ne by done.
    rewrite (json_record_time _ _ _ _ _ _ Hj), extract_lookup.
    rewrite bool_decide_eq_false_2 by not_in_keys.
    unfold record_dict.
    rewrite lookup_union, (left_id None _ (extra_attrs r !! "time"))
      by reflexivity.
    unfold emitted_time. by destruct (extra_attrs r !! "time") as [[]|].
  - intros iso. unfold emitted_time.
    by destruct (extra_attrs r !! "time") as [[]|].
Qed.

Lemma format_time_field_witness :
  exists out,
    format sample_env (flags true true true true)
      (sample_record "INFO" 20 None ∅) = Ok out
    /\ out !! "time" = Some (JStr "2025-03-01T12:00:00.000250").
Proof.
  destruct (sample_format_Ok (flags true true true true) "INFO" 20 None ∅
              encodable_empty) as (out & Hout).
  exists out. split; [exact Hout |].
  destruct (format_time_field sample_env (flags true true true true)
              (sample_record "INFO" 20 None ∅) out Hout) as [Htime _].
  rewrite Htime. unfold emitted_time. cbn [extra_attrs sample_record].
  rewrite lookup_empty. reflexivity.
Defined.

(** ** The time stamp *)

Lemma fmt_03d_below_1000 :
  forallb
    (fun n =>
       Nat.eqb (String.length (fmt_03d n)) 3
       && forallb is_digit (String.list_ascii_of_string (fmt_03d n))
       && (decimal_value (fmt_03d n) =? n))
    (seqZ 0 1000) = true.
Proof. vm_compute. reflexivity. Qed.

(** The millisecond part of the time stamp is three decimal digits that
    denote [int(record.msecs)], so the time stamp is the second-resolution
    text, a dot, those three digits and [Z]. *)
Theorem iso_timestamp_milliseconds w r :
  0 <= msecs r < 1000 ->
  exists ms,
    iso_timestamp w r = strftime_gmtime w (created r) +:+ "." +:+ ms +:+ "Z"
    /\ String.length ms = 3%nat
    /\ forallb is_digit (String.list_ascii_of_string ms) = true
    /\ decimal_value ms = msecs r.
Proof.
  intros Hms. exists (fmt_03d (msecs r)). split; [reflexivity |].
  pose proof fmt_03d_below_1000 as Hall.
  rewrite forallb_forall in Hall.
  specialize (Hall (msecs r)).
  rewrite <- list_elem_of_In, elem_of_seqZ in Hall.
  specialize (Hall ltac:(lia)).
  apply andb_prop in Hall as [Hall Hval]. apply andb_prop in Hall as [Hlen Hdig].
  repeat split; [by apply Nat.eqb_eq | done | by apply Z.eqb_eq].
Qed.

Lemma iso_timestamp_milliseconds_witness :
  iso_timestamp sample_env (sample_record "INFO" 20 None ∅)
  = "2025-03-01T12:00:00.007Z".
Proof.
  destruct (iso_timestamp_milliseconds sample_env
              (sample_record "INFO" 20 None ∅)) as (ms & Hts & _).
  - simpl. lia.
  - reflexivity.
Defined.

(** ** [json_record] on its own *)

(** With request metadata on, [json_record] takes [request_id], [user_id]
    and [feed_type] from the attribute of the log record, else from the
    key of the dictionary [extra], else as "UNKNOWN". *)
Theorem json_record_request_precedence w config r message d rec k :
  enable_request_metadata config = true ->
  k ∈ request_fields ->
  json_record w config r message (ExtraDict d) = Ok rec ->
  rec !! k
  = Some match extra_attrs r !! k with
         | Some v => v
         | None => default UNKNOWN (d !! k)
         end.
Proof.
  intros Hflag Hk H.
  rewrite (json_record_request _ _ _ _ _ _ _ H Hk), Hflag.
  by destruct (extra_attrs r !! k).
Qed.

Lemma json_record_request_precedence_witness :
  exists rec,
    json_record sample_env (flags false false true false)
      (sample_record "INFO" 20 None {[ "user_id" := PStr "67890" ]})
      "Test log message"
      (ExtraDict {[ "user_id" := PStr "shadowed" ]}) = Ok rec
    /\ rec !! "user_id" = Some (PStr "67890").
Proof.
  destruct (json_record_Ok sample_env (flags false false true false)
              (sample_record "INFO" 20 None {[ "user_id" := PStr "67890" ]})
              "Test log message"
              (ExtraDict {[ "user_id" := PStr "shadowed" ]})) as (rec & Hrec).
  { intros Hoff. discriminate Hoff. }
  exists rec. split; [exact Hrec |].
  rewrite (json_record_request_precedence sample_env
             (flags false false true false)
             (sample_record "INFO" 20 None {[ "user_id" := PStr "67890" ]})
             "Test log message" {[ "user_id" := PStr "shadowed" ]} rec
             "user_id" eq_refl);
    [ | apply list_elem_of_In; simpl; auto | exact Hrec ].
  cbn [extra_attrs sample_record]. rewrite lookup_singleton_eq. reflexivity.
Defined.

(** For an ERROR or CRITICAL record with an exception attached,
    [json_record] renders the exception when it has a traceback; without a
    traceback it makes the two-argument call of [format_exception] and, if
    that call raises, stores the error text instead of letting the
    exception out. *)
Theorem json_record_error_stack_trace w config r message extra rec ei :
  levelname r = "ERROR" \/ levelname r = "CRITICAL" ->
  exc_info r = Some ei ->
  json_record w config r message extra = Ok rec ->
  rec !! "stack_trace"
  = Some (PStr match exc_traceback ei with
               | Some _ => format_exception w ei
               | None =>
                   match format_exception_no_tb w (exc_type ei) (exc_value ei)
                   with
                   | Ok s => s
                   | Raise e => STACK_TRACE_ERROR +:+ str_exn e
                   end
               end).
Proof.
  intros Hlvl Hexc H. apply is_error_level_spec in Hlvl.
  assert (exists d, json_record w config r message (ExtraDict d) = Ok rec)
    as (d & Hd) by (destruct extra; eauto).
  apply json_record_stack_trace_base in Hd as (d1 & -> & _).
  unfold json_record_stack_trace. rewrite Hexc, Hlvl.
  destruct (exc_traceback ei); [by rewrite lookup_insert_eq |].
  destruct (format_exception_no_tb w _ _); by rewrite lookup_insert_eq.
Qed.

Lemma json_record_error_stack_trace_witness :
  exists rec,
    json_record sample_env (flags false false false false)
      (sample_record "ERROR" 40 (Some (ExcInfo "ValueError" "boom" None)) ∅)
      "Test log message" (ExtraDict ∅) = Ok rec
    /\ rec !! "stack_trace"
       = Some (PStr (STACK_TRACE_ERROR
                       +:+ "Both or neither of value and tb must be given")).
Proof.
  destruct (json_record_Ok sample_env (flags false false false false)
              (sample_record "ERROR" 40
                 (Some (ExcInfo "ValueError" "boom" None)) ∅)
              "Test log message" (ExtraDict ∅)) as (rec & Hrec).
  { intros Hoff. discriminate Hoff. }
  exists rec. split; [exact Hrec |].
  apply (json_record_error_stack_trace sample_env
           (flags false false false false)
           (sample_record "ERROR" 40
              (Some (ExcInfo "ValueError" "boom" None)) ∅)
           "Test log message" (ExtraDict ∅) rec
           (ExcInfo "ValueError" "boom" None));
    [left; reflexivity | reflexivity | exact Hrec].
Defined.

(** ** The memory probe, further *)

Lemma round_half_even_mono num1 num2 den :
  0 < den -> num1 <= num2 ->
  round_half_even num1 den <= round_half_even num2 den.
Proof.
  intros Hden Hle. unfold round_half_even.
  pose proof (Z.div_mod num1 den ltac:(lia)) as Hdm1.
  pose proof (Z.div_mod num2 den ltac:(lia)) as Hdm2.
  pose proof (Z.mod_pos_bound num1 den Hden) as Hr1.
  pose proof (Z.mod_pos_bound num2 den Hden) as Hr2.
  pose proof (Z.div_le_mono num1 num2 den Hden Hle) as Hq.
  set (q1 := num1 `div` den) in *. set (q2 := num2 `div` den) in *.
  set (r1 := num1 `mod` den) in *. set (r2 := num2 `mod` den) in *.
  destruct (decide (q1 = q2)) as [Heq | Hne].
  - rewrite Heq in *. assert (r1 <= r2) by nia.
    destruct (2 * r1 <? den) eqn:E1, (den <? 2 * r1) eqn:E2,
      (2 * r2 <? den) eqn:E3, (den <? 2 * r2) eqn:E4, (Z.even q2);
      rewrite ?Z.ltb_lt, ?Z.ltb_ge in *; lia.
  - assert (q1 + 1 <= q2) by lia.
    destruct (2 * r1 <? den), (den <? 2 * r1), (2 * r2 <? den),
      (den <? 2 * r2), (Z.even q1), (Z.even q2); lia.
Qed.

Lemma round_half_even_exact n den :
  0 < den -> round_half_even (n * den) den = n.
Proof.
  intros Hden. unfold round_half_even.
  rewrite Z.div_mul, Z.mod_mul by lia.
  by rewrite (proj2 (Z.ltb_lt _ _)) by lia.
Qed.

(** The reported memory never decreases when the resident size grows, is
    never negative, and is exact on whole megabytes. *)
Theorem round_mb_2_monotone rss1 rss2 :
  0 <= rss1 <= rss2 ->
  0 <= round_mb_2 rss1 <= round_mb_2 rss2
  /\ forall n, round_mb_2 (n * (1024 * 1024)) = 100 * n.
Proof.
  intros [H0 Hle]. unfold round_mb_2. repeat split.
  - change 0 with (round_half_even (0 * (1024 * 1024)) (1024 * 1024)).
    apply round_half_even_mono; lia.
  - apply round_half_even_mono; lia.
  - intros n.
    replace (n * (1024 * 1024) * 100) with (100 * n * (1024 * 1024)) by lia.
    apply round_half_even_exact. lia.
Qed.

Lemma round_mb_2_monotone_witness :
  0 <= round_mb_2 52428800 <= round_mb_2 52500000
  /\ round_mb_2 (50 * (1024 * 1024)) = 5000.
Proof.
  destruct (round_mb_2_monotone 52428800 52500000 ltac:(lia)) as [Hmono Hexact].
  split; [exact Hmono | apply (Hexact 50)].
Defined.

(** An exception of [psutil] that [get_memory_usage] does not catch leaves
    [json_record] and [format] as it is, when memory logging is on: no
    record is produced. *)
Theorem uncaught_probe_exception_aborts_record w config r message e :
  psutil_probe w = PsutilRaises e ->
  probe_except (exn_cls e) = false ->
  enable_memory_logging config = true ->
  getMessage w r = Ok message ->
  (forall extra, json_record w config r message extra = Raise e)
  /\ format w config r = Raise e.
Proof.
  intros Hp Hc Hflag Hmsg.
  assert (forall extra, json_record w config r message extra = Raise e) as Hj.
  { intros extra. unfold json_record, add_memory_usage.
    by rewrite Hflag, (get_memory_usage_propagates _ _ Hp Hc). }
  split; [done |].
  unfold format, format_record. by rewrite Hmsg; simpl; rewrite Hj.
Qed.

Lemma uncaught_probe_exception_aborts_record_witness :
  format broken_env (flags true false false false)
    (sample_record "INFO" 20 None ∅)
  = Raise (Exn OSError "[Errno 5] Input/output error").
Proof.
  destruct (uncaught_probe_exception_aborts_record broken_env
              (flags true false false false)
              (sample_record "INFO" 20 None ∅) "Test log message"
              (Exn OSError "[Errno 5] Input/output error")
              eq_refl eq_refl eq_refl eq_refl) as [_ Hfmt].
  exact Hfmt.
Defined.

(** ** The dispatch loop, further *)

(** One call of [QueueListener.handle] hands the record only to handlers of
    the listener that accept it and do not raise on it, and prints
    nothing. *)
Lemma QueueListener_handle_delivers respect hs r st :
  exists new,
    delivered (QueueListener_handle respect hs r st).2 = delivered st ++ new
    /\ printed (QueueListener_handle respect hs r st).2 = printed st
    /\ Forall (fun d =>
                 d.2 = r
                 /\ exists h, h ∈ hs /\ d.1 = handler_name h
                              /\ accepts respect r h = true
                              /\ handle_raises h r = None) new.
Proof.
  revert st. induction hs as [|h hs IH]; intros st.
  - exists []. simpl. by rewrite app_nil_r.
  - cbn [QueueListener_handle]. fold (accepts respect r h).
    destruct (accepts respect r h) eqn:Hacc.
    + destruct (handle_raises h r) as [e|] eqn:Hh.
      * exists []. simpl. by rewrite app_nil_r.
      * destruct (IH (deliver h r st)) as (new & Hd & Hp & Hall).
        exists ((handler_name h, r) :: new). split; [|split].
        -- rewrite Hd. simpl. by rewrite <- app_assoc.
        -- by rewrite Hp.
        -- constructor.
           ++ split; [done |]. exists h. repeat split; [left | done | done].
           ++ eapply Forall_impl; [exact Hall |].
              intros d (Hr & h' & Hin & Hrest). split; [done |].
              exists h'. split; [by right | done].
    + destruct (IH st) as (new & Hd & Hp & Hall).
      exists new. split; [done | split; [done |]].
      eapply Forall_impl; [exact Hall |].
      intros d (Hr & h' & Hin & Hrest). split; [done |].
      exists h'. split; [by right | done].
Qed.

Lemma SafeQueueListener_handle_delivers respect hs r st :
  exists new,
    (SafeQueueListener_handle respect hs r st).1 = Ok tt
    /\ delivered (SafeQueueListener_handle respect hs r st).2
       = delivered st ++ new
    /\ (length (printed (SafeQueueListener_handle respect hs r st).2)
        <= S (length (printed st)))%nat
    /\ Forall (fun d =>
                 d.2 = r
                 /\ exists h, h ∈ hs /\ d.1 = handler_name h
                              /\ accepts respect r h = true
                              /\ handle_raises h r = None) new.
Proof.
  destruct (QueueListener_handle_delivers respect hs r st)
    as (new & Hd & Hp & Hall).
  exists new. unfold SafeQueueListener_handle.
  destruct (QueueListener_handle respect hs r st) as [[[]|e] st'];
    simpl in *; rewrite ?length_app, Hd, Hp; simpl; repeat split; try done; lia.
Qed.

(** The worker of a [SafeQueueListener] never leaves its loop by an
    exception.  A sink receives a record only if the record was queued
    before the sentinel, meets the sink's threshold (the listener is built
    with [respect_handler_level=True]) and the sink's write did not raise;
    at most one line is printed per record. *)
Theorem safe_worker_delivers_only_accepted_records hs q st :
  let run := _monitor (SafeQueueListener_handle true hs) q st in
  (forall e, run.1 <> Crashed e)
  /\ exists new,
       delivered run.2 = delivered st ++ new
       /\ (length (printed run.2)
           <= length (printed st) + length (before_sentinel q))%nat
       /\ Forall (fun d =>
                    d.2 ∈ before_sentinel q
                    /\ exists h, h ∈ hs /\ d.1 = handler_name h
                                 /\ level h <= levelno d.2
                                 /\ handle_raises h d.2 = None) new.
Proof.
  revert st. induction q as [|[|r] q IH]; intros st; cbn [_monitor before_sentinel].
  - split; [done |]. exists []. simpl. rewrite app_nil_r.
    repeat split; [lia | constructor].
  - split; [done |]. exists []. simpl. rewrite app_nil_r.
    repeat split; [lia | constructor].
  - destruct (SafeQueueListener_handle_delivers true hs r st)
      as (new1 & Hok & Hd1 & Hp1 & Hall1).
    destruct (SafeQueueListener_handle true hs r st) as [res st1].
    simpl in Hok, Hd1, Hp1. subst res.
    destruct (IH st1) as (Hcrash & new2 & Hd2 & Hp2 & Hall2).
    split; [exact Hcrash |].
    exists (new1 ++ new2). split; [|split].
    + by rewrite Hd2, Hd1, <- app_assoc.
    + simpl. lia.
    + apply Forall_app. split.
      * eapply Forall_impl; [exact Hall1 |].
        intros d (-> & h & Hin & Hname & Hacc & Hraise).
        split; [left |]. exists h. repeat split; try done.
        unfold accepts in Hacc. simpl in Hacc. lia.
      * eapply Forall_impl; [exact Hall2 |].
        intros d (Hin & Hrest). split; [by right | done].
Qed.

(** While no sink raises, every sink receives the records queued before the
    sentinel that meet its threshold, record by record in the order of the
    queue and, for one record, in the order of the handler list; nothing is
    printed. *)
Theorem healthy_worker_delivers_in_queue_order respect hs q st :
  (forall r h, r ∈ before_sentinel q -> h ∈ hs -> handle_raises h r = None) ->
  (_monitor (SafeQueueListener_handle respect hs) q st).2
  = {| delivered :=
         delivered st
           ++ flat_map
                (fun r =>
                   map (fun h => (handler_name h, r))
                     (List.filter (accepts respect r) hs))
                (before_sentinel q);
       printed := printed st |}.
Proof.
  revert st. induction q as [|[|r] q IH]; intros st Hhealthy;
    cbn [_monitor before_sentinel flat_map].
  - rewrite app_nil_r. by destruct st.
  - rewrite app_nil_r. by destruct st.
  - unfold SafeQueueListener_handle at 1.
    rewrite QueueListener_handle_Ok
      by (intros h Hh; apply Hhealthy; [left | done]).
    rewrite IH by (intros r' h Hr' Hh; apply Hhealthy; [by right | done]).
    simpl. by rewrite <- app_assoc.
Qed.

Lemma healthy_worker_delivers_in_queue_order_witness :
  let r1 := sample_record "ERROR" 40 None ∅ in
  let r2 := sample_record "INFO" 20 None ∅ in
  delivered
    (_monitor (SafeQueueListener_handle true [console_sink])
       [Item r1; Item r2; Item r1; Sentinel; Item r1] idle).2
  = [("console", r1); ("console", r1)].
Proof.
  intros r1 r2.
  rewrite (healthy_worker_delivers_in_queue_order true [console_sink]
             [Item r1; Item r2; Item r1; Sentinel; Item r1] idle).
  - reflexivity.
  - intros r h _ Hh. apply list_elem_of_In in Hh.
    destruct Hh as [<- | []]. reflexivity.
Defined.

Lemma safe_worker_delivers_only_accepted_records_witness :
  let r := sample_record "ERROR" 40 None ∅ in
  (_monitor (SafeQueueListener_handle true [full_disk_sink; console_sink])
     [Item r; Item r] idle).1 = Waiting.
Proof.
  intros r.
  destruct (safe_worker_delivers_only_accepted_records
              [full_disk_sink; console_sink] [Item r; Item r] idle)
    as [Hcrash _].
  destruct (_monitor _ _ _).1 as [| |e] eqn:E;
    [reflexivity | discriminate E | destruct (Hcrash e eq_refl)].
Defined.

(** ** The bootstrap, further *)

Lemma preserves_ret {A B} (f : Process -> B) (a : A) : preserves f (ret a).
Proof. by intros p. Qed.

Lemma preserves_bind {A B C} (f : Process -> C) (m : M A) (k : A -> M B) :
  preserves f m -> (forall a, preserves f (k a)) -> preserves f (bind m k).
Proof.
  intros Hm Hk p. unfold bind. specialize (Hm p).
  destruct (m p) as [[a|e] p1]; simpl in *; [|done].
  by rewrite Hk.
Qed.

Lemma preserves_do_call {B} (f : Process -> B) faults c effect :
  (forall p, f (effect p) = f p) -> preserves f (do_call faults c effect).
Proof. intros He p. unfold do_call. by destruct (faults c); simpl. Qed.

Lemma preserves_for_each {A B} (f : Process -> B) (l : list A)
    (body : A -> M unit) :
  (forall x, preserves f (body x)) -> preserves f (for_each l body).
Proof.
  intros Hb. induction l as [|x l IH]; simpl; [apply preserves_ret |].
  by apply preserves_bind.
Qed.

Lemma preserves_when {B} (f : Process -> B) (b : bool) (m : M unit) :
  preserves f m -> preserves f (when b m).
Proof. intros Hm. destruct b; [done | apply preserves_ret]. Qed.

(** A computation chosen by looking at the process. *)
Lemma preserves_dep {A B} (f : Process -> B) (g : Process -> M A) :
  (forall q, preserves f (g q)) -> preserves f (fun p => g p p).
Proof. intros Hg p. apply Hg. Qed.

Lemma returns_ret : returns (ret tt).
Proof. by intros p. Qed.

Lemma returns_bind (m : M unit) (k : unit -> M unit) :
  returns m -> returns (k tt) -> returns (bind m k).
Proof.
  intros Hm Hk p. unfold bind. specialize (Hm p).
  destruct (m p) as [[[]|e] p1]; simpl in *; [apply Hk | done].
Qed.

Lemma returns_do_call faults c effect :
  no_faults faults -> returns (do_call faults c effect).
Proof. intros Hno p. unfold do_call. by rewrite Hno. Qed.

Lemma returns_for_each {A} (l : list A) (body : A -> M unit) :
  (forall x, returns (body x)) -> returns (for_each l body).
Proof.
  intros Hb. induction l as [|x l IH]; simpl; [apply returns_ret |].
  by apply returns_bind.
Qed.

Lemma returns_when (b : bool) (m : M unit) : returns m -> returns (when b m).
Proof. intros Hm. destruct b; [done | apply returns_ret]. Qed.

Lemma returns_dep (g : Process -> M unit) :
  (forall q, returns (g q)) -> returns (fun p => g p p).
Proof. intros Hg p. apply Hg. Qed.

(** The state after [m ;;; k] when [m] returns. *)
Lemma bind_returns (m : M unit) (k : unit -> M unit) p :
  (m p).1 = Ok tt -> bind m k p = k tt (m p).2.
Proof. unfold bind. destruct (m p) as [[[]|e] p1]; simpl; by intros. Qed.

Ltac solve_preserves :=
  repeat first
    [ apply preserves_ret
    | apply preserves_bind; [| intros ?]
    | apply preserves_for_each; intros ?
    | apply preserves_when
    | apply preserves_do_call; intros ?; reflexivity
    | apply (preserves_dep _ (fun q => when _ (do_call _ _ _))); intros ? ].

Ltac solve_returns Hno :=
  repeat first
    [ apply returns_ret
    | apply returns_bind
    | apply returns_for_each; intros ?
    | apply returns_when
    | apply (returns_do_call _ _ _ Hno)
    | apply (returns_dep (fun q => when _ (do_call _ _ _))); intros ? ].

Lemma bootstrap_1_4_returns faults config :
  no_faults faults -> returns (bootstrap_1_4 faults config).
Proof.
  intros Hno.
  unfold bootstrap_1_4, ensure_directories, ensure_files, build_pipeline.
  solve_returns Hno.
Qed.

Lemma install_handlers_returns faults config :
  no_faults faults -> returns (install_handlers faults config).
Proof. intros Hno. unfold install_handlers. solve_returns Hno. Qed.

Lemma bootstrap_1_5_returns faults config :
  no_faults faults -> returns (bootstrap_1_5 faults config).
Proof.
  intros Hno. unfold bootstrap_1_5.
  apply returns_bind;
    [by apply bootstrap_1_4_returns | by apply install_handlers_returns].
Qed.

(** The root logger after the installation of lines 94-103, whatever it
    held before. *)
Lemma install_handlers_root faults config p :
  no_faults faults ->
  let p' := (install_handlers faults config p).2 in
  root_handlers p'
  = [stream_handler config; file_handler config; queue_handler config]
  /\ root_level p' = log_level config
  /\ root_propagate p' = false.
Proof.
  intros Hno. unfold install_handlers, bind, do_call, when, ret.
  destruct (bool_decide (root_handlers p = [])) eqn:E; simpl;
    rewrite !Hno; simpl.
  - apply bool_decide_eq_true in E. by rewrite E.
  - done.
Qed.

Lemma after_install_preserves_root faults w config errors :
  preserves root_handlers (after_install faults w config errors)
  /\ preserves root_level (after_install faults w config errors)
  /\ preserves root_propagate (after_install faults w config errors)
  /\ preserves listeners (after_install faults w config errors)
  /\ preserves fs_dirs (after_install faults w config errors).
Proof.
  unfold after_install.
  repeat split; solve_preserves;
    try (intros p; destruct (get_memory_usage w); [|done];
         unfold do_call; by destruct (faults _)).
  all: by intros p.
Qed.

Lemma after_install_returns faults w config errors :
  no_faults faults ->
  (enable_memory_logging config = true -> exists m, get_memory_usage w = Ok m) ->
  returns (after_install faults w config errors).
Proof.
  intros Hno Hp. unfold after_install.
  apply returns_bind; [by apply returns_do_call |].
  apply returns_bind;
    [apply returns_for_each; intros ?; by apply returns_do_call |].
  apply returns_bind.
  - destruct (enable_memory_logging config); [|apply returns_ret].
    destruct Hp as (m & Hm); [done |]. intros p. simpl. rewrite Hm.
    unfold do_call. by rewrite Hno.
  - by destruct (enable_stack_trace_logging config).
Qed.

Lemma configure_logging_returns faults w config errors p :
  no_faults faults ->
  (enable_memory_logging config = true -> exists m, get_memory_usage w = Ok m) ->
  configure_logging faults w config errors p
  = (Ok tt,
     (after_install faults w config errors
        (install_handlers faults config
           (bootstrap_1_4 faults config p).2).2).2).
Proof.
  intros Hno Hp. unfold configure_logging, bootstrap_1_5.
  rewrite (bind_returns (bind _ _)) by
    (apply (bootstrap_1_5_returns faults config Hno)).
  rewrite (bind_returns (bootstrap_1_4 faults config))
    by (by apply bootstrap_1_4_returns).
  pose proof (after_install_returns faults w config errors Hno Hp
                (install_handlers faults config
                   (bootstrap_1_4 faults config p).2).2) as Hret.
  destruct (after_install _ _ _ _ _) as [[[]|e] p']; simpl in *; done.
Qed.

Lemma bootstrap_1_4_listeners faults config p :
  no_faults faults ->
  listeners (bootstrap_1_4 faults config p).2
  = listeners p ++ [[file_handler config; stream_handler config]].
Proof.
  intros Hno. unfold bootstrap_1_4.
  assert (preserves listeners (ensure_directories faults config)) as Hd
    by (unfold ensure_directories; solve_preserves).
  assert (preserves listeners (ensure_files faults config)) as Hf
    by (unfold ensure_files; solve_preserves).
  assert (returns (ensure_directories faults config)) as Rd
    by (unfold ensure_directories; solve_returns Hno).
  assert (returns (ensure_files faults config)) as Rf
    by (unfold ensure_files; solve_returns Hno).
  rewrite bind_returns by apply Rd. rewrite bind_returns by apply Rf.
  unfold build_pipeline, bind, do_call. rewrite !Hno. simpl.
  by rewrite Hf, Hd.
Qed.

(** When nothing fails, [configure_logging] returns with the root logger
    holding exactly the stream handler, the file handler and the queue
    handler, in that order and whatever it held before, at the configured
    level and with propagation off; one more listener thread, over the file
    and the stream handler, has been started. *)
Theorem configure_logging_installs_pipeline faults w config errors p :
  no_faults faults ->
  (enable_memory_logging config = true -> exists m, get_memory_usage w = Ok m) ->
  let run := configure_logging faults w config errors p in
  run.1 = Ok tt
  /\ root_handlers run.2
     = [stream_handler config; file_handler config; queue_handler config]
  /\ root_level run.2 = log_level config
  /\ root_propagate run.2 = false
  /\ listeners run.2
     = listeners p ++ [[file_handler config; stream_handler config]].
Proof.
  intros Hno Hp run. subst run.
  rewrite configure_logging_returns by done. simpl.
  destruct (after_install_preserves_root faults w config errors)
    as (Hh & Hl & Hpr & Hls & _).
  rewrite Hh, Hl, Hpr, Hls.
  destruct (install_handlers_root faults config
              (bootstrap_1_4 faults config p).2 Hno) as (H1 & H2 & H3).
  repeat split; try done.
  assert (preserves listeners (install_handlers faults config)) as Hi
    by (unfold install_handlers; solve_preserves).
  rewrite Hi. by apply bootstrap_1_4_listeners.
Qed.

Lemma configure_logging_installs_pipeline_witness :
  let config := flags true true true true in
  let run := configure_logging (fun _ => None) sample_env config []
               running_process in
  run.1 = Ok tt
  /\ root_handlers run.2
     = [ StreamHandler "WARNING";
         RotatingFileHandler "logs/health_service.log" 5000000 5 "DEBUG";
         QueueHandler 10000 ]
  /\ length (listeners run.2) = 1%nat.
Proof.
  intros config run.
  destruct (configure_logging_installs_pipeline (fun _ => None) sample_env
              config [] running_process) as (Hok & Hroot & _ & _ & Hls).
  - intros c. reflexivity.
  - intros _. eexists. apply sample_probe.
  - split; [exact Hok |]. split; [exact Hroot |].
    fold run in Hls. rewrite Hls. reflexivity.
Defined.





Lemma for_each_errors_lines faults w (errors : list string) p :
  no_faults faults ->
  let p' :=
    (for_each errors (fun error =>
       let line := "⚠️ Configuration Error: " +:+ error in
       do_call faults (ErrorLoggerError line)
         (fun p =>
            set_error_logger id (fun ls => ls ++ [line])
              (write_record w line p))) p) in
  p'.1 = Ok tt
  /\ error_logger_lines p'.2
     = error_logger_lines p ++ map (String.append CONFIG_ERROR_PREFIX) errors
  /\ error_logger_handlers p'.2 = error_logger_handlers p.
Proof.
  intros Hno. revert p. induction errors as [|e errors IH]; intros p;
    cbn [for_each map].
  - simpl. by rewrite app_nil_r.
  - assert (forall c effect, do_call faults c effect p = (Ok tt, effect p))
      as Hcall by (intros c effect; unfold do_call; by rewrite Hno).
    rewrite bind_returns by (by rewrite Hcall). rewrite Hcall.
    cbn [fst snd].
    destruct (IH (set_error_logger id
                    (fun ls => ls ++ ["⚠️ Configuration Error: " +:+ e])
                    (write_record w ("⚠️ Configuration Error: " +:+ e) p)))
      as (Hok & Hlines & Hh).
    cbv zeta in Hok, Hlines, Hh |- *.
    split; [exact Hok |]. split; [|exact Hh].
    rewrite Hlines. simpl. by rewrite <- app_assoc.
Qed.

Lemma after_install_error_logger faults w config errors p :
  no_faults faults ->
  let p' := (after_install faults w config errors p).2 in
  error_logger_lines p'
  = error_logger_lines p ++ map (String.append CONFIG_ERROR_PREFIX) errors
  /\ error_logger_handlers p'
     = error_logger_handlers p ++ [error_handler config].
Proof.
  intros Hno. unfold after_install.
  assert (forall c effect, do_call faults c effect p = (Ok tt, effect p))
    as Hcall by (intros c effect; unfold do_call; by rewrite Hno).
  rewrite bind_returns by (by rewrite Hcall). rewrite Hcall. cbn [fst snd].
  set (p1 := set_error_logger _ id p).
  destruct (for_each_errors_lines faults w errors p1 Hno) as (Hok & Hl & Hh).
  rewrite bind_returns by exact Hok.
  set (p2 := (for_each errors _ p1).2) in *.
  assert (preserves error_logger_lines
            (when (enable_memory_logging config)
               (fun p => match get_memory_usage w with
                         | Ok m =>
                             do_call faults
                               (LoggerInfo "ℹ️ Logging system initialized")
                               (fun p =>
                                  add_info_line "ℹ️ Logging system initialized"
                                    m
                                    (write_record w
                                       "ℹ️ Logging system initialized" p))
                               p
                         | Raise e => (Raise e, p)
                         end) ;;;
             when (enable_stack_trace_logging config)
               (fun p => (Ok tt, set_include_stack_trace true p)))) as Hpl.
  { solve_preserves; intros q; [|done].
    destruct (get_memory_usage w); [|done]. unfold do_call.
    by destruct (faults _). }
  assert (preserves error_logger_handlers
            (when (enable_memory_logging config)
               (fun p => match get_memory_usage w with
                         | Ok m =>
                             do_call faults
                               (LoggerInfo "ℹ️ Logging system initialized")
                               (fun p =>
                                  add_info_line "ℹ️ Logging system initialized"
                                    m
                                    (write_record w
                                       "ℹ️ Logging system initialized" p))
                               p
                         | Raise e => (Raise e, p)
                         end) ;;;
             when (enable_stack_trace_logging config)
               (fun p => (Ok tt, set_include_stack_trace true p)))) as Hph.
  { solve_preserves; intros q; [|done].
    destruct (get_memory_usage w); [|done]. unfold do_call.
    by destruct (faults _). }
  rewrite Hpl, Hph, Hl, Hh. by subst p1.
Qed.

Lemma bootstrap_1_5_preserves_error_logger faults config :
  preserves error_logger_lines (bootstrap_1_5 faults config)
  /\ preserves error_logger_handlers (bootstrap_1_5 faults config)
  /\ preserves root_info_lines (bootstrap_1_5 faults config)
  /\ preserves include_stack_trace (bootstrap_1_5 faults config).
Proof.
  unfold bootstrap_1_5, bootstrap_1_4, ensure_directories, ensure_files,
    build_pipeline, install_handlers.
  repeat split; solve_preserves.
Qed.

(** The configuration errors collected before logging existed are each
    written once to the error logger, in the order collected and after
    what it had written before; the call adds one more error handler to
    that logger and removes none. *)
Theorem configure_logging_replays_config_errors faults w config errors p :
  no_faults faults ->
  (enable_memory_logging config = true -> exists m, get_memory_usage w = Ok m) ->
  let p' := (configure_logging faults w config errors p).2 in
  error_logger_lines p'
  = error_logger_lines p ++ map (String.append CONFIG_ERROR_PREFIX) errors
  /\ error_logger_handlers p'
     = error_logger_handlers p ++ [error_handler config].
Proof.
  intros Hno Hp p'. subst p'.
  rewrite configure_logging_returns by done. simpl.
  destruct (after_install_error_logger faults w config errors
              (install_handlers faults config
                 (bootstrap_1_4 faults config p).2).2 Hno) as [Hl Hh].
  rewrite Hl, Hh.
  destruct (bootstrap_1_5_preserves_error_logger faults config)
    as (Pl & Ph & _ & _).
  specialize (Pl p). specialize (Ph p). unfold bootstrap_1_5 in Pl, Ph.
  rewrite bind_returns in Pl, Ph by (by apply bootstrap_1_4_returns).
  by rewrite Pl, Ph.
Qed.

Lemma configure_logging_replays_config_errors_witness :
  error_logger_lines
    (configure_logging (fun _ => None) sample_env
       (flags false false false false)
       ["❌ Configuration file is empty or invalid."; "second"]
       running_process).2
  = [ CONFIG_ERROR_PREFIX +:+ "❌ Configuration file is empty or invalid.";
      CONFIG_ERROR_PREFIX +:+ "second" ].
Proof.
  destruct (configure_logging_replays_config_errors (fun _ => None) sample_env
              (flags false false false false)
              ["❌ Configuration file is empty or invalid."; "second"]
              running_process) as [Hlines _].
  - intros c. reflexivity.
  - intros Hoff. discriminate Hoff.
  - rewrite Hlines. reflexivity.
Defined.

Lemma after_install_prefix faults w config errors p :
  no_faults faults ->
  exists p2,
    after_install faults w config errors p
    = (when (enable_memory_logging config)
         (fun p => match get_memory_usage w with
                   | Ok memory_usage_mb =>
                       do_call faults
                         (LoggerInfo "ℹ️ Logging system initialized")
                         (fun p =>
                            add_info_line "ℹ️ Logging system initialized"
                              memory_usage_mb
                              (write_record w "ℹ️ Logging system initialized"
                                 p)) p
                   | Raise e => (Raise e, p)
                   end) ;;;
       when (enable_stack_trace_logging config)
         (fun p => (Ok tt, set_include_stack_trace true p))) p2
    /\ root_info_lines p2 = root_info_lines p
    /\ include_stack_trace p2 = include_stack_trace p.
Proof.
  intros Hno. unfold after_install.
  assert (forall c effect, do_call faults c effect p = (Ok tt, effect p))
    as Hcall by (intros c effect; unfold do_call; by rewrite Hno).
  rewrite bind_returns by (by rewrite Hcall). rewrite Hcall. cbn [fst snd].
  set (p1 := set_error_logger _ id p).
  destruct (for_each_errors_lines faults w errors p1 Hno) as (Hok & _ & _).
  rewrite bind_returns by exact Hok.
  eexists. split; [reflexivity |].
  assert (forall B (f : Process -> B),
            (forall q line,
               f (set_error_logger id (fun ls => ls ++ [line])
                    (write_record w line q)) = f q) ->
            f (for_each errors
                 (fun error =>
                    let line := "⚠️ Configuration Error: " +:+ error in
                    do_call faults (ErrorLoggerError line)
                      (fun p =>
                         set_error_logger id (fun ls => ls ++ [line])
                           (write_record w line p))) p1).2
            = f p1) as Hfe.
  { intros B f Hf.
    assert (preserves f
              (for_each errors
                 (fun error =>
                    let line := "⚠️ Configuration Error: " +:+ error in
                    do_call faults (ErrorLoggerError line)
                      (fun p =>
                         set_error_logger id (fun ls => ls ++ [line])
                           (write_record w line p)))))
      as Hpres.
    { apply preserves_for_each. intros x. apply preserves_do_call.
      intros q. apply Hf. }
    apply Hpres. }
  split; rewrite Hfe by done; by subst p1.
Qed.

(** The start-up record is logged on the root logger exactly when memory
    logging is on, carrying what the probe returned, and the attribute
    [include_stack_trace] of the formatter is set when
    [enable_stack_trace_logging] is on and left alone when it is off. *)
Theorem configure_logging_startup_record faults w config errors p :
  no_faults faults ->
  (enable_memory_logging config = true -> exists m, get_memory_usage w = Ok m) ->
  let p' := (configure_logging faults w config errors p).2 in
  root_info_lines p'
  = root_info_lines p
      ++ (if enable_memory_logging config
          then match get_memory_usage w with
               | Ok m => [(STARTUP_LINE, m)]
               | Raise _ => []
               end
          else [])
  /\ include_stack_trace p'
     = enable_stack_trace_logging config || include_stack_trace p.
Proof.
  intros Hno Hp p'. subst p'.
  rewrite configure_logging_returns by done. cbn [snd].
  set (p5 := (install_handlers faults config _).2).
  assert (root_info_lines p5 = root_info_lines p
          /\ include_stack_trace p5 = include_stack_trace p) as [Hi5 Hs5].
  { destruct (bootstrap_1_5_preserves_error_logger faults config)
      as (_ & _ & Pi & Ps).
    specialize (Pi p). specialize (Ps p). unfold bootstrap_1_5 in Pi, Ps.
    rewrite bind_returns in Pi, Ps by (by apply bootstrap_1_4_returns).
    done. }
  destruct (after_install_prefix faults w config errors p5 Hno)
    as (p2 & -> & Hi2 & Hs2).
  rewrite <- Hi5, <- Hs5, <- Hi2, <- Hs2.
  unfold bind, when, ret, do_call.
  destruct (enable_memory_logging config).
  - destruct Hp as (m & Hm); [done |]. rewrite Hm, Hno. simpl.
    destruct (enable_stack_trace_logging config); simpl; done.
  - simpl. rewrite app_nil_r.
    destruct (enable_stack_trace_logging config); simpl; done.
Qed.

Lemma configure_logging_startup_record_witness :
  let p' := (configure_logging (fun _ => None) sample_env
               (flags true false false false) [] running_process).2 in
  root_info_lines p' = [(STARTUP_LINE, PFloat (5000 # 100))]
  /\ include_stack_trace p' = false.
Proof.
  intros p'.
  destruct (configure_logging_startup_record (fun _ => None) sample_env
              (flags true false false false) [] running_process)
    as [Hlines Hattr].
  - intros c. reflexivity.
  - intros _. eexists. apply sample_probe.
  - split; [exact Hlines | exact Hattr].
Defined.

(** With memory logging on, a failure of [psutil] that [get_memory_usage]
    does not catch makes [configure_logging] raise its
    [LoggingConfigurationError] after the pipeline has been installed: the
    new handlers are on the root logger and the listener runs. *)
Theorem probe_failure_after_installation faults w config errors p e :
  no_faults faults ->
  enable_memory_logging config = true ->
  psutil_probe w = PsutilRaises e ->
  probe_except (exn_cls e) = false ->
  let run := configure_logging faults w config errors p in
  run.1 = Raise (Exn LoggingConfigurationError
                   (CONFIGURE_ERROR +:+ str_exn e))
  /\ root_handlers run.2
     = [stream_handler config; file_handler config; queue_handler config]
  /\ listeners run.2
     = listeners p ++ [[file_handler config; stream_handler config]].
Proof.
  intros Hno Hflag Hprobe Hclass run. subst run.
  unfold configure_logging.
  rewrite (bind_returns (bootstrap_1_5 faults config))
    by (by apply bootstrap_1_5_returns).
  set (p5 := (bootstrap_1_5 faults config p).2).
  destruct (after_install_preserves_root faults w config errors)
    as (Hh & _ & _ & Hls & _).
  specialize (Hh p5). specialize (Hls p5).
  destruct (after_install_prefix faults w config errors p5 Hno)
    as (p2 & Heq & _ & _).
  rewrite Heq in Hh, Hls |- *.
  unfold bind, when in Hh, Hls |- *.
  rewrite Hflag, (get_memory_usage_propagates _ _ Hprobe Hclass) in Hh, Hls |- *.
  cbn [fst snd] in Hh, Hls |- *. rewrite Hh, Hls. subst p5.
  unfold bootstrap_1_5.
  rewrite bind_returns by (by apply bootstrap_1_4_returns).
  destruct (install_handlers_root faults config
              (bootstrap_1_4 faults config p).2 Hno) as (H1 & _ & _).
  assert (preserves listeners (install_handlers faults config)) as Hi
    by (unfold install_handlers; solve_preserves).
  rewrite H1, Hi, bootstrap_1_4_listeners by done. done.
Qed.

Lemma probe_failure_after_installation_witness :
  let run := configure_logging (fun _ => None) broken_env
               (flags true false false false) [] running_process in
  run.1 = Raise (Exn LoggingConfigurationError
                   (CONFIGURE_ERROR +:+ "[Errno 5] Input/output error"))
  /\ root_handlers run.2
     = [ StreamHandler "WARNING";
         RotatingFileHandler "logs/health_service.log" 5000000 5 "DEBUG";
         QueueHandler 10000 ].
Proof.
  intros run.
  destruct (probe_failure_after_installation (fun _ => None) broken_env
              (flags true false false false) [] running_process
              (Exn OSError "[Errno 5] Input/output error"))
    as (Hraise & Hroot & _).
  - intros c. reflexivity.
  - reflexivity.
  - reflexivity.
  - reflexivity.
  - split; [exact Hraise | exact Hroot].
Defined.

Lemma for_each_files_existing faults (l : list string) p :
  (forall path, path ∈ l -> is_Some (fs_modes p !! path)) ->
  (forall c, (forall path, c <> OpenAppend path) -> faults c = None) ->
  (for_each l (fun path =>
     (fun p =>
        when (bool_decide (fs_modes p !! path = None))
          (do_call faults (OpenAppend path)
             (set_fs_modes (fun fs => <[path := 420]> fs))) p) ;;;
     do_call faults (Chmod path)
       (set_fs_modes (fun fs => <[path := 384]> fs))) p).1 = Ok tt.
Proof.
  intros Hex Hfaults. revert p Hex.
  induction l as [|a l IH]; intros p Hex; cbn [for_each]; [done |].
  assert (faults (Chmod a) = None) as Hchmod
    by (apply Hfaults; intros path; discriminate).
  assert (bool_decide (fs_modes p !! a = None) = false) as Hdec.
  { apply bool_decide_eq_false. destruct (Hex a) as [m Hm]; [left |].
    by rewrite Hm. }
  unfold bind at 1. unfold bind at 1. rewrite Hdec. cbn [when ret].
  unfold do_call at 1. rewrite Hchmod.
  apply IH. intros path Hpath. simpl.
  destruct (decide (a = path)) as [-> | Hne].
  - rewrite lookup_insert_eq. eauto.
  - rewrite lookup_insert_ne by done. apply Hex. by right.
Qed.

(** A log file that exists is never opened: when every log file is there,
    a failing [open] cannot make steps 1 and 2 fail; the file only gets its
    mode set. *)
Theorem ensure_files_never_opens_existing_file faults config p :
  (forall path, path ∈ log_paths config -> is_Some (fs_modes p !! path)) ->
  (forall c, (forall path, c <> OpenAppend path) -> faults c = None) ->
  (ensure_files faults config p).1 = Ok tt.
Proof. intros Hex Hfaults. by apply for_each_files_existing. Qed.

Lemma ensure_files_never_opens_existing_file_witness :
  (ensure_files open_fails (flags true true true true) process_with_logs).1
  = Ok tt.
Proof.
  apply ensure_files_never_opens_existing_file.
  - intros path Hpath. unfold log_paths in Hpath. simpl in Hpath.
    apply elem_of_cons in Hpath as [-> | Hpath].
    + eexists. reflexivity.
    + apply elem_of_cons in Hpath as [-> | Hpath]; [eexists; reflexivity |].
      by apply elem_of_nil in Hpath.
  - intros c Hc. destruct c; try reflexivity. by destruct (Hc path).
Defined.

Lemma configure_logging_state faults w config errors p :
  no_faults faults ->
  (enable_memory_logging config = true -> exists m, get_memory_usage w = Ok m) ->
  let p' := (configure_logging faults w config errors p).2 in
  root_handlers p'
  = [stream_handler config; file_handler config; queue_handler config]
  /\ listeners p'
     = listeners p ++ [[file_handler config; stream_handler config]]
  /\ error_logger_handlers p'
     = error_logger_handlers p ++ [error_handler config]
  /\ error_logger_lines p'
     = error_logger_lines p ++ map (String.append CONFIG_ERROR_PREFIX) errors.
Proof.
  intros Hno Hp p'. subst p'.
  rewrite configure_logging_returns by done. cbn [snd].
  destruct (after_install_preserves_root faults w config errors)
    as (Hh & _ & _ & Hls & _).
  rewrite Hh, Hls.
  destruct (install_handlers_root faults config
              (bootstrap_1_4 faults config p).2 Hno) as (H1 & _ & _).
  assert (preserves listeners (install_handlers faults config)) as Hi
    by (unfold install_handlers; solve_preserves).
  rewrite H1, Hi, bootstrap_1_4_listeners by done.
  destruct (after_install_error_logger faults w config errors
              (install_handlers faults config
                 (bootstrap_1_4 faults config p).2).2 Hno) as [Hl Hhd].
  rewrite Hl, Hhd.
  destruct (bootstrap_1_5_preserves_error_logger faults config)
    as (Pl & Ph & _ & _).
  specialize (Pl p). specialize (Ph p). unfold bootstrap_1_5 in Pl, Ph.
  rewrite bind_returns in Pl, Ph by (by apply bootstrap_1_4_returns).
  by rewrite Pl, Ph.
Qed.

(** Configuring a second time does not double the handlers of the root
    logger, but nothing of the first pipeline is taken down: a second
    listener thread runs beside the first, the error logger has two error
    handlers, and configuration errors still in [CONFIG_ERRORS] are written
    a second time. *)
Theorem configure_logging_twice faults w config errors p :
  no_faults faults ->
  (enable_memory_logging config = true -> exists m, get_memory_usage w = Ok m) ->
  let p1 := (configure_logging faults w config errors p).2 in
  let p2 := (configure_logging faults w config errors p1).2 in
  root_handlers p2 = root_handlers p1
  /\ listeners p2
     = listeners p
         ++ [ [file_handler config; stream_handler config];
              [file_handler config; stream_handler config] ]
  /\ error_logger_handlers p2
     = error_logger_handlers p ++ [error_handler config; error_handler config]
  /\ error_logger_lines p2
     = error_logger_lines p
         ++ map (String.append CONFIG_ERROR_PREFIX) (errors ++ errors).
Proof.
  intros Hno Hp p1 p2.
  destruct (configure_logging_state faults w config errors p Hno Hp)
    as (Hr1 & Hl1 & Hh1 & He1).
  destruct (configure_logging_state faults w config errors p1 Hno Hp)
    as (Hr2 & Hl2 & Hh2 & He2).
  fold p1 in Hr1, Hl1, Hh1, He1. fold p2 in Hr2, Hl2, Hh2, He2.
  rewrite Hr2, Hl2, Hh2, He2, Hr1, Hl1, Hh1, He1, map_app, <- !app_assoc.
  done.
Qed.

Lemma configure_logging_twice_witness :
  let config := flags false false false false in
  let p1 := (configure_logging (fun _ => None) sample_env config ["late"]
               running_process).2 in
  let p2 := (configure_logging (fun _ => None) sample_env config ["late"]
               p1).2 in
  length (root_handlers p2) = 3%nat
  /\ length (listeners p2) = 2%nat
  /\ error_logger_lines p2
     = [CONFIG_ERROR_PREFIX +:+ "late"; CONFIG_ERROR_PREFIX +:+ "late"].
Proof.
  intros config p1 p2.
  destruct (configure_logging_twice (fun _ => None) sample_env config ["late"]
              running_process) as (Hroot & Hls & _ & Hlines).
  - intros c. reflexivity.
  - intros Hoff. discriminate Hoff.
  - fold p1 in Hroot, Hls, Hlines. fold p2 in Hroot, Hls, Hlines.
    rewrite Hls, Hlines, Hroot. split; [reflexivity |].
    split; reflexivity.
Defined.

(** ** Loading the configuration *)

Lemma fold_setdefault_lookup (l : list (string * pyval)) (d : dict) k :
  fold_left (fun d kv => ConfigPy.setdefault kv.1 kv.2 d) l d !! k
  = match d !! k with
    | Some v => Some v
    | None => (list_to_map l : dict) !! k
    end.
Proof.
  revert d. induction l as [|[a x] l IH]; intros d; simpl.
  - by destruct (d !! k).
  - rewrite IH. unfold ConfigPy.setdefault.
    destruct (decide (a = k)) as [-> | Hne].
    + destruct (d !! k) eqn:E; [by rewrite E |].
      by rewrite !lookup_insert_eq.
    + destruct (d !! a) eqn:Ea.
      * by rewrite lookup_insert_ne.
      * by rewrite !lookup_insert_ne.
Qed.

Lemma apply_logging_defaults_map (m : gmap string ConfigPy.section) d :
  (m !! "logging" = None /\ d = ∅) \/ m !! "logging" = Some (ConfigPy.SectionMap d) ->
  ConfigPy.apply_logging_defaults m
  = inr (<["logging" :=
            ConfigPy.SectionMap
              (fold_left (fun d kv => ConfigPy.setdefault kv.1 kv.2 d)
                 ConfigPy.logging_defaults d)]> m).
Proof.
  unfold ConfigPy.apply_logging_defaults. intros [[Hm ->] | Hm]; rewrite Hm.
  - rewrite lookup_insert_eq. by rewrite insert_insert_eq.
  - by rewrite Hm.
Qed.

(** A settings file whose [logging] section is missing or incomplete is
    validated with every logging default filled in: a key the file gives
    keeps the file's value, every other default key gets its default, and
    the other sections reach the validation untouched.  The outcome of
    [load] is the outcome of that validation. *)
Theorem load_fills_logging_defaults {C} (env : ConfigPy.Loader C)
    settings_file st m d :
  ConfigPy.open_and_load env (ConfigPy.settings_path env settings_file)
  = ConfigPy.Loaded (ConfigPy.DocMap m) ->
  m <> ∅ ->
  (m !! "logging" = None /\ d = ∅)
  \/ m !! "logging" = Some (ConfigPy.SectionMap d) ->
  exists d' : dict,
    (forall k,
       d' !! k = match d !! k with
                 | Some v => Some v
                 | None => (list_to_map ConfigPy.logging_defaults : dict) !! k
                 end)
    /\ ConfigPy.load env settings_file st
       = match ConfigPy.model_validate env
                 (<["logging" := ConfigPy.SectionMap d']> m) with
         | inr config => (inr config, st)
         | inl msg =>
             (inl (ConfigPy.Exn ConfigPy.ValidationError msg),
              ConfigPy.record_error ("❌ " +:+ msg) st)
         end.
Proof.
  intros Hread Hne Hlog.
  exists (fold_left (fun d kv => ConfigPy.setdefault kv.1 kv.2 d)
            ConfigPy.logging_defaults d).
  split; [intros k; apply fold_setdefault_lookup |].
  unfold ConfigPy.load, ConfigPy.load_body. rewrite Hread.
  assert (ConfigPy.doc_truthy (ConfigPy.DocMap m) = true) as Ht.
  { simpl. by rewrite bool_decide_eq_false_2. }
  rewrite Ht. cbn [negb]. rewrite Ht. cbn [negb].
  rewrite (apply_logging_defaults_map m d Hlog).
  by destruct (ConfigPy.model_validate env _).
Qed.

Lemma load_fills_logging_defaults_witness :
  exists d' : dict,
    ConfigPy.load ConfigPy.partial_logging_loader "settings.yaml"
      ConfigPy.no_errors
    = (inr (<["logging" := ConfigPy.SectionMap d']>
              {[ "logging" :=
                   ConfigPy.SectionMap {[ "log_level" := PStr "ERROR" ]} ]}),
       ConfigPy.no_errors)
    /\ d' !! "log_level" = Some (PStr "ERROR")
    /\ d' !! "max_backup_files" = Some (PInt 5).
Proof.
  destruct (load_fills_logging_defaults ConfigPy.partial_logging_loader
              "settings.yaml" ConfigPy.no_errors
              {[ "logging" :=
                   ConfigPy.SectionMap {[ "log_level" := PStr "ERROR" ]} ]}
              {[ "log_level" := PStr "ERROR" ]})
    as (d' & Hd' & Hload).
  - reflexivity.
  - intros Habs.
    assert (({[ "logging" :=
                  ConfigPy.SectionMap {[ "log_level" := PStr "ERROR" ]} ]}
             : gmap string ConfigPy.section) !! "logging" = None) as Hnone
      by (rewrite Habs; apply lookup_empty).
    rewrite lookup_singleton_eq in Hnone. discriminate Hnone.
  - right. apply lookup_singleton_eq.
  - exists d'. split; [exact Hload |]. split.
    + rewrite Hd', lookup_singleton_eq. reflexivity.
    + rewrite Hd', lookup_singleton_ne by string_neq. reflexivity.
Defined.

(** An empty settings file, or one that holds only an empty mapping, an
    empty list, an empty string, zero or [false], raises the [ValueError]
    "Configuration file is empty or invalid." and records that message,
    once, in [CONFIG_ERRORS] and on standard error. *)
Theorem load_empty_document {C} (env : ConfigPy.Loader C) settings_file st doc :
  ConfigPy.open_and_load env (ConfigPy.settings_path env settings_file)
  = ConfigPy.Loaded doc ->
  ConfigPy.doc_truthy doc = false ->
  ConfigPy.load env settings_file st
  = (inl (ConfigPy.Exn ConfigPy.ValueError ConfigPy.EMPTY_FILE),
     {| ConfigPy.CONFIG_ERRORS :=
          ConfigPy.CONFIG_ERRORS st ++ ["❌ " +:+ ConfigPy.EMPTY_FILE];
        ConfigPy.stderr :=
          ConfigPy.stderr st ++ ["❌ " +:+ ConfigPy.EMPTY_FILE] |}).
Proof.
  intros Hread Hfalsy. unfold ConfigPy.load, ConfigPy.load_body.
  rewrite Hread, Hfalsy. reflexivity.
Qed.

Lemma load_empty_document_witness :
  ConfigPy.CONFIG_ERRORS
    (ConfigPy.load ConfigPy.empty_file_loader "settings.yaml"
       ConfigPy.no_errors).2
  = ["❌ Configuration file is empty or invalid."].
Proof.
  rewrite (load_empty_document ConfigPy.empty_file_loader "settings.yaml"
             ConfigPy.no_errors (ConfigPy.DocValue PNone) eq_refl eq_refl).
  reflexivity.
Defined.

(** When the settings file is not there, [load] raises a new
    [FileNotFoundError] whose message names the path it tried, and records
    that message once.  The path is the one of [TEST_CONFIG_PATH] or the
    default: the path given as argument plays no part, so that
    [load_config] does the same. *)
Theorem load_missing_file {C} (env : ConfigPy.Loader C) settings_file st e :
  ConfigPy.open_and_load env (ConfigPy.settings_path env settings_file)
  = ConfigPy.ReadRaises e ->
  ConfigPy.cls e = ConfigPy.FileNotFoundError ->
  let line :=
    "❌ Configuration file `" +:+ ConfigPy.settings_path env settings_file
      +:+ "` not found." in
  ConfigPy.load env settings_file st
  = (inl (ConfigPy.Exn ConfigPy.FileNotFoundError line),
     ConfigPy.record_error line st)
  /\ (forall other_file st',
        ConfigPy.load env other_file st' = ConfigPy.load env settings_file st')
  /\ ConfigPy.load_config env st = ConfigPy.load env settings_file st.
Proof.
  intros Hread Hcls line. split; [|done].
  unfold ConfigPy.load, ConfigPy.load_body. by rewrite Hread, Hcls.
Qed.

Lemma load_missing_file_witness :
  ConfigPy.load ConfigPy.missing_file_loader "non_existent.yaml"
    ConfigPy.no_errors
  = (inl (ConfigPy.Exn ConfigPy.FileNotFoundError
            "❌ Configuration file `/srv/health/config/settings.yaml` not found."),
     {| ConfigPy.CONFIG_ERRORS :=
          ["❌ Configuration file `/srv/health/config/settings.yaml` not found."];
        ConfigPy.stderr :=
          ["❌ Configuration file `/srv/health/config/settings.yaml` not found."] |}).
Proof.
  destruct (load_missing_file ConfigPy.missing_file_loader "non_existent.yaml"
              ConfigPy.no_errors
              (ConfigPy.Exn ConfigPy.FileNotFoundError
                 "[Errno 2] No such file or directory") eq_refl eq_refl)
    as [Hload _].
  exact Hload.
Defined.

(** [load] adds at most one line to [CONFIG_ERRORS], and the same line to
    standard error: none when it returns a configuration, one when it
    raises a [FileNotFoundError], a [YAMLError] or a [ValueError]
    (validation errors included), and none for any other exception, which
    leaves [load] unrecorded. *)
Theorem load_records_at_most_one_error {C} (env : ConfigPy.Loader C)
    settings_file st :
  let run := ConfigPy.load env settings_file st in
  exists lines,
    ConfigPy.CONFIG_ERRORS run.2 = ConfigPy.CONFIG_ERRORS st ++ lines
    /\ ConfigPy.stderr run.2 = ConfigPy.stderr st ++ lines
    /\ match run.1 with
       | inr _ => lines = []
       | inl e =>
           match ConfigPy.cls e with
           | ConfigPy.FileNotFoundError | ConfigPy.YAMLError =>
               lines = [ConfigPy.message e]
           | c =>
               if ConfigPy.is_ValueError c
               then lines = ["❌ " +:+ ConfigPy.message e]
               else lines = []
           end
       end.
Proof.
  unfold ConfigPy.load.
  destruct (ConfigPy.load_body env _) as [e | config]; simpl.
  - destruct e as [c msg]. destruct c; simpl;
      first [ by exists []; rewrite !app_nil_r
            | by eexists [_] ].
  - exists []. by rewrite !app_nil_r.
Qed.

(** A settings file that is not a mapping, or whose [logging] entry is not
    a mapping (a bare [logging:] line), makes [load] raise an
    [AttributeError] that none of its [except] clauses catches: nothing is
    recorded in [CONFIG_ERRORS]. *)
Theorem load_non_mapping_is_not_recorded {C} (env : ConfigPy.Loader C)
    settings_file st doc v :
  ConfigPy.open_and_load env (ConfigPy.settings_path env settings_file)
  = ConfigPy.Loaded doc ->
  (doc = ConfigPy.DocValue v /\ ConfigPy.truthy v = true)
  \/ (exists m, doc = ConfigPy.DocMap m
                /\ m !! "logging" = Some (ConfigPy.SectionValue v)) ->
  ConfigPy.load env settings_file st = (inl (ConfigPy.no_setdefault v), st).
Proof.
  intros Hread Hdoc. unfold ConfigPy.load, ConfigPy.load_body. rewrite Hread.
  destruct Hdoc as [[-> Ht] | (m & -> & Hm)].
  - simpl. by rewrite Ht; simpl; rewrite Ht.
  - assert (ConfigPy.doc_truthy (ConfigPy.DocMap m) = true) as Ht.
    { simpl. rewrite bool_decide_eq_false_2; [done |].
      intros ->. by rewrite lookup_empty in Hm. }
    rewrite Ht. cbn [negb]. rewrite Ht. cbn [negb].
    unfold ConfigPy.apply_logging_defaults. by rewrite Hm, Hm.
Qed.

Lemma load_non_mapping_is_not_recorded_witness :
  ConfigPy.load ConfigPy.null_logging_loader "settings.yaml" ConfigPy.no_errors
  = (inl (ConfigPy.Exn ConfigPy.AttributeError
            "'NoneType' object has no attribute 'setdefault'"),
     ConfigPy.no_errors).
Proof.
  apply (load_non_mapping_is_not_recorded ConfigPy.null_logging_loader
           "settings.yaml" ConfigPy.no_errors
           (ConfigPy.DocMap {[ "logging" := ConfigPy.SectionValue PNone ]})
           PNone eq_refl).
  right. eexists. split; [reflexivity | apply lookup_singleton_eq].
Defined.

(** An error [load] has recorded is written by a later
    [configure_logging], called with the [CONFIG_ERRORS] that [load] left,
    as the last line of the error logger, behind the prefix
    "Configuration Error". *)
Theorem load_error_is_replayed {C} (env : ConfigPy.Loader C) settings_file st
    doc faults w config p :
  ConfigPy.open_and_load env (ConfigPy.settings_path env settings_file)
  = ConfigPy.Loaded doc ->
  ConfigPy.doc_truthy doc = false ->
  no_faults faults ->
  (enable_memory_logging config = true -> exists m, get_memory_usage w = Ok m) ->
  let st' := (ConfigPy.load env settings_file st).2 in
  error_logger_lines
    (configure_logging faults w config (ConfigPy.CONFIG_ERRORS st') p).2
  = error_logger_lines p
      ++ map (String.append CONFIG_ERROR_PREFIX) (ConfigPy.CONFIG_ERRORS st)
      ++ [CONFIG_ERROR_PREFIX +:+ "❌ " +:+ ConfigPy.EMPTY_FILE].
Proof.
  intros Hread Hfalsy Hno Hp st'. subst st'.
  destruct (configure_logging_state faults w config
              (ConfigPy.CONFIG_ERRORS (ConfigPy.load env settings_file st).2)
              p Hno Hp) as (_ & _ & _ & Hlines).
  rewrite Hlines. clear Hlines.
  assert (ConfigPy.CONFIG_ERRORS (ConfigPy.load env settings_file st).2
          = ConfigPy.CONFIG_ERRORS st ++ ["❌ " +:+ ConfigPy.EMPTY_FILE])
    as ->.
  { unfold ConfigPy.load, ConfigPy.load_body. rewrite Hread, Hfalsy.
    reflexivity. }
  rewrite map_app. reflexivity.
Qed.

Lemma load_error_is_replayed_witness :
  error_logger_lines
    (configure_logging (fun _ => None) sample_env
       (flags false false false false)
       (ConfigPy.CONFIG_ERRORS
          (ConfigPy.load ConfigPy.empty_file_loader "settings.yaml"
             ConfigPy.no_errors).2)
       running_process).2
  = ["⚠️ Configuration Error: ❌ Configuration file is empty or invalid."].
Proof.
  rewrite (load_error_is_replayed ConfigPy.empty_file_loader "settings.yaml"
             ConfigPy.no_errors (ConfigPy.DocValue PNone) (fun _ => None)
             sample_env (flags false false false false) running_process
             eq_refl eq_refl).
  - reflexivity.
  - intros c. reflexivity.
  - intros Hoff. discriminate Hoff.
Defined.

(** ** Execution timing *)

(** The decorator hands on what the function raises, and stores nothing
    then.  When the function returns, it stores the elapsed time under
    [execution_time_ms] if the keyword [log_extra] was given: in a
    dictionary, whose other keys stay as the function left them; on a
    built-in value that is no dictionary (such as [None]) the store raises
    a [TypeError] and the result of the function is lost; on an object of
    another class the item assignment of that class decides.  Without the
    keyword the result is returned and nothing is stored. *)
Theorem track_execution_time_stores_only_on_return {A R}
    (elapsed_ms : Q -> Q -> pyval)
    (func : A -> option extra_arg -> result R * option extra_arg)
    (object_setitem : string -> option exn)
    start_time end_time args log_extra :
  let call := track_execution_time elapsed_ms func object_setitem start_time
                end_time args log_extra in
  match func args log_extra, log_extra with
  | (Raise e, after_func), _ => call = (Raise e, after_func)
  | (Ok result, after_func), None => call = (Ok result, after_func)
  | (Ok result, Some (ExtraDict d)), Some _ =>
      exists d',
        call = (Ok result, Some (ExtraDict d'))
        /\ d' !! "execution_time_ms" = Some (elapsed_ms start_time end_time)
        /\ forall k, k <> "execution_time_ms" -> d' !! k = d !! k
  | (Ok result, Some (ExtraOther v)), Some _ =>
      match v with
      | PObject repr =>
          call = (match object_setitem repr with
                  | Some e => Raise e
                  | None => Ok result
                  end, Some (ExtraOther v))
      | _ =>
          exists message,
            call = (Raise (Exn TypeError message), Some (ExtraOther v))
      end
  | (Ok result, None), Some _ => call = (Ok result, None)
  end.
Proof.
  unfold track_execution_time.
  destruct log_extra as [given|];
    destruct (func args _) as [[result|e] [[d|v]|]]; simpl; try done.
  - eexists. split; [reflexivity |]. split; [apply lookup_insert_eq |].
    intros k Hk. by rewrite lookup_insert_ne.
  - destruct v; simpl; try (eexists; reflexivity).
    by destruct (object_setitem repr).
Qed.

(** The context manager, unlike the decorator, has the elapsed time on
    every way out of the block, and lets an exception of the block go on:
    where the decorated function raising leaves [log_extra] without a
    time, the timer has one. *)
Theorem timing_when_the_code_raises {A R} (elapsed_ms : Q -> Q -> pyval)
    (func : A -> option extra_arg -> result R * option extra_arg)
    (object_setitem : string -> option exn)
    (body : ExecutionTimer -> result R) start_time end_time args d e :
  func args (Some (ExtraDict d)) = (Raise e, Some (ExtraDict d)) ->
  body {| timer_start_time := Some start_time;
          timer_execution_time_ms := None |} = Raise e ->
  track_execution_time elapsed_ms func object_setitem start_time end_time
    args (Some (ExtraDict d))
  = (Raise e, Some (ExtraDict d))
  /\ (with_ExecutionTimer elapsed_ms start_time end_time body).1 = Raise e
  /\ timer_execution_time_ms
       (with_ExecutionTimer elapsed_ms start_time end_time body).2
     = Some (elapsed_ms start_time end_time).
Proof.
  intros Hfunc Hbody. unfold track_execution_time, with_ExecutionTimer.
  rewrite Hfunc. simpl. by rewrite Hbody.
Qed.

Lemma timing_when_the_code_raises_witness :
  let elapsed := fun _ _ : Q => PFloat (1250 # 100) in
  let failing := fun (_ : unit) (le : option extra_arg) =>
                   (@Raise unit (Exn RuntimeError "Critical failure"), le) in
  track_execution_time elapsed failing (fun _ => None) 0 1 tt
    (Some (ExtraDict ∅))
  = (Raise (Exn RuntimeError "Critical failure"), Some (ExtraDict ∅))
  /\ timer_execution_time_ms
       (with_ExecutionTimer elapsed 0 1
          (fun _ => @Raise unit (Exn RuntimeError "Critical failure"))).2
     = Some (PFloat (1250 # 100)).
Proof.
  intros elapsed failing.
  destruct (timing_when_the_code_raises elapsed failing (fun _ => None)
              (fun _ => @Raise unit (Exn RuntimeError "Critical failure"))
              0 1 tt ∅ (Exn RuntimeError "Critical failure")
              eq_refl eq_refl) as (Hdec & _ & Htimer).
  split; [exact Hdec | exact Htimer].
Defined.

(** A time the decorator has stored reaches the emitted record: when the
    dictionary it filled is the metadata of the record and execution-time
    logging is on, [execution_time_ms] is emitted with the measured
    value. *)
Theorem measured_time_is_emitted {A R} (elapsed_ms : Q -> Q -> pyval)
    (func : A -> option extra_arg -> result R * option extra_arg)
    (object_setitem : string -> option exn)
    start_time end_time args d result d' w config r out :
  track_execution_time elapsed_ms func object_setitem start_time end_time
    args (Some (ExtraDict d))
  = (Ok result, Some (ExtraDict d')) ->
  extra_attrs r = d' ->
  enable_execution_time_logging config = true ->
  format w config r = Ok out ->
  out !! "execution_time_ms" = to_json (elapsed_ms start_time end_time)
  /\ is_Some (to_json (elapsed_ms start_time end_time)).
Proof.
  intros Hcall Hattrs Hflag H.
  assert (d' !! "execution_time_ms" = Some (elapsed_ms start_time end_time))
    as Hd'.
  { unfold track_execution_time in Hcall.
    destruct (func args (Some (ExtraDict d))) as [[res|e] [[d1|v1]|]];
      simpl in Hcall; try discriminate Hcall.
    - injection Hcall as _ <-. apply lookup_insert_eq.
    - destruct (setitem_raises object_setitem v1); discriminate Hcall. }
  apply format_inv in H as (sr & Hsr & Hd).
  pose proof (format_record_execution_time _ _ _ _ Hsr) as Hsrk.
  rewrite Hflag, Hattrs, Hd' in Hsrk. simpl in Hsrk.
  pose proof (json_dumps_lookup _ _ "execution_time_ms" Hd) as Hout.
  rewrite Hsrk in Hout. simpl in Hout. split; [exact Hout |].
  rewrite <- Hout. apply (json_dumps_is_Some _ _ _ Hd). rewrite Hsrk. eauto.
Qed.

Lemma measured_time_is_emitted_witness :
  let elapsed := fun _ _ : Q => PFloat (1250 # 100) in
  let func := fun (_ : unit) (le : option extra_arg) => (Ok tt, le) in
  exists out,
    format sample_env (flags false true false false)
      (sample_record "INFO" 20 None
         (<["execution_time_ms" := PFloat (1250 # 100)]> ∅)) = Ok out
    /\ out !! "execution_time_ms" = Some (JFloat (1250 # 100)).
Proof.
  intros elapsed func.
  destruct (sample_format_Ok (flags false true false false) "INFO" 20 None
              (<["execution_time_ms" := PFloat (1250 # 100)]> ∅))
    as (out & Hout).
  { apply encodable_insert; [reflexivity | apply encodable_empty]. }
  exists out. split; [exact Hout |].
  destruct (measured_time_is_emitted elapsed func (fun _ => None) 0 1 tt ∅ tt
              (<["execution_time_ms" := PFloat (1250 # 100)]> ∅)
              sample_env (flags false true false false)
              (sample_record "INFO" 20 None
                 (<["execution_time_ms" := PFloat (1250 # 100)]> ∅))
              out eq_refl eq_refl eq_refl Hout) as [Hemit _].
  exact Hemit.
Defined.
